(** * EstimaTB: estimation of a crop's basal temperature (Tb)

    Shallow embedding of the two programs of the repository:

    - [app.py] (module [App]): [validate_data], [calculate_tb] and the
      module-level application logic, which selects the Tb of minimal
      mean squared error (QME) on the fixed grid 0, 0.5, ..., 20;
    - [app_agrometeorologia_excel.py] (module [Excel]): [calcular_tmed],
      [calcular_std], [calcular_sta], [realizar_regressao],
      [estimar_tb_otimo], the analysis step of [main], which selects
      the Tb of maximal R² on a grid chosen by the user, and the
      recomputation of [mostrar_resultados]; also
      [detectar_colunas_automaticamente] (module [Colunas]).

    Numbers.  The programs compute on float64 values.  The data of a
    table and what is computed from them (thermal sums, regressions,
    scores) are modelled as exact rationals ([Q], compared with [==])
    together with the missing value [NaN]; rounding, overflow and
    infinities are outside the model there.  The candidate grids are
    different: how many candidates [np.arange] returns depends on the
    rounding of a few float64 operations, so the grid, and the arithmetic
    of the code that builds it, are modelled on IEEE 754 binary64 values
    ([spec_float] of the Standard Library, round to nearest even).

    Libraries.  pandas, numpy and scikit-learn are not part of the
    repository; the few operations the programs call are modelled in the
    first part of the file after their documented behaviour
    ([Series.cumsum] skips missing values, [idxmin]/[idxmax] return the
    first optimum, [LinearRegression.fit] rejects empty or non-finite
    input, a Series has no [reshape], ...). *)

From Stdlib Require Import QArith Qround Qminmax Lqa.
From Stdlib Require Import Floats.SpecFloat.
From stdpp Require Import base option list gmap strings.

Local Open Scope Q_scope.

(** ** Python exceptions and results *)

Inductive exn :=
  | ValueError
  | TypeError
  | KeyError
  | ZeroDivisionError
  | NameError
  | AttributeError
  | OverflowError.

Inductive result (A : Type) :=
  | Ok (a : A)
  | Raise (e : exn).
Arguments Ok {A} a.
Arguments Raise {A} e.

Definition raises {A} (r : result A) : Prop :=
  match r with Ok _ => False | Raise _ => True end.

(** ** float64 values and Series of them *)

Inductive num :=
  | NaN
  | Val (q : Q).

Definition isnan (x : num) : bool :=
  match x with NaN => true | Val _ => false end.

Definition notna (x : num) : bool := negb (isnan x).

Definition num_add (a b : num) : num :=
  match a, b with
  | Val p, Val q => Val (p + q)
  | _, _ => NaN
  end.

Definition num_sub (a b : num) : num :=
  match a, b with
  | Val p, Val q => Val (p - q)
  | _, _ => NaN
  end.

Definition num_div (a b : num) : num :=
  match a, b with
  | Val p, Val q => Val (p / q)
  | _, _ => NaN
  end.

(** [a > b] on floats: false as soon as one side is missing. *)
Definition num_gtb (a b : num) : bool :=
  match a, b with
  | Val p, Val q => if Qlt_le_dec q p then true else false
  | _, _ => false
  end.

(** [a < b] on floats: false as soon as one side is missing. *)
Definition num_ltb (a b : num) : bool :=
  match a, b with
  | Val p, Val q => if Qlt_le_dec p q then true else false
  | _, _ => false
  end.

(** [np.maximum]: element-wise maximum, missing if either side is. *)
Definition maximum (a b : num) : num :=
  match a, b with
  | Val p, Val q => if Qlt_le_dec p q then Val q else Val p
  | _, _ => NaN
  end.

(** The values of a Series when none is missing. *)
Fixpoint finite_values (l : list num) : option (list Q) :=
  match l with
  | [] => Some []
  | NaN :: _ => None
  | Val q :: l' =>
      match finite_values l' with
      | Some qs => Some (q :: qs)
      | None => None
      end
  end.

(** [Series.cumsum()] with its default [skipna=True]: a missing entry
    stays missing in the result and adds nothing to the running total.
    [np.cumsum] applied to a Series delegates to this method. *)
Fixpoint cumsum_from (acc : Q) (l : list num) : list num :=
  match l with
  | [] => []
  | NaN :: l' => NaN :: cumsum_from acc l'
  | Val q :: l' => Val (acc + q) :: cumsum_from (acc + q) l'
  end.

Definition cumsum (l : list num) : list num := cumsum_from 0 l.

(** [Series.dropna()]. *)
Definition dropna (l : list num) : list num := filter (fun x => notna x = true) l.

(** [Series.diff()]: the first entry has no predecessor. *)
Fixpoint diff_from (prev : num) (l : list num) : list num :=
  match l with
  | [] => []
  | x :: l' => num_sub x prev :: diff_from x l'
  end.

Definition diff (l : list num) : list num := diff_from NaN l.

(** ** binary64 arithmetic and [np.arange] *)

Definition float64 := spec_float.

Definition prec : Z := 53.
Definition emax : Z := 1024.

Definition fadd : float64 -> float64 -> float64 := SFadd prec emax.
Definition fsub : float64 -> float64 -> float64 := SFsub prec emax.
Definition fmul : float64 -> float64 -> float64 := SFmul prec emax.
Definition fdiv : float64 -> float64 -> float64 := SFdiv prec emax.

Definition float_of_Z (z : Z) : float64 := binary_normalize prec emax z 0 false.

(** The float64 nearest to the decimal [n / d]: what Python reads from
    a literal such as [0.1] or [20.5], and what a number typed into a
    numeric input becomes (division is correctly rounded and both
    operands are exact). *)
Definition decimal (n : Z) (d : positive) : float64 :=
  fdiv (float_of_Z n) (float_of_Z (Zpos d)).

(** The rational a finite float64 stands for, in lowest terms.  The
    candidates of a grid are finite unless an addition overflows, which
    is outside the model; a value that is not finite is read as 0. *)
Definition Q_of_float (x : float64) : Q :=
  match x with
  | S754_finite s m e => Qred (inject_Z (cond_Zopp s (Zpos m)) * Qpower 2 e)
  | _ => 0
  end.

Definition is_zero (x : float64) : bool :=
  match x with S754_zero _ => true | _ => false end.

Definition signbit (x : float64) : bool :=
  match x with
  | S754_zero s | S754_infinity s | S754_finite s _ _ => s
  | S754_nan => false
  end.

(** numpy's [_arange_safe_ceil_to_intp]: the ceiling of a float64 as an
    index; it fails on a value that is not a number or does not fit. *)
Definition ceil_to_intp (value : float64) : result Z :=
  match value with
  | S754_nan => Raise ValueError
  | S754_infinity _ => Raise OverflowError
  | _ =>
      let n := Qceiling (Q_of_float value) in
      if ((- 2 ^ 63 <=? n) && (n <=? 2 ^ 63))%Z then Ok n
      else Raise OverflowError
  end.

(** [np.arange(start, stop, step)] on Python floats.  The length is the
    ceiling of [(stop - start) / step], computed in float64 (Python
    raises [ZeroDivisionError] on a zero step; a quotient that
    underflows to zero counts for one value, or none if negative).  The
    first value is [start], the second [start + step], and value [i] is
    [start + i * delta] with [delta] the difference of the first two,
    each operation rounded.  Running out of memory on a grid of
    astronomic length is outside the model. *)
Definition arange (start stop step : float64) : result (list float64) :=
  let span := fsub stop start in
  if is_zero step then Raise ZeroDivisionError
  else
    let value := fdiv span step in
    match ceil_to_intp value with
    | Raise e => Raise e
    | Ok len =>
        let len := if is_zero value && negb (is_zero span)
                   then (if signbit value then 0 else 1)%Z
                   else len in
        match Z.to_nat len with
        | O => Ok []
        | S n =>
            let next := fadd start step in
            let delta := fsub next start in
            Ok (start
                :: match n with
                   | O => []
                   | S m =>
                       next
                       :: map (fun i => fadd start (fmul (float_of_Z (Z.of_nat i)) delta))
                              (seq 2 m)
                   end)
        end
    end.

(** [Series.idxmin()]: label of the first occurrence of the minimum;
    an empty Series raises [ValueError].  The labels of a results table
    are the positions 0, 1, 2, ... *)
Fixpoint idxmin_from (best_i : nat) (best : Q) (i : nat) (l : list Q) : nat :=
  match l with
  | [] => best_i
  | x :: l' =>
      if Qlt_le_dec x best then idxmin_from i x (S i) l'
      else idxmin_from best_i best (S i) l'
  end.

Definition idxmin (l : list Q) : result nat :=
  match l with
  | [] => Raise ValueError
  | x :: l' => Ok (idxmin_from 0 x 1 l')
  end.

(** [Series.idxmax()]: label of the first occurrence of the maximum,
    missing values being skipped; [ValueError] when there is no value to
    compare. *)
Fixpoint idxmax_from (best_i : nat) (best : Q) (i : nat) (l : list num) : nat :=
  match l with
  | [] => best_i
  | NaN :: l' => idxmax_from best_i best (S i) l'
  | Val x :: l' =>
      if Qlt_le_dec best x then idxmax_from i x (S i) l'
      else idxmax_from best_i best (S i) l'
  end.

Fixpoint idxmax_at (i : nat) (l : list num) : result nat :=
  match l with
  | [] => Raise ValueError
  | NaN :: l' => idxmax_at (S i) l'
  | Val x :: l' => Ok (idxmax_from i x (S i) l')
  end.

Definition idxmax (l : list num) : result nat := idxmax_at 0 l.

(** [a[mask]]: the entries of an array selected by a boolean mask. *)
Definition boolean_index {A} (a : list A) (mask : list bool) : list A :=
  (filter (fun p => p.2 = true) (zip a mask)).*1.

(** ** scikit-learn: ordinary least squares on one covariate *)

Definition Qsum (l : list Q) : Q := foldr Qplus 0 l.

Definition Qlen (l : list Q) : Q := inject_Z (Z.of_nat (length l)).

Definition mean (l : list Q) : Q := Qsum l / Qlen l.

Definition sq (x : Q) : Q := x * x.

Record LinearRegression := {
  coef_ : Q;
  intercept_ : Q;
}.

(** Least squares on centred data; a constant covariate gets the
    minimum-norm solution, slope 0. *)
Definition ols (xs ys : list Q) : LinearRegression :=
  let xbar := mean xs in
  let ybar := mean ys in
  let sxx := Qsum (map (fun x => sq (x - xbar)) xs) in
  let sxy := Qsum (zip_with (fun x y => (x - xbar) * (y - ybar)) xs ys) in
  let coef := if Qeq_bool sxx 0 then 0 else sxy / sxx in
  {| coef_ := coef; intercept_ := ybar - coef * xbar |}.

(** sklearn's validation of a regression sample: no missing value, at
    least one row, as many responses as covariates. *)
Definition check_X_y (X y : list num) : result (list Q * list Q) :=
  match finite_values X, finite_values y with
  | Some xs, Some ys =>
      match xs with
      | [] => Raise ValueError
      | _ :: _ =>
          if Nat.eqb (length xs) (length ys) then Ok (xs, ys)
          else Raise ValueError
      end
  | _, _ => Raise ValueError
  end.

(** [LinearRegression().fit(X, y)]. *)
Definition fit (X y : list num) : result LinearRegression :=
  match check_X_y X y with
  | Ok (xs, ys) => Ok (ols xs ys)
  | Raise e => Raise e
  end.

Definition predict (reg : LinearRegression) (xs : list Q) : list Q :=
  map (fun x => coef_ reg * x + intercept_ reg) xs.

Definition sum_sq_err (ys y_pred : list Q) : Q :=
  Qsum (zip_with (fun y p => sq (y - p)) ys y_pred).

Definition mean_squared_error (ys y_pred : list Q) : Q :=
  sum_sq_err ys y_pred / Qlen ys.

(** [r2_score]: undefined (NaN) with fewer than two samples; a constant
    response scores 1 when predicted exactly and 0 otherwise. *)
Definition r2_score (ys y_pred : list Q) : num :=
  if Nat.ltb (length ys) 2 then NaN
  else
    let ss_res := sum_sq_err ys y_pred in
    let ss_tot := Qsum (map (fun y => sq (y - mean ys)) ys) in
    if Qeq_bool ss_tot 0
    then (if Qeq_bool ss_res 0 then Val 1 else Val 0)
    else Val (1 - ss_res / ss_tot).

(** ** Uploaded tables *)

(** A numeric cell of an uploaded table: a float ([NaN] for a blank), or
    text that pandas cannot read as a number. *)
Inductive cell :=
  | Float (x : num)
  | Text (s : string).

(** A date cell: text, described by the timestamp each of the two
    parsing strategies reads from it ([None] when it fails), or an
    already converted datetime64 value ([None] is NaT; a blank cell is
    [Stamp None]). *)
Inductive dcell :=
  | DateText (dayfirst plain : option Z)
  | Stamp (t : option Z).

(** [pd.to_numeric(col, errors='coerce')]. *)
Definition to_numeric_coerce (col : list cell) : list num :=
  map (fun c => match c with Float x => x | Text _ => NaN end) col.

(** A float64 column stored in a table. *)
Definition floats (col : list num) : list cell := map Float col.

(** Reading a column for arithmetic; text cells do not support it. *)
Fixpoint as_floats (col : list cell) : result (list num) :=
  match col with
  | [] => Ok []
  | Text _ :: _ => Raise TypeError
  | Float x :: col' =>
      match as_floats col' with
      | Ok l => Ok (x :: l)
      | Raise e => Raise e
      end
  end.

(** [pd.to_datetime(col, dayfirst=True, errors='coerce')]. *)
Definition to_datetime_dayfirst_coerce (col : list dcell) : list dcell :=
  map (fun c => match c with
                | DateText dayfirst _ => Stamp dayfirst
                | Stamp t => Stamp t
                end) col.

(** [pd.to_datetime(col, errors='raise')]: datetime64 values, NaT
    included, are returned as they are. *)
Fixpoint to_datetime_raise (col : list dcell) : result (list dcell) :=
  match col with
  | [] => Ok []
  | c :: col' =>
      match c with
      | DateText _ None => Raise ValueError
      | DateText _ (Some t) =>
          match to_datetime_raise col' with
          | Ok l => Ok (Stamp (Some t) :: l)
          | Raise e => Raise e
          end
      | Stamp t =>
          match to_datetime_raise col' with
          | Ok l => Ok (Stamp t :: l)
          | Raise e => Raise e
          end
      end
  end.

Definition date_isnull (c : dcell) : bool :=
  match c with
  | Stamp None => true
  | _ => false
  end.

(** A DataFrame: the four columns the programs read and the three
    derived columns [calculate_tb] adds.  A column that is absent is
    [None]. *)
Record DataFrame := {
  Data : option (list dcell);
  Tmin : option (list cell);
  Tmax : option (list cell);
  NF : option (list cell);
  Tmed : option (list num);
  STd : option (list num);
  STa : option (list num);
}.

Definition set_Data (df : DataFrame) (v : list dcell) : DataFrame :=
  {| Data := Some v; Tmin := Tmin df; Tmax := Tmax df; NF := NF df;
     Tmed := Tmed df; STd := STd df; STa := STa df |}.
Definition set_Tmin (df : DataFrame) (v : list cell) : DataFrame :=
  {| Data := Data df; Tmin := Some v; Tmax := Tmax df; NF := NF df;
     Tmed := Tmed df; STd := STd df; STa := STa df |}.
Definition set_Tmax (df : DataFrame) (v : list cell) : DataFrame :=
  {| Data := Data df; Tmin := Tmin df; Tmax := Some v; NF := NF df;
     Tmed := Tmed df; STd := STd df; STa := STa df |}.
Definition set_NF (df : DataFrame) (v : list cell) : DataFrame :=
  {| Data := Data df; Tmin := Tmin df; Tmax := Tmax df; NF := Some v;
     Tmed := Tmed df; STd := STd df; STa := STa df |}.
Definition set_Tmed (df : DataFrame) (v : list num) : DataFrame :=
  {| Data := Data df; Tmin := Tmin df; Tmax := Tmax df; NF := NF df;
     Tmed := Some v; STd := STd df; STa := STa df |}.
Definition set_STd (df : DataFrame) (v : list num) : DataFrame :=
  {| Data := Data df; Tmin := Tmin df; Tmax := Tmax df; NF := NF df;
     Tmed := Tmed df; STd := Some v; STa := STa df |}.
Definition set_STa (df : DataFrame) (v : list num) : DataFrame :=
  {| Data := Data df; Tmin := Tmin df; Tmax := Tmax df; NF := NF df;
     Tmed := Tmed df; STd := STd df; STa := Some v |}.

(** ** Effects

    A function body assigns to columns of the DataFrame it is given and
    may raise; the program as a whole runs on a store of DataFrame
    objects, where variables hold references.  Both are state monads
    with exceptions; the state reached when an exception is raised is
    kept. *)

Definition ST (S A : Type) : Type := S -> result A * S.

Definition ret {S A} (a : A) : ST S A := fun s => (Ok a, s).

Definition raise {S A} (e : exn) : ST S A := fun s => (Raise e, s).

Definition bind {S A B} (m : ST S A) (k : A -> ST S B) : ST S B :=
  fun s =>
    match m s with
    | (Ok a, s') => k a s'
    | (Raise e, s') => (Raise e, s')
    end.

Notation "x <- m ;; k" := (bind m (fun x => k))
  (at level 100, m at next level, right associativity).
Notation "m ;;; k" := (bind m (fun _ => k))
  (at level 100, right associativity).

Definition lift {S A} (r : result A) : ST S A := fun s => (r, s).

(** [try: m except Exception: handler]. *)
Definition try_except {S A} (m : ST S A) (handler : exn -> ST S A) : ST S A :=
  fun s =>
    match m s with
    | (Ok a, s') => (Ok a, s')
    | (Raise e, s') => handler e s'
    end.

(** [df[col]]: reading a column raises [KeyError] when it is absent. *)
Definition column {A} (proj : DataFrame -> option A) : ST DataFrame A :=
  fun df =>
    match proj df with
    | Some v => (Ok v, df)
    | None => (Raise KeyError, df)
    end.

(** [df[col] = v]. *)
Definition assign {A} (set : DataFrame -> A -> DataFrame) (v : A) : ST DataFrame unit :=
  fun df => (Ok tt, set df v).

Definition loc := positive.
Abbreviation heap := (gmap loc DataFrame).

(** Running a function body on the object a reference points to. *)
Definition call {A} (body : ST DataFrame A) (df : loc) : ST heap A :=
  fun h =>
    match h !! df with
    | Some f => let '(r, f') := body f in (r, <[df := f']> h)
    | None => (Raise NameError, h)
    end.

(** [df.copy()]: a new object with the same columns. *)
Definition copy (df : loc) : ST heap loc :=
  fun h =>
    match h !! df with
    | Some f => let l := fresh (dom h) in (Ok l, <[l := f]> h)
    | None => (Raise NameError, h)
    end.

(** * app.py *)

Module App.

Inductive message :=
  | MissingColumns (missing_cols : list string)
  | DateNotConverted
  | TminAboveTmax
  | NFDecreases.

Definition required_cols : list string := ["Data"; "Tmin"; "Tmax"; "NF"]%string.

Definition present {A} (name : string) (col : option A) : list string :=
  match col with Some _ => [name] | None => [] end.

(** [df.columns], as far as the required columns go. *)
Definition columns (df : DataFrame) : list string :=
  present "Data"%string (Data df) ++ present "Tmin"%string (Tmin df)
  ++ present "Tmax"%string (Tmax df) ++ present "NF"%string (NF df).

(** The conversion of the ['Data'] column inside [try: ... except].  The
    retry reads the column that the first conversion has just
    overwritten. *)
Definition convert_dates (errors : list message) : ST DataFrame (list message) :=
  data <- column Data ;;
  assign set_Data (to_datetime_dayfirst_coerce data) ;;;
  data <- column Data ;;
  if existsb date_isnull data then
    match to_datetime_raise data with
    | Ok data' => assign set_Data data' ;;; ret errors
    | Raise _ => ret (errors ++ [DateNotConverted])
    end
  else ret errors.

Definition coerce_numeric (proj : DataFrame -> option (list cell))
    (set : DataFrame -> list cell -> DataFrame) : ST DataFrame unit :=
  col <- column proj ;;
  assign set (floats (to_numeric_coerce col)).

Definition validate_data_body : ST DataFrame (list message) :=
  fun df =>
    let errors := [] in
    let missing_cols := filter (fun col => col ∉ columns df) required_cols in
    match missing_cols with
    | _ :: _ => (Ok (errors ++ [MissingColumns missing_cols]), df)
    | [] =>
        (errors <- convert_dates errors ;;
         coerce_numeric Tmin set_Tmin ;;;
         coerce_numeric Tmax set_Tmax ;;;
         coerce_numeric NF set_NF ;;;
         tmin <- column Tmin ;;
         tmax <- column Tmax ;;
         tmin <- lift (as_floats tmin) ;;
         tmax <- lift (as_floats tmax) ;;
         let errors :=
           if existsb (fun p => num_gtb p.1 p.2) (zip tmin tmax)
           then errors ++ [TminAboveTmax] else errors in
         nf <- column NF ;;
         nf <- lift (as_floats nf) ;;
         let nf_series := dropna nf in
         let errors :=
           if existsb (fun d => num_ltb d (Val 0)) (diff nf_series)
           then errors ++ [NFDecreases] else errors in
         ret errors) df
    end.

(** [validate_data(df)] returns the reference it was given. *)
Definition validate_data (df : loc) : ST heap (loc * list message) :=
  errors <- call validate_data_body df ;;
  ret (df, errors).

Record result_row := {
  Tb : Q;
  QME : Q;
  R2 : num;
}.

Definition cell_isnull (c : cell) : bool :=
  match c with
  | Float NaN => true
  | _ => false
  end.

(** The rows of a column on the days of [pheno_df], that is the days
    whose ['NF'] is not missing. *)
Definition on_pheno_index {A} (nf : list cell) (col : list A) : list A :=
  (filter (fun p => cell_isnull p.2 = false) (zip col nf)).*1.

(** One turn of the loop over [base_temps]. *)
Definition calculate_tb_step (nf : list cell) (tb : Q) : ST DataFrame result_row :=
  tmed <- column Tmed ;;
  assign set_STd (map (fun x => num_sub x (Val tb)) tmed) ;;;
  std <- column STd ;;
  assign set_STd (map (fun x => if num_ltb x (Val 0) then Val 0 else x) std) ;;;
  std <- column STd ;;
  assign set_STa (cumsum std) ;;;
  sta <- column STa ;;
  let sta_for_regression := on_pheno_index nf sta in
  let X := sta_for_regression in
  y <- lift (match as_floats (on_pheno_index nf nf) with
             | Ok y => Ok y
             | Raise _ => Raise ValueError
             end) ;;
  sample <- lift (check_X_y X y) ;;
  let '(xs, ys) := sample in
  let model := ols xs ys in
  let y_pred := predict model xs in
  let mse := mean_squared_error ys y_pred in
  let r2 := r2_score ys y_pred in
  ret {| Tb := tb; QME := mse; R2 := r2 |}.

Fixpoint calculate_tb_loop (nf : list cell) (base_temps : list Q)
    (results : list result_row) : ST DataFrame (list result_row) :=
  match base_temps with
  | [] => ret results
  | tb :: rest =>
      row <- calculate_tb_step nf tb ;;
      calculate_tb_loop nf rest (results ++ [row])
  end.

Definition calculate_tb_body : ST DataFrame (list result_row * result_row) :=
  tmin <- column Tmin ;;
  tmax <- column Tmax ;;
  tmin <- lift (as_floats tmin) ;;
  tmax <- lift (as_floats tmax) ;;
  assign set_Tmed (zip_with (fun a b => num_div (num_add a b) (Val 2)) tmin tmax) ;;;
  nf <- column NF ;;
  base_temps <- lift (arange (float_of_Z 0) (decimal 205 10) (decimal 5 10)) ;;
  results_df <- calculate_tb_loop nf (map Q_of_float base_temps) [] ;;
  i <- lift (idxmin (map QME results_df)) ;;
  match results_df !! i with
  | Some best_tb => ret (results_df, best_tb)
  | None => raise KeyError
  end.

Definition calculate_tb (df : loc) : ST heap (list result_row * result_row) :=
  call calculate_tb_body df.

(** What the page shows after the main application logic. *)
Inductive page :=
  | AwaitingUpload
  | Problems (errors : list message)
  | Results (results_df : list result_row) (best_tb : result_row).

(** The main application logic; [data] is what [load_data] returned. *)
Definition main_application_logic (data : option loc) : ST heap page :=
  match data with
  | None => ret AwaitingUpload
  | Some data =>
      r <- validate_data data ;;
      let '(validated_data, errors) := r in
      match errors with
      | _ :: _ => ret (Problems errors)
      | [] =>
          c <- copy validated_data ;;
          r <- calculate_tb c ;;
          let '(results_df, best_tb) := r in
          ret (Results results_df best_tb)
      end
  end.

End App.

(** * app_agrometeorologia_excel.py

    The table is read through the three columns the user has selected;
    they are the [Tmin], [Tmax] and [NF] columns of the DataFrame.  The
    thermal sums are pandas Series: [np.maximum] and [np.cumsum] of a
    Series return a Series. *)

Module Excel.

Definition calcular_tmed (tmin tmax : list num) : list num :=
  zip_with (fun a b => num_div (num_add a b) (Val 2)) tmin tmax.

Definition calcular_std (tmed : list num) (tb : Q) : list num :=
  map (fun x => maximum (num_sub x (Val tb)) (Val 0)) tmed.

Definition calcular_sta (std : list num) : list num := cumsum std.

(** What [realizar_regressao] may be given as [x]: a pandas Series or a
    numpy array.  Both have a length and slices; only the array has a
    [reshape] method. *)
Inductive array_like :=
  | Series (values : list num)
  | Ndarray (values : list num).

Definition values (x : array_like) : list num :=
  match x with Series v | Ndarray v => v end.

(** [x[inicio:]]. *)
Definition slice_from (inicio : nat) (x : array_like) : array_like :=
  match x with
  | Series v => Series (drop inicio v)
  | Ndarray v => Ndarray (drop inicio v)
  end.

(** [x.reshape(-1, 1)]: a Series has no such attribute. *)
Definition reshape (x : array_like) : result (list num) :=
  match x with
  | Series _ => Raise AttributeError
  | Ndarray v => Ok v
  end.

(** The tuple [realizar_regressao] returns; [None] is Python's [None]. *)
Record regressao := {
  coef : option Q;
  intercept : option Q;
  r2 : num;
  x_reg_clean : option (list Q);
  y_pred : option (list Q);
}.

Definition sem_regressao : regressao :=
  {| coef := None; intercept := None; r2 := Val 0;
     x_reg_clean := None; y_pred := None |}.

(** [y] stands for the values of the responses, which the function
    slices, tests and indexes in the same way whether they come as an
    array or as a Series. *)
Definition realizar_regressao (x : array_like) (y : list num) (inicio_emergencia : nat)
    : result regressao :=
  if (length (values x) <=? inicio_emergencia)%nat then Ok sem_regressao
  else
    match reshape (slice_from inicio_emergencia x) with
    | Raise e => Raise e
    | Ok x_reg =>
        let y_reg := drop inicio_emergencia y in
        let mask := zip_with (fun a b => negb (isnan a || isnan b)) x_reg y_reg in
        if (length (filter (fun b => b = true) mask) <? 2)%nat then Ok sem_regressao
        else
          let x_clean := boolean_index x_reg mask in
          let y_clean := boolean_index y_reg mask in
          match check_X_y x_clean y_clean with
          | Raise e => Raise e
          | Ok (xs, ys) =>
              let reg := ols xs ys in
              let y_pred := predict reg xs in
              let r2 := r2_score ys y_pred in
              Ok {| coef := Some (coef_ reg); intercept := Some (intercept_ reg);
                    r2 := r2; x_reg_clean := Some xs; y_pred := Some y_pred |}
          end
    end.

Record resultado := {
  Tb : float64;
  R2 : num;
  Coeficiente_Angular : Q;
  Intercepto : Q;
}.

Definition sem_resultado (tb : float64) : resultado :=
  {| Tb := tb; R2 := Val 0; Coeficiente_Angular := 0; Intercepto := 0 |}.

(** The [try] block of the loop of [estimar_tb_otimo]: [sta] is the
    Series that [calcular_sta] returns, [nf_values] an array. *)
Definition estimar_tb (tb : float64) (inicio_emergencia : nat)
    : ST DataFrame resultado :=
  tmin <- column Tmin ;;
  tmax <- column Tmax ;;
  let tmed := calcular_tmed (to_numeric_coerce tmin) (to_numeric_coerce tmax) in
  let std := calcular_std tmed (Q_of_float tb) in
  let sta := calcular_sta std in
  nf <- column NF ;;
  let nf_values := to_numeric_coerce nf in
  reg <- lift (realizar_regressao (Series sta) nf_values inicio_emergencia) ;;
  ret {| Tb := tb;
         R2 := r2 reg;
         Coeficiente_Angular := default 0 (coef reg);
         Intercepto := default 0 (intercept reg) |}.

Fixpoint estimar_tb_otimo_loop (tb_range : list float64) (inicio_emergencia : nat)
    (resultados : list resultado) : ST DataFrame (list resultado) :=
  match tb_range with
  | [] => ret resultados
  | tb :: rest =>
      row <- try_except (estimar_tb tb inicio_emergencia)
                        (fun _ => ret (sem_resultado tb)) ;;
      estimar_tb_otimo_loop rest inicio_emergencia (resultados ++ [row])
  end.

Definition estimar_tb_otimo (tb_range : list float64) (inicio_emergencia : nat)
    : ST DataFrame (list resultado) :=
  estimar_tb_otimo_loop tb_range inicio_emergencia [].

(** The selection of [main]: the row at [resultados['R²'].idxmax()].  A
    table built from no row has no ['R²'] column. *)
Definition tb_otimo_de (resultados : list resultado) : result resultado :=
  match resultados with
  | [] => Raise KeyError
  | _ :: _ =>
      match idxmax (map R2 resultados) with
      | Raise e => Raise e
      | Ok tb_otimo_idx =>
          match resultados !! tb_otimo_idx with
          | Some r => Ok r
          | None => Raise KeyError
          end
      end
  end.

(** The outcome of the analysis step of [main]. *)
Inductive analise :=
  | AnaliseConcluida (resultados : list resultado) (tb_otimo : float64)
      (r2_otimo : num) (coef_otimo intercept_otimo : Q)
  | ErroNaAnalise.

(** The analysis step of [main], run when the button is pressed. *)
Definition main (df : loc) (tb_min tb_max tb_step : float64) (inicio_emergencia : nat)
    : ST heap analise :=
  try_except
    (tb_range <- lift (arange tb_min (fadd tb_max tb_step) tb_step) ;;
     resultados <- call (estimar_tb_otimo tb_range inicio_emergencia) df ;;
     r <- lift (tb_otimo_de resultados) ;;
     ret (AnaliseConcluida resultados (Tb r) (R2 r)
            (Coeficiente_Angular r) (Intercepto r)))
    (fun _ => ret ErroNaAnalise).

(** The recomputation of [mostrar_resultados] for the Tb that was kept
    in the session: the regression that is to be drawn, and the observed
    points [sta[mask]], [nf_values[mask]] of the scatter plot.  Here
    both arguments of [realizar_regressao] are Series, and the call is
    not inside a [try]. *)
Definition mostrar_resultados (tb_otimo : float64) (inicio_emergencia : nat)
    : ST DataFrame (regressao * (list num * list num)) :=
  tmin <- column Tmin ;;
  tmax <- column Tmax ;;
  let tmed := calcular_tmed (to_numeric_coerce tmin) (to_numeric_coerce tmax) in
  let std := calcular_std tmed (Q_of_float tb_otimo) in
  let sta := calcular_sta std in
  nf <- column NF ;;
  let nf_values := to_numeric_coerce nf in
  reg <- lift (realizar_regressao (Series sta) nf_values inicio_emergencia) ;;
  let mask := map notna nf_values in
  ret (reg, (boolean_index sta mask, boolean_index nf_values mask)).

End Excel.

(** ** Column detection of the Excel program *)

Module Colunas.

(** A column label of an uploaded sheet: text, or a header cell of
    another type (a number, a date), which has no [lower] method. *)
Inductive label :=
  | LabelText (s : string)
  | LabelOther.

(** [termo in s] on Python strings. *)
Fixpoint str_in (termo s : string) : bool :=
  String.prefix termo s
  || match s with
     | EmptyString => false
     | String _ s' => str_in termo s'
     end.

Record deteccao := {
  tmin : option string;
  tmax : option string;
  nf : option string;
  todas_colunas : list label;
}.

(** What [detectar_colunas_automaticamente] does: it returns its
    dictionary, or [col.lower()] raises [AttributeError]. *)
Inductive deteccao_result :=
  | Detectadas (d : deteccao)
  | RaisesAttributeError.

Section Detection.

(** [str.lower] (Unicode aware in Python) is kept abstract. *)
Variable lower : string -> string.

Definition any_termo_in (termos : list string) (col : string) : bool :=
  existsb (fun termo => str_in termo (lower col)) termos.

(** [[col for col in colunas if any(termo in col.lower() for termo in
    termos)]]; [None] when [col.lower()] raises. *)
Fixpoint cols_with (termos : list string) (colunas : list label)
    : option (list string) :=
  match colunas with
  | [] => Some []
  | LabelOther :: _ => None
  | LabelText col :: rest =>
      match cols_with termos rest with
      | None => None
      | Some cols =>
          Some (if any_termo_in termos col then col :: cols else cols)
      end
  end.

Definition detectar_colunas_automaticamente (colunas : list label)
    : deteccao_result :=
  match cols_with ["tmin"; "t min"; "temp min"; "temperatura min"]%string colunas with
  | None => RaisesAttributeError
  | Some tmin_cols =>
      match cols_with ["tmax"; "t max"; "temp max"; "temperatura max"]%string
              colunas with
      | None => RaisesAttributeError
      | Some tmax_cols =>
          match cols_with ["nf"; "folhas"; "numero"; "número"; "leaves"]%string
                  colunas with
          | None => RaisesAttributeError
          | Some nf_cols =>
              Detectadas {| tmin := head tmin_cols;
                            tmax := head tmax_cols;
                            nf := head nf_cols;
                            todas_colunas := colunas |}
          end
      end
  end.

End Detection.

End Colunas.

(** * Vocabulary of the properties *)

(** Comparison of floats as the programs see it: it fails as soon as
    one side is missing. *)
Definition num_le (a b : num) : Prop :=
  match a, b with
  | Val p, Val q => p <= q
  | _, _ => False
  end.

(** The values that are present in a Series. *)
Definition present_values (l : list num) : list Q :=
  omap (fun x => match x with Val q => Some q | NaN => None end) l.

(** [l !! i] is the first minimum of [l]. *)
Definition first_min (l : list Q) (i : nat) : Prop :=
  exists v, l !! i = Some v
    /\ (forall j w, l !! j = Some w -> v <= w)
    /\ (forall j w, (j < i)%nat -> l !! j = Some w -> v < w).

(** [l !! i] is the first maximum among the values present in [l]. *)
Definition first_max (l : list num) (i : nat) : Prop :=
  exists v, l !! i = Some (Val v)
    /\ (forall j w, l !! j = Some (Val w) -> w <= v)
    /\ (forall j w, (j < i)%nat -> l !! j = Some (Val w) -> w < v).

Ltac run_st :=
  unfold bind, column, assign, lift, ret, raise, try_except in *; simpl in *.

(** The data-quality messages, from the coerced columns. *)
Definition data_quality_messages (tmin tmax nf : list num) : list App.message :=
  (if existsb (fun p => num_gtb p.1 p.2) (zip tmin tmax)
   then [App.TminAboveTmax] else [])
  ++ (if existsb (fun d => num_ltb d (Val 0)) (diff (dropna nf))
      then [App.NFDecreases] else []).

(** The table as [validate_data] leaves it. *)
Definition validated (df : DataFrame) (data : list dcell) (tmin tmax nf : list cell)
    : DataFrame :=
  set_NF (set_Tmax (set_Tmin (set_Data df (to_datetime_dayfirst_coerce data))
                             (floats (to_numeric_coerce tmin)))
                   (floats (to_numeric_coerce tmax)))
         (floats (to_numeric_coerce nf)).

(** The fixed grid of [calculate_tb]: 0, 0.5, ..., 20, as rationals in
    lowest terms and as float64 values. *)
Definition base_temps : list Q :=
  map (fun i => Qred (inject_Z (Z.of_nat i) * (1 # 2))) (seq 0 41).

Definition base_temps64 : list float64 :=
  map (fun i => fdiv (float_of_Z (Z.of_nat i)) (float_of_Z 2)) (seq 0 41).

(** The scenario of the specification: five days, three measurements. *)
Definition scenario : DataFrame :=
  {| Data := Some [Stamp (Some 1%Z); Stamp (Some 2%Z); Stamp (Some 3%Z);
                   Stamp (Some 4%Z); Stamp (Some 5%Z)];
     Tmin := Some (floats [Val 10; Val 12; Val 14; Val 16; Val 18]);
     Tmax := Some (floats [Val 20; Val 22; Val 24; Val 26; Val 28]);
     NF := Some (floats [NaN; Val 2; NaN; Val 5; Val 8]);
     Tmed := None; STd := None; STa := None |}.

(** The scenario with no leaf count measured. *)
Definition no_measurements : DataFrame :=
  {| Data := Data scenario; Tmin := Tmin scenario; Tmax := Tmax scenario;
     NF := Some (floats [NaN; NaN; NaN; NaN; NaN]);
     Tmed := None; STd := None; STa := None |}.

(** The scenario with the temperatures of the first day swapped. *)
Definition swapped_temperatures : DataFrame :=
  {| Data := Data scenario;
     Tmin := Some (floats [Val 20; Val 12; Val 14; Val 16; Val 18]);
     Tmax := Some (floats [Val 10; Val 22; Val 24; Val 26; Val 28]);
     NF := NF scenario;
     Tmed := None; STd := None; STa := None |}.

(** The scenario with a leaf count that goes down. *)
Definition falling_leaf_count : DataFrame :=
  {| Data := Data scenario; Tmin := Tmin scenario; Tmax := Tmax scenario;
     NF := Some (floats [NaN; Val 5; NaN; Val 2; Val 8]);
     Tmed := None; STd := None; STa := None |}.

(** A table whose second date is text that neither parsing strategy
    reads and whose third date is read by the locale-agnostic strategy
    only. *)
Definition unparseable_date : DataFrame :=
  {| Data := Some [DateText (Some 1%Z) (Some 1%Z); DateText None None;
                   DateText None (Some 3%Z); Stamp (Some 4%Z); Stamp (Some 5%Z)];
     Tmin := Tmin scenario; Tmax := Tmax scenario; NF := NF scenario;
     Tmed := None; STd := None; STa := None |}.

(** An uploaded table as pandas reads it: dates as text, and a
    temperature cell that holds text. *)
Definition raw_upload : DataFrame :=
  {| Data := Some [DateText (Some 1%Z) (Some 1%Z); DateText (Some 2%Z) (Some 2%Z);
                   DateText (Some 3%Z) (Some 3%Z); DateText (Some 4%Z) (Some 4%Z);
                   DateText (Some 5%Z) (Some 5%Z)];
     Tmin := Some [Float (Val 10); Text "n/d"; Float (Val 14); Float (Val 16);
                   Float (Val 18)];
     Tmax := Tmax scenario;
     NF := Some (floats [Val 1; NaN; Val 2; Val 5; Val 8]);
     Tmed := None; STd := None; STa := None |}.

(** The row a turn of the loop of [calculate_tb] computes from its
    regression sample. *)
Definition score_sample (tb : Q) (X : list num) (y : list cell)
    : result App.result_row :=
  match as_floats y with
  | Raise _ => Raise ValueError
  | Ok y =>
      match check_X_y X y with
      | Raise e => Raise e
      | Ok (xs, ys) =>
          let y_pred := predict (ols xs ys) xs in
          Ok {| App.Tb := tb;
                App.QME := mean_squared_error ys y_pred;
                App.R2 := r2_score ys y_pred |}
      end
  end.

Definition nred (x : num) : num :=
  match x with
  | NaN => NaN
  | Val q => Val (Qred q)
  end.

(** A run that returned rather than raised. *)
Definition is_ok {A S} (r : result A * S) : bool :=
  match r.1 with
  | Ok _ => true
  | Raise _ => false
  end.

(** The covariates and the responses of the regression of [calculate_tb]
    for a candidate. *)
Definition sample_X (nf : list cell) (tmed : list num) (tb : Q) : list num :=
  App.on_pheno_index nf (cumsum (Excel.calcular_std tmed tb)).

Definition sample_y (nf : list cell) : list cell := App.on_pheno_index nf nf.

(** The loop of [calculate_tb], as a function of the ['Tmed'] and ['NF']
    columns. *)
Fixpoint score_all (nf : list cell) (tmed : list num) (tbs : list Q)
    (results : list App.result_row) : result (list App.result_row) :=
  match tbs with
  | [] => Ok results
  | tb :: rest =>
      match score_sample tb (sample_X nf tmed tb) (sample_y nf) with
      | Ok row => score_all nf tmed rest (results ++ [row])
      | Raise e => Raise e
      end
  end.

(** Every day with a leaf count has both temperatures. *)
Definition measured_with_temperatures (tmin tmax nf : list num) : Prop :=
  forall i v, nf !! i = Some (Val v) ->
    exists a b, tmin !! i = Some (Val a) /\ tmax !! i = Some (Val b).

(** The required columns that a table lacks, in the order they are
    required. *)
Definition absent_required (df : DataFrame) : list string :=
  (match Data df with None => ["Data"%string] | Some _ => [] end)
  ++ (match Tmin df with None => ["Tmin"%string] | Some _ => [] end)
  ++ (match Tmax df with None => ["Tmax"%string] | Some _ => [] end)
  ++ (match NF df with None => ["NF"%string] | Some _ => [] end).

(** The result of [calculate_tb] as a function of the three columns it
    reads. *)
Definition calculate_tb_of (tmin tmax nf : option (list cell))
    : result (list App.result_row * App.result_row) :=
  match tmin, tmax with
  | Some tmin, Some tmax =>
      match as_floats tmin with
      | Raise e => Raise e
      | Ok tmin =>
          match as_floats tmax with
          | Raise e => Raise e
          | Ok tmax =>
              match nf with
              | None => Raise KeyError
              | Some nf =>
                  match score_all nf (Excel.calcular_tmed tmin tmax) base_temps [] with
                  | Raise e => Raise e
                  | Ok results_df =>
                      match idxmin (map App.QME results_df) with
                      | Raise e => Raise e
                      | Ok i =>
                          match results_df !! i with
                          | Some best_tb => Ok (results_df, best_tb)
                          | None => Raise KeyError
                          end
                      end
                  end
              end
          end
      end
  | _, _ => Raise KeyError
  end.

(** [colunas !! i] is the first text label that contains one of the
    terms, or no label does. *)
Definition first_with (lower : string -> string) (termos : list string)
    (colunas : list Colunas.label) (found : option string) : Prop :=
  match found with
  | Some col =>
      exists i, colunas !! i = Some (Colunas.LabelText col)
        /\ Colunas.any_termo_in lower termos col = true
        /\ forall j col', (j < i)%nat -> colunas !! j = Some (Colunas.LabelText col') ->
             Colunas.any_termo_in lower termos col' = false
  | None =>
      forall col, Colunas.LabelText col ∈ colunas -> Colunas.any_termo_in lower termos col = false
  end.

(** Lower case on the letters A to Z, as [str.lower] acts on ASCII
    text. *)
Fixpoint ascii_lower (s : string) : string :=
  match s with
  | EmptyString => EmptyString
  | String c s' =>
      let n := Ascii.nat_of_ascii c in
      String (if ((65 <=? n) && (n <=? 90))%nat then Ascii.ascii_of_nat (n + 32) else c)
             (ascii_lower s')
  end.

(** An uploaded table whose Tmin cell of the second day holds text, on a
    day with a leaf count. *)
Definition text_on_measured_day : DataFrame :=
  {| Data := Data scenario;
     Tmin := Some [Float (Val 10); Text "n/d"; Float (Val 14); Float (Val 16);
                   Float (Val 18)];
     Tmax := Tmax scenario;
     NF := Some (floats [Val 1; Val 2; NaN; Val 5; Val 8]);
     Tmed := None; STd := None; STa := None |}.

(** A cool season: no daily mean temperature above 9 degrees. *)
Definition cool_season : DataFrame :=
  {| Data := Data scenario;
     Tmin := Some (floats [Val 2; Val 3; Val 4; Val 5; Val 6]);
     Tmax := Some (floats [Val 8; Val 9; Val 10; Val 11; Val 12]);
     NF := Some (floats [Val 1; Val 2; NaN; Val 5; Val 8]);
     Tmed := None; STd := None; STa := None |}.

(** * Properties *)

(** ** Numbers and Series *)

Lemma Qsum_app (l1 l2 : list Q) : Qsum (l1 ++ l2) == Qsum l1 + Qsum l2.
Proof.
  induction l1 as [|x l1 IH]; simpl.
  - ring.
  - rewrite IH. ring.
Qed.

Lemma Qsum_nonneg (l : list Q) : Forall (fun x => 0 <= x) l -> 0 <= Qsum l.
Proof.
  induction 1 as [|x l Hx _ IH]; simpl.
  - apply Qle_refl.
  - lra.
Qed.

Lemma length_cumsum_from acc l : length (cumsum_from acc l) = length l.
Proof.
  revert acc. induction l as [|[|q] l IH]; intros acc; simpl; auto.
Qed.

(** Entry [i] of a running sum is missing exactly when entry [i] of the
    Series is, and otherwise is the total of the entries present up to
    and including [i]. *)
Lemma cumsum_from_lookup acc l i :
  match l !! i with
  | None => cumsum_from acc l !! i = None
  | Some NaN => cumsum_from acc l !! i = Some NaN
  | Some (Val _) =>
      exists s, cumsum_from acc l !! i = Some (Val s)
                /\ s == acc + Qsum (present_values (take (S i) l))
  end.
Proof.
  revert acc i. induction l as [|x l IH]; intros acc i.
  - reflexivity.
  - destruct i as [|i].
    + destruct x as [|q]; simpl.
      * reflexivity.
      * exists (acc + q). split; [reflexivity|]. destruct l; simpl; ring.
    + destruct x as [|q]; simpl.
      * apply (IH acc i).
      * specialize (IH (acc + q) i).
        destruct (l !! i) as [[|v]|]; auto.
        destruct IH as (s & Hs & Heq). exists s. split; [exact Hs|].
        rewrite Heq. ring.
Qed.

Lemma cumsum_lookup_val l i v :
  l !! i = Some (Val v) ->
  exists s, cumsum l !! i = Some (Val s)
            /\ s == Qsum (present_values (take (S i) l)).
Proof.
  intros H. pose proof (cumsum_from_lookup 0 l i) as C. rewrite H in C.
  destruct C as (s & Hs & Heq). exists s. split; [exact Hs|].
  rewrite Heq. ring.
Qed.

Lemma cumsum_lookup_nan l i : l !! i = Some NaN -> cumsum l !! i = Some NaN.
Proof.
  intros H. pose proof (cumsum_from_lookup 0 l i) as C. now rewrite H in C.
Qed.

(** ** The daily thermal sum *)

(** What the two assignments to ['STd'] in [calculate_tb] leave in the
    column is [calcular_std]. *)
Lemma clamp_is_maximum (tmed : list num) (tb : Q) :
  map (fun x => if num_ltb x (Val 0) then Val 0 else x)
      (map (fun x => num_sub x (Val tb)) tmed)
  = Excel.calcular_std tmed tb.
Proof.
  unfold Excel.calcular_std. rewrite map_map. apply map_ext. intros [|m]; simpl.
  - reflexivity.
  - destruct (Qlt_le_dec (m - tb) 0); reflexivity.
Qed.

(** The DataFrame after one turn of the loop of [calculate_tb], whether
    or not the regression raised. *)
Lemma calculate_tb_step_frame nf tb df tmed :
  Tmed df = Some tmed ->
  (App.calculate_tb_step nf tb df).2
  = set_STa (set_STd df (Excel.calcular_std tmed tb))
            (cumsum (Excel.calcular_std tmed tb)).
Proof.
  intros H. unfold App.calculate_tb_step, bind, column, assign, lift, ret.
  rewrite H. simpl. rewrite clamp_is_maximum.
  destruct (as_floats (App.on_pheno_index nf nf)) as [y|e]; [|reflexivity].
  destruct (check_X_y _ y) as [[xs ys]|e]; reflexivity.
Qed.

Lemma calcular_std_lookup (tmed : list num) (tb : Q) (i : nat) (m : Q) :
  tmed !! i = Some (Val m) ->
  exists s, Excel.calcular_std tmed tb !! i = Some (Val s)
            /\ s == Qmax (m - tb) 0 /\ 0 <= s.
Proof.
  intros H. unfold Excel.calcular_std. rewrite list_lookup_fmap, H. simpl.
  destruct (Qlt_le_dec (m - tb) 0) as [Hlt|Hle].
  - exists 0. split; [reflexivity|]. split; [|apply Qle_refl].
    symmetry. apply Q.max_r. lra.
  - exists (m - tb). split; [reflexivity|]. split; [|exact Hle].
    symmetry. apply Q.max_l. exact Hle.
Qed.

Lemma calcular_tmed_lookup (tmin tmax : list num) (i : nat) (a b : Q) :
  tmin !! i = Some (Val a) -> tmax !! i = Some (Val b) ->
  Excel.calcular_tmed tmin tmax !! i = Some (Val ((a + b) / 2)).
Proof.
  intros Ha Hb. unfold Excel.calcular_tmed.
  rewrite lookup_zip_with, Ha. simpl. rewrite Hb. reflexivity.
Qed.

Lemma calculate_tb_step_keeps nf tb df :
  let df' := (App.calculate_tb_step nf tb df).2 in
  Data df' = Data df /\ Tmin df' = Tmin df /\ Tmax df' = Tmax df
  /\ NF df' = NF df /\ Tmed df' = Tmed df.
Proof.
  destruct (Tmed df) as [tmed|] eqn:H.
  - simpl. rewrite (calculate_tb_step_frame nf tb df tmed H). simpl. auto.
  - unfold App.calculate_tb_step, bind, column. rewrite H. simpl. auto.
Qed.

(** C7: for every day whose Tmin and Tmax are present and for every
    candidate Tb (in particular every Tb >= 0), the daily mean is
    (Tmin + Tmax) / 2 and the daily thermal sum is max(Tmed - Tb, 0),
    hence non-negative; this holds for [calcular_tmed]/[calcular_std]
    and for the ['STd'] column written by a turn of the loop of
    [calculate_tb]. *)
Theorem daily_thermal_sum_clamped
    (tmin tmax : list num) (tb : Q) (i : nat) (a b : Q) :
  tmin !! i = Some (Val a) ->
  tmax !! i = Some (Val b) ->
  let tmed := Excel.calcular_tmed tmin tmax in
  tmed !! i = Some (Val ((a + b) / 2))
  /\ (exists s, Excel.calcular_std tmed tb !! i = Some (Val s)
                /\ s == Qmax ((a + b) / 2 - tb) 0 /\ 0 <= s)
  /\ (forall nf df, Tmed df = Some tmed ->
        exists std s, STd (App.calculate_tb_step nf tb df).2 = Some std
                      /\ std !! i = Some (Val s)
                      /\ s == Qmax ((a + b) / 2 - tb) 0 /\ 0 <= s).
Proof.
  intros Ha Hb tmed.
  pose proof (calcular_tmed_lookup tmin tmax i a b Ha Hb) as Hm.
  destruct (calcular_std_lookup tmed tb i _ Hm) as (s & Hs & Hmax & Hpos).
  split; [exact Hm|]. split.
  - exists s. auto.
  - intros nf df Hdf. exists (Excel.calcular_std tmed tb), s.
    rewrite (calculate_tb_step_frame nf tb df tmed Hdf). simpl. auto.
Qed.

Lemma daily_thermal_sum_clamped_witness :
  Excel.calcular_tmed [Val 10; Val 12] [Val 20; Val 22] !! 1%nat
  = Some (Val ((12 + 22) / 2))
  /\ exists s,
       Excel.calcular_std
         (Excel.calcular_tmed [Val 10; Val 12] [Val 20; Val 22]) 20 !! 1%nat
       = Some (Val s)
       /\ s == Qmax ((12 + 22) / 2 - 20) 0 /\ 0 <= s.
Proof.
  destruct (daily_thermal_sum_clamped [Val 10; Val 12] [Val 20; Val 22] 20 1 12 22
              eq_refl eq_refl) as (H1 & H2 & _).
  split; [exact H1 | exact H2].
Defined.

(** ** Dominance in Tb *)

Lemma calcular_std_antitone (tmed : list Q) (tb1 tb2 : Q) :
  tb1 <= tb2 ->
  Forall2 num_le (Excel.calcular_std (map Val tmed) tb2)
                 (Excel.calcular_std (map Val tmed) tb1).
Proof.
  intros Htb. induction tmed as [|m tmed IH]; simpl.
  - constructor.
  - constructor; [|exact IH].
    destruct (Qlt_le_dec (m - tb2) 0), (Qlt_le_dec (m - tb1) 0); simpl; lra.
Qed.

Lemma cumsum_from_monotone (l2 l1 : list num) :
  Forall2 num_le l2 l1 ->
  forall acc2 acc1, acc2 <= acc1 ->
  Forall2 num_le (cumsum_from acc2 l2) (cumsum_from acc1 l1).
Proof.
  induction 1 as [|x2 x1 l2 l1 Hx _ IH]; intros acc2 acc1 Hacc; simpl.
  - constructor.
  - destruct x2 as [|p], x1 as [|q]; simpl in Hx; try contradiction.
    constructor.
    + simpl. lra.
    + apply IH. lra.
Qed.

Lemma calcular_tmed_values (tmin tmax : list Q) :
  Excel.calcular_tmed (map Val tmin) (map Val tmax)
  = map Val (zip_with (fun a b => (a + b) / 2) tmin tmax).
Proof.
  revert tmax. induction tmin as [|a tmin IH]; intros [|b tmax]; simpl; auto.
  unfold Excel.calcular_tmed in IH. now rewrite IH.
Qed.

(** C8: on a Series whose temperatures are all present, raising the
    candidate from Tb1 to Tb2 >= Tb1 does not raise the daily thermal
    sum of any day, nor the accumulated thermal sum at any position;
    this holds for [calcular_std]/[calcular_sta] and for the ['STd'] and
    ['STa'] columns written by a turn of the loop of [calculate_tb]. *)
Theorem thermal_sums_antitone_in_tb (tmin tmax : list Q) (tb1 tb2 : Q) :
  tb1 <= tb2 ->
  let tmed := Excel.calcular_tmed (map Val tmin) (map Val tmax) in
  Forall2 num_le (Excel.calcular_std tmed tb2) (Excel.calcular_std tmed tb1)
  /\ Forall2 num_le (Excel.calcular_sta (Excel.calcular_std tmed tb2))
                    (Excel.calcular_sta (Excel.calcular_std tmed tb1))
  /\ (forall nf df, Tmed df = Some tmed ->
        exists std1 std2 sta1 sta2,
          STd (App.calculate_tb_step nf tb1 df).2 = Some std1
          /\ STd (App.calculate_tb_step nf tb2 df).2 = Some std2
          /\ STa (App.calculate_tb_step nf tb1 df).2 = Some sta1
          /\ STa (App.calculate_tb_step nf tb2 df).2 = Some sta2
          /\ Forall2 num_le std2 std1 /\ Forall2 num_le sta2 sta1).
Proof.
  intros Htb tmed. subst tmed. rewrite calcular_tmed_values.
  set (tmed := zip_with _ tmin tmax).
  pose proof (calcular_std_antitone tmed tb1 tb2 Htb) as Hstd.
  assert (Hsta : Forall2 num_le
            (cumsum (Excel.calcular_std (map Val tmed) tb2))
            (cumsum (Excel.calcular_std (map Val tmed) tb1))).
  { apply cumsum_from_monotone; [exact Hstd | apply Qle_refl]. }
  split; [exact Hstd|]. split; [exact Hsta|].
  intros nf df Hdf.
  rewrite !(calculate_tb_step_frame nf _ df _ Hdf). simpl.
  eexists _, _, _, _. repeat split; eauto.
Qed.

Lemma thermal_sums_antitone_in_tb_witness :
  Forall2 num_le
    (Excel.calcular_sta (Excel.calcular_std
       (Excel.calcular_tmed (map Val [10; 12; 14]) (map Val [20; 22; 24])) 16))
    (Excel.calcular_sta (Excel.calcular_std
       (Excel.calcular_tmed (map Val [10; 12; 14]) (map Val [20; 22; 24])) 5)).
Proof.
  assert (H : 5 <= 16) by (vm_compute; discriminate).
  exact (proj1 (proj2 (thermal_sums_antitone_in_tb [10; 12; 14] [20; 22; 24] 5 16 H))).
Defined.

(** ** First optimum *)

Lemma idxmin_from_spec (l pre : list Q) (best_i : nat) (best : Q) :
  pre !! best_i = Some best ->
  (forall j w, pre !! j = Some w -> best <= w) ->
  (forall j w, (j < best_i)%nat -> pre !! j = Some w -> best < w) ->
  first_min (pre ++ l) (idxmin_from best_i best (length pre) l).
Proof.
  revert pre best_i best. induction l as [|x l IH]; intros pre best_i best Hb Hle Hlt.
  - simpl. rewrite app_nil_r. exists best. auto.
  - simpl. rewrite cons_middle, app_assoc.
    replace (S (length pre)) with (length (pre ++ [x]))
      by (rewrite length_app; simpl; lia).
    destruct (Qlt_le_dec x best) as [Hx|Hx].
    + replace (length pre) with (length (pre ++ [x]) - 1)%nat at 1
        by (rewrite length_app; simpl; lia).
      apply IH.
      * rewrite length_app. simpl.
        replace (length pre + 1 - 1)%nat with (length pre) by lia.
        rewrite lookup_app_r by lia. now rewrite Nat.sub_diag.
      * intros j w Hj. destruct (decide (j < length pre)%nat) as [Hin|Hout].
        -- rewrite lookup_app_l in Hj by exact Hin.
           specialize (Hle j w Hj). lra.
        -- rewrite lookup_app_r in Hj by lia.
           destruct (j - length pre)%nat as [|k]; simpl in Hj; [|discriminate].
           injection Hj as <-. apply Qle_refl.
      * intros j w Hj Hw. rewrite length_app in Hj. simpl in Hj.
        rewrite lookup_app_l in Hw by lia.
        specialize (Hle j w Hw). lra.
    + apply IH.
      * apply lookup_app_l_Some. exact Hb.
      * intros j w Hj. destruct (decide (j < length pre)%nat) as [Hin|Hout].
        -- rewrite lookup_app_l in Hj by exact Hin. eauto.
        -- rewrite lookup_app_r in Hj by lia.
           destruct (j - length pre)%nat as [|k]; simpl in Hj; [|discriminate].
           injection Hj as <-. exact Hx.
      * intros j w Hj Hw.
        assert (best_i < length pre)%nat by (eapply lookup_lt_Some; eauto).
        rewrite lookup_app_l in Hw by lia. eauto.
Qed.

(** [idxmin] returns the first minimum of a non-empty Series. *)
Lemma idxmin_spec (l : list Q) (i : nat) : idxmin l = Ok i -> first_min l i.
Proof.
  destruct l as [|x l]; simpl; [discriminate|].
  intros [= <-].
  apply (idxmin_from_spec l [x] 0 x).
  - reflexivity.
  - intros [|j] w Hj; simpl in Hj; [|discriminate].
    injection Hj as <-. apply Qle_refl.
  - intros j w Hj. lia.
Qed.

Lemma idxmin_nonempty (l : list Q) : l <> [] -> exists i, idxmin l = Ok i.
Proof. destruct l; [congruence|]. intros _. eexists. reflexivity. Qed.

Lemma idxmax_from_spec (l pre : list num) (best_i : nat) (best : Q) :
  pre !! best_i = Some (Val best) ->
  (forall j w, pre !! j = Some (Val w) -> w <= best) ->
  (forall j w, (j < best_i)%nat -> pre !! j = Some (Val w) -> w < best) ->
  first_max (pre ++ l) (idxmax_from best_i best (length pre) l).
Proof.
  revert pre best_i best. induction l as [|x l IH]; intros pre best_i best Hb Hle Hlt.
  - simpl. rewrite app_nil_r. exists best. auto.
  - simpl. rewrite cons_middle, app_assoc.
    replace (S (length pre)) with (length (pre ++ [x]))
      by (rewrite length_app; simpl; lia).
    assert (Hkeep : first_max ((pre ++ [x]) ++ l)
              (idxmax_from best_i best (length (pre ++ [x])) l)
            \/ exists q, x = Val q /\ best < q).
    { destruct x as [|q].
      - left. apply IH.
        + apply lookup_app_l_Some. exact Hb.
        + intros j w Hj. destruct (decide (j < length pre)%nat) as [Hin|Hout].
          * rewrite lookup_app_l in Hj by exact Hin. eauto.
          * rewrite lookup_app_r in Hj by lia.
            destruct (j - length pre)%nat as [|k]; simpl in Hj; discriminate.
        + intros j w Hj Hw.
          assert (best_i < length pre)%nat by (eapply lookup_lt_Some; eauto).
          rewrite lookup_app_l in Hw by lia. eauto.
      - destruct (Qlt_le_dec best q) as [Hq|Hq]; [right; eauto|].
        left. apply IH.
        + apply lookup_app_l_Some. exact Hb.
        + intros j w Hj. destruct (decide (j < length pre)%nat) as [Hin|Hout].
          * rewrite lookup_app_l in Hj by exact Hin. eauto.
          * rewrite lookup_app_r in Hj by lia.
            destruct (j - length pre)%nat as [|k]; simpl in Hj; [|discriminate].
            injection Hj as <-. exact Hq.
        + intros j w Hj Hw.
          assert (best_i < length pre)%nat by (eapply lookup_lt_Some; eauto).
          rewrite lookup_app_l in Hw by lia. eauto. }
    destruct x as [|q].
    + destruct Hkeep as [H|(q & [=] & _)]. exact H.
    + destruct (Qlt_le_dec best q) as [Hq|Hq].
      * replace (length pre) with (length (pre ++ [Val q]) - 1)%nat at 1
          by (rewrite length_app; simpl; lia).
        apply IH.
        -- rewrite length_app. simpl.
           replace (length pre + 1 - 1)%nat with (length pre) by lia.
           rewrite lookup_app_r by lia. now rewrite Nat.sub_diag.
        -- intros j w Hj. destruct (decide (j < length pre)%nat) as [Hin|Hout].
           ++ rewrite lookup_app_l in Hj by exact Hin.
              specialize (Hle j w Hj). lra.
           ++ rewrite lookup_app_r in Hj by lia.
              destruct (j - length pre)%nat as [|k]; simpl in Hj; [|discriminate].
              injection Hj as <-. apply Qle_refl.
        -- intros j w Hj Hw. rewrite length_app in Hj. simpl in Hj.
           rewrite lookup_app_l in Hw by lia.
           specialize (Hle j w Hw). lra.
      * destruct Hkeep as [H|(q' & [= <-] & Hq')]; [exact H|]. lra.
Qed.

Lemma idxmax_at_spec (l pre : list num) (i : nat) :
  Forall (fun x => x = NaN) pre ->
  idxmax_at (length pre) l = Ok i -> first_max (pre ++ l) i.
Proof.
  revert pre. induction l as [|x l IH]; intros pre Hpre; simpl; [discriminate|].
  assert (Hnone : forall j w, pre !! j = Some (Val w) -> False).
  { intros j w Hj. rewrite Forall_lookup in Hpre.
    specialize (Hpre j _ Hj). discriminate. }
  destruct x as [|q].
  - intros H. rewrite cons_middle, app_assoc. apply IH.
    + apply Forall_app. split; [exact Hpre|]. constructor; [reflexivity|constructor].
    + rewrite length_app. simpl. now rewrite Nat.add_1_r.
  - intros [= <-]. rewrite cons_middle, app_assoc.
    replace (S (length pre)) with (length (pre ++ [Val q]))
      by (rewrite length_app; simpl; lia).
    replace (length pre) with (length (pre ++ [Val q]) - 1)%nat at 1
      by (rewrite length_app; simpl; lia).
    apply idxmax_from_spec.
    + rewrite length_app. simpl.
      replace (length pre + 1 - 1)%nat with (length pre) by lia.
      rewrite lookup_app_r by lia. now rewrite Nat.sub_diag.
    + intros j w Hj. destruct (decide (j < length pre)%nat) as [Hin|Hout].
      * rewrite lookup_app_l in Hj by exact Hin. destruct (Hnone j w Hj).
      * rewrite lookup_app_r in Hj by lia.
        destruct (j - length pre)%nat as [|k]; simpl in Hj; [|discriminate].
        injection Hj as <-. apply Qle_refl.
    + intros j w Hj Hw. rewrite length_app in Hj. simpl in Hj.
      rewrite lookup_app_l in Hw by lia. destruct (Hnone j w Hw).
Qed.

(** [idxmax] returns the first maximum among the values present. *)
Lemma idxmax_spec (l : list num) (i : nat) : idxmax l = Ok i -> first_max l i.
Proof. intros H. apply (idxmax_at_spec l [] i); [constructor | exact H]. Qed.

Lemma idxmax_all_zero (l : list num) (i : nat) :
  Forall (fun x => x = Val 0) l -> idxmax l = Ok i -> i = 0%nat.
Proof.
  intros Hall Hi. destruct (idxmax_spec l i Hi) as (v & Hv & _ & Hfirst).
  destruct i as [|i]; [reflexivity|].
  destruct l as [|x l]; [discriminate|].
  apply Forall_cons in Hall as [-> Hall].
  rewrite Forall_lookup in Hall. simpl in Hv. specialize (Hall _ _ Hv).
  injection Hall as ->.
  specialize (Hfirst 0%nat 0 ltac:(lia) eq_refl). lra.
Qed.

Lemma calculate_tb_loop_rows nf tbs results df rows df' :
  App.calculate_tb_loop nf tbs results df = (Ok rows, df') ->
  exists new, rows = results ++ new /\ Forall2 (fun tb r => App.Tb r = tb) tbs new.
Proof.
  revert results df. induction tbs as [|tb tbs IH]; intros results df; simpl.
  - run_st. intros [= <- <-]. exists []. rewrite app_nil_r. split; [reflexivity|constructor].
  - unfold bind at 1.
    destruct (App.calculate_tb_step nf tb df) as [[row|e] df1] eqn:Hstep; [|discriminate].
    intros H. destruct (IH _ _ H) as (new & -> & Hall).
    exists (row :: new). split; [now rewrite <- app_assoc|].
    constructor; [|exact Hall].
    revert Hstep. unfold App.calculate_tb_step. run_st.
    repeat case_match; intros; simplify_eq. reflexivity.
Qed.

Lemma as_floats_floats (l : list num) : as_floats (floats l) = Ok l.
Proof.
  induction l as [|x l IH]; [reflexivity|].
  change (floats (x :: l)) with (Float x :: floats l). simpl. now rewrite IH.
Qed.

Lemma to_numeric_coerce_floats (l : list num) : to_numeric_coerce (floats l) = l.
Proof.
  induction l as [|x l IH]; [reflexivity|].
  change (floats (x :: l)) with (Float x :: floats l).
  change (to_numeric_coerce (Float x :: floats l))
    with (x :: to_numeric_coerce (floats l)).
  now rewrite IH.
Qed.

(** A column that has been through the day-first conversion holds only
    datetime64 values, so the second conversion returns it unchanged and
    cannot raise. *)
Lemma to_datetime_raise_after_coerce (data : list dcell) :
  to_datetime_raise (to_datetime_dayfirst_coerce data)
  = Ok (to_datetime_dayfirst_coerce data).
Proof.
  induction data as [|c data IH]; [reflexivity|].
  change (to_datetime_dayfirst_coerce (c :: data))
    with (match c with
          | DateText dayfirst _ => Stamp dayfirst
          | Stamp t => Stamp t
          end :: to_datetime_dayfirst_coerce data).
  destruct c; simpl; now rewrite IH.
Qed.

Lemma validate_data_body_present df data tmin tmax nf :
  Data df = Some data -> Tmin df = Some tmin -> Tmax df = Some tmax ->
  NF df = Some nf ->
  App.validate_data_body df
  = (Ok (data_quality_messages (to_numeric_coerce tmin) (to_numeric_coerce tmax)
           (to_numeric_coerce nf)),
     validated df data tmin tmax nf).
Proof.
  intros Hd Hmin Hmax Hnf. unfold App.validate_data_body, App.columns.
  rewrite Hd, Hmin, Hmax, Hnf. simpl.
  unfold App.convert_dates, App.coerce_numeric. run_st.
  rewrite Hd. simpl. rewrite to_datetime_raise_after_coerce.
  destruct (existsb date_isnull _); simpl;
    rewrite Hmin; simpl; rewrite Hmax; simpl; rewrite Hnf; simpl;
    rewrite !as_floats_floats; unfold data_quality_messages, validated;
    destruct (existsb _ (zip _ _)); destruct (existsb _ (diff _)); reflexivity.
Qed.

(** ** The candidate grid of [calculate_tb] *)

(** [np.arange(0, 20.5, 0.5)] is the grid 0, 0.5, ..., 20: every
    operation on these values is exact. *)
Lemma arange_base_temps :
  arange (float_of_Z 0) (decimal 205 10) (decimal 5 10) = Ok base_temps64.
Proof. vm_compute. reflexivity. Qed.

Lemma base_temps_values : map Q_of_float base_temps64 = base_temps.
Proof. vm_compute. reflexivity. Qed.

Lemma base_temps_lookup (j : nat) (tb : Q) :
  base_temps !! j = Some tb -> tb == inject_Z (Z.of_nat j) * (1 # 2).
Proof.
  unfold base_temps.
  change (map ?f (seq 0 41)) with (f <$> seq 0 41).
  rewrite list_lookup_fmap. intros H.
  destruct (seq 0 41 !! j) as [i|] eqn:Hi; [|discriminate H].
  apply lookup_seq in Hi as [-> _]. injection H as <-.
  rewrite Qred_correct. reflexivity.
Qed.

Lemma base_temps_ascending (i j : nat) (a b : Q) :
  (i <= j)%nat -> base_temps !! i = Some a -> base_temps !! j = Some b -> a <= b.
Proof.
  intros Hle Ha Hb.
  rewrite (base_temps_lookup i a Ha), (base_temps_lookup j b Hb).
  apply Qmult_le_compat_r; [|discriminate].
  rewrite <- Zle_Qle. lia.
Qed.

Lemma arange_head (start stop step tb : float64) (tbs : list float64) :
  arange start stop step = Ok (tb :: tbs) -> tb = start.
Proof.
  unfold arange. destruct (is_zero step); [discriminate|].
  destruct (ceil_to_intp _) as [len|e]; [|discriminate].
  destruct (Z.to_nat _); [discriminate|].
  intros [= <- _]. reflexivity.
Qed.

Lemma calculate_tb_body_inv df rows best df' :
  App.calculate_tb_body df = (Ok (rows, best), df') ->
  exists i, idxmin (map App.QME rows) = Ok i
            /\ rows !! i = Some best
            /\ Forall2 (fun tb r => App.Tb r = tb) base_temps rows.
Proof.
  unfold App.calculate_tb_body. rewrite arange_base_temps.
  unfold bind at 1. unfold column at 1. destruct (Tmin df) as [tmin|]; [|discriminate].
  unfold bind at 1. unfold column at 1. destruct (Tmax df) as [tmax|]; [|discriminate].
  unfold bind at 1. unfold lift at 1. destruct (as_floats tmin) as [tmin'|]; [|discriminate].
  unfold bind at 1. unfold lift at 1. destruct (as_floats tmax) as [tmax'|]; [|discriminate].
  unfold bind at 1. unfold assign at 1.
  unfold bind at 1. unfold column at 1. simpl NF. destruct (NF df) as [nf|]; [|discriminate].
  unfold bind at 1. unfold lift at 1.
  unfold bind at 1.
  rewrite base_temps_values.
  destruct (App.calculate_tb_loop nf base_temps [] _) as [[results|e] df1] eqn:Hloop;
    [|discriminate].
  unfold bind at 1. unfold lift at 1.
  destruct (idxmin (map App.QME results)) as [i|e] eqn:Hi; [|discriminate].
  destruct (results !! i) as [b|] eqn:Hb; [|discriminate].
  unfold ret. intros [= <- <- <-].
  exists i. split; [exact Hi|]. split; [exact Hb|].
  destruct (calculate_tb_loop_rows _ _ _ _ _ _ Hloop) as (new & -> & Hall).
  exact Hall.
Qed.

Lemma finite_values_present (qs : list Q) : finite_values (map Val qs) = Some qs.
Proof. induction qs as [|q qs IH]; simpl; [reflexivity|]. now rewrite IH. Qed.

(** ** The grid search of [estimar_tb_otimo] *)

(** On the Series it is given, [realizar_regressao] stops at its first
    guard or raises from [reshape]: the lines that mask and fit are not
    reached. *)
Lemma realizar_regressao_series (sta y : list num) (inicio_emergencia : nat) :
  Excel.realizar_regressao (Excel.Series sta) y inicio_emergencia
  = if (length sta <=? inicio_emergencia)%nat then Ok Excel.sem_regressao
    else Raise AttributeError.
Proof.
  unfold Excel.realizar_regressao. simpl.
  destruct (length sta <=? inicio_emergencia)%nat; reflexivity.
Qed.

(** Every turn of the loop appends the placeholder row: from the guard,
    or from the [except] clause. *)
Lemma estimar_tb_guarded (df : DataFrame) (tb : float64) (inicio_emergencia : nat) :
  try_except (Excel.estimar_tb tb inicio_emergencia)
             (fun _ => ret (Excel.sem_resultado tb)) df
  = (Ok (Excel.sem_resultado tb), df).
Proof.
  unfold try_except, Excel.estimar_tb.
  unfold bind at 1, column at 1. destruct (Tmin df) as [tmin|]; [|reflexivity].
  unfold bind at 1, column at 1. destruct (Tmax df) as [tmax|]; [|reflexivity].
  unfold bind at 1, column at 1. destruct (NF df) as [nf|]; [|reflexivity].
  unfold bind, lift. rewrite realizar_regressao_series.
  destruct (length _ <=? inicio_emergencia)%nat; reflexivity.
Qed.

Lemma estimar_tb_otimo_loop_rows tb_range inicio_emergencia resultados df :
  Excel.estimar_tb_otimo_loop tb_range inicio_emergencia resultados df
  = (Ok (resultados ++ map Excel.sem_resultado tb_range), df).
Proof.
  revert resultados. induction tb_range as [|tb rest IH]; intros resultados; simpl.
  - rewrite app_nil_r. reflexivity.
  - unfold bind at 1. rewrite estimar_tb_guarded, IH, <- app_assoc. reflexivity.
Qed.

Lemma estimar_tb_otimo_rows tb_range inicio_emergencia df :
  Excel.estimar_tb_otimo tb_range inicio_emergencia df
  = (Ok (map Excel.sem_resultado tb_range), df).
Proof. apply estimar_tb_otimo_loop_rows. Qed.

Lemma tb_otimo_de_spec (resultados : list Excel.resultado) (r : Excel.resultado) :
  Excel.tb_otimo_de resultados = Ok r ->
  exists i, resultados !! i = Some r /\ first_max (map Excel.R2 resultados) i.
Proof.
  unfold Excel.tb_otimo_de. destruct resultados as [|r0 rest]; [discriminate|].
  destruct (idxmax _) as [i|e] eqn:Hi; [|discriminate].
  destruct ((r0 :: rest) !! i) as [r'|] eqn:Hr; [|discriminate].
  intros [= <-]. exists i. split; [exact Hr|]. apply idxmax_spec. exact Hi.
Qed.

Lemma tb_otimo_de_placeholders (tb : float64) (tbs : list float64) :
  Excel.tb_otimo_de (map Excel.sem_resultado (tb :: tbs)) = Ok (Excel.sem_resultado tb).
Proof.
  unfold Excel.tb_otimo_de.
  change (map Excel.sem_resultado (tb :: tbs))
    with (Excel.sem_resultado tb :: map Excel.sem_resultado tbs).
  destruct (idxmax _) as [i|e] eqn:Hi; [|discriminate Hi].
  apply idxmax_all_zero in Hi as ->; [reflexivity|].
  apply Forall_forall. intros x Hx.
  apply list_elem_of_In, in_map_iff in Hx as (r & <- & Hr).
  change (Excel.sem_resultado tb :: map Excel.sem_resultado tbs)
    with (map Excel.sem_resultado (tb :: tbs)) in Hr.
  apply in_map_iff in Hr as (t & <- & _). reflexivity.
Qed.

(** The analysis step of [main] depends on the table through nothing:
    a grid that cannot be built or is empty ends in the error branch,
    any other grid in the placeholder table and its first row. *)
Lemma main_run (df : loc) (f : DataFrame) (h : heap)
    (tb_min tb_max tb_step : float64) (inicio_emergencia : nat) :
  h !! df = Some f ->
  Excel.main df tb_min tb_max tb_step inicio_emergencia h
  = (Ok match arange tb_min (fadd tb_max tb_step) tb_step with
        | Ok (tb :: tbs) =>
            Excel.AnaliseConcluida (map Excel.sem_resultado (tb :: tbs)) tb (Val 0) 0 0
        | _ => Excel.ErroNaAnalise
        end, h).
Proof.
  intros Hf. unfold Excel.main, try_except, bind at 1, lift at 1.
  destruct (arange tb_min (fadd tb_max tb_step) tb_step) as [tb_range|e];
    [|reflexivity].
  unfold bind at 1, call. rewrite Hf, estimar_tb_otimo_rows, insert_id by exact Hf.
  unfold bind, lift, ret.
  destruct tb_range as [|tb tbs]; [reflexivity|].
  rewrite tb_otimo_de_placeholders. reflexivity.
Qed.

(** [calculate_tb] returns on the scenario of the specification. *)
Lemma scenario_estimated : is_ok (App.calculate_tb_body scenario) = true.
Proof. vm_compute. reflexivity. Qed.

(** ** Validation *)

Lemma validate_data_body_missing df :
  Data df = None \/ Tmin df = None \/ Tmax df = None \/ NF df = None ->
  exists missing_cols,
    missing_cols <> []
    /\ App.validate_data_body df = (Ok [App.MissingColumns missing_cols], df).
Proof.
  intros H. unfold App.validate_data_body, App.columns.
  destruct (Data df), (Tmin df), (Tmax df), (NF df);
    try (destruct H as [H|[H|[H|H]]]; discriminate);
    simpl; eexists; (split; [|reflexivity]); discriminate.
Qed.

(** [validate_data] never raises. *)
Lemma validate_data_body_total df :
  exists errors df', App.validate_data_body df = (Ok errors, df').
Proof.
  destruct (Data df) as [data|] eqn:Hd;
    [destruct (Tmin df) as [tmin|] eqn:Hmin;
       [destruct (Tmax df) as [tmax|] eqn:Hmax;
          [destruct (NF df) as [nf|] eqn:Hnf|]|]|].
  - eexists _, _. apply (validate_data_body_present df data tmin tmax nf); assumption.
  - destruct (validate_data_body_missing df) as (m & _ & ->); eauto 6.
  - destruct (validate_data_body_missing df) as (m & _ & ->); eauto 6.
  - destruct (validate_data_body_missing df) as (m & _ & ->); eauto 6.
  - destruct (validate_data_body_missing df) as (m & _ & ->); eauto 6.
Qed.

(** The message about the date column is never produced. *)
Lemma date_error_never_reported df errors df' :
  App.validate_data_body df = (Ok errors, df') -> App.DateNotConverted ∉ errors.
Proof.
  intros H.
  destruct (Data df) as [data|] eqn:Hd;
    [destruct (Tmin df) as [tmin|] eqn:Hmin;
       [destruct (Tmax df) as [tmax|] eqn:Hmax;
          [destruct (NF df) as [nf|] eqn:Hnf|]|]|].
  - rewrite (validate_data_body_present df data tmin tmax nf Hd Hmin Hmax Hnf) in H.
    injection H as <- _. unfold data_quality_messages.
    destruct (existsb _ (zip _ _)); destruct (existsb _ (diff _)); simpl;
      rewrite ?elem_of_cons, ?elem_of_nil; intuition discriminate.
  - destruct (validate_data_body_missing df) as (m & _ & Hm); [auto|].
    rewrite Hm in H. injection H as <- _.
    rewrite ?elem_of_cons, ?elem_of_nil; intuition discriminate.
  - destruct (validate_data_body_missing df) as (m & _ & Hm); [auto|].
    rewrite Hm in H. injection H as <- _.
    rewrite ?elem_of_cons, ?elem_of_nil; intuition discriminate.
  - destruct (validate_data_body_missing df) as (m & _ & Hm); [auto|].
    rewrite Hm in H. injection H as <- _.
    rewrite ?elem_of_cons, ?elem_of_nil; intuition discriminate.
  - destruct (validate_data_body_missing df) as (m & _ & Hm); [auto|].
    rewrite Hm in H. injection H as <- _.
    rewrite ?elem_of_cons, ?elem_of_nil; intuition discriminate.
Qed.

Lemma validate_data_run (data : loc) (f f' : DataFrame) (h : heap) errors :
  h !! data = Some f ->
  App.validate_data_body f = (Ok errors, f') ->
  App.validate_data data h = (Ok (data, errors), <[data := f']> h).
Proof.
  intros Hf Hv. unfold App.validate_data, bind, call. rewrite Hf, Hv. reflexivity.
Qed.

(** The main application logic: the estimation runs, on a copy of the
    validated table, exactly when validation returned no message. *)
Lemma main_application_logic_run (data : loc) (f f' : DataFrame) (h : heap) errors :
  h !! data = Some f ->
  App.validate_data_body f = (Ok errors, f') ->
  App.main_application_logic (Some data) h
  = match errors with
    | _ :: _ => (Ok (App.Problems errors), <[data := f']> h)
    | [] =>
        let h1 := <[data := f']> h in
        let c := fresh (dom h1) in
        match App.calculate_tb_body f' with
        | (Ok (results_df, best_tb), f'') =>
            (Ok (App.Results results_df best_tb), <[c := f'']> h1)
        | (Raise e, f'') => (Raise e, <[c := f'']> h1)
        end
    end.
Proof.
  intros Hf Hv. unfold App.main_application_logic. unfold bind at 1.
  rewrite (validate_data_run data f f' h errors Hf Hv).
  destruct errors as [|m errors]; [|reflexivity].
  unfold bind at 1, copy. rewrite lookup_insert_eq.
  unfold bind at 1, App.calculate_tb, call. rewrite lookup_insert_eq.
  destruct (App.calculate_tb_body f') as [[[rows best]|e] f''];
    simpl; rewrite insert_insert_eq; reflexivity.
Qed.

Lemma tmin_above_tmax_detected (tmin tmax : list num) (i : nat) (a b : Q) :
  tmin !! i = Some (Val a) -> tmax !! i = Some (Val b) -> b < a ->
  existsb (fun p => num_gtb p.1 p.2) (zip tmin tmax) = true.
Proof.
  intros Ha Hb Hlt. apply existsb_exists. exists (Val a, Val b). split.
  - apply list_elem_of_In, list_elem_of_lookup. exists i.
    apply lookup_zip_with_Some. eauto.
  - simpl. destruct (Qlt_le_dec b a); [reflexivity|lra].
Qed.

Lemma diff_from_lookup (l : list num) (prev : num) (k : nat) (a b : num) :
  l !! k = Some a -> l !! S k = Some b ->
  diff_from prev l !! S k = Some (num_sub b a).
Proof.
  revert prev k. induction l as [|x l IH]; intros prev k Ha Hb; [discriminate|].
  destruct k as [|k]; simpl in *.
  - injection Ha as ->. destruct l as [|y l]; [discriminate|].
    simpl in *. now injection Hb as ->.
  - apply IH; assumption.
Qed.

Lemma decrease_detected (nf : list num) (k : nat) (a b : Q) :
  dropna nf !! k = Some (Val a) -> dropna nf !! S k = Some (Val b) -> b < a ->
  existsb (fun d => num_ltb d (Val 0)) (diff (dropna nf)) = true.
Proof.
  intros Ha Hb Hlt. apply existsb_exists. exists (Val (b - a)). split.
  - apply list_elem_of_In, list_elem_of_lookup. exists (S k).
    apply (diff_from_lookup _ NaN k (Val a) (Val b)); assumption.
  - simpl. destruct (Qlt_le_dec (b - a) 0); [reflexivity|lra].
Qed.

(** C3 (amended): on a table with the four required columns,
    [validate_data] reports a row with Tmin > Tmax and a decrease between
    consecutive measured leaf counts as messages; the main application
    logic shows the messages and does not run the estimation as soon as
    there is one message, whatever its kind, and runs the estimation, on
    a copy of the validated table, when there is none. *)
Theorem any_message_blocks_estimation
    (data : loc) (f : DataFrame) (h : heap)
    (dates : list dcell) (tmin tmax nf : list cell) :
  h !! data = Some f ->
  Data f = Some dates -> Tmin f = Some tmin -> Tmax f = Some tmax ->
  NF f = Some nf ->
  let errors :=
    data_quality_messages (to_numeric_coerce tmin) (to_numeric_coerce tmax)
      (to_numeric_coerce nf) in
  let f' := validated f dates tmin tmax nf in
  App.validate_data data h = (Ok (data, errors), <[data := f']> h)
  /\ ((exists i a b, to_numeric_coerce tmin !! i = Some (Val a)
                     /\ to_numeric_coerce tmax !! i = Some (Val b) /\ b < a) ->
      App.TminAboveTmax ∈ errors)
  /\ ((exists k a b, dropna (to_numeric_coerce nf) !! k = Some (Val a)
                     /\ dropna (to_numeric_coerce nf) !! S k = Some (Val b)
                     /\ b < a) ->
      App.NFDecreases ∈ errors)
  /\ (errors <> [] ->
      App.main_application_logic (Some data) h
      = (Ok (App.Problems errors), <[data := f']> h))
  /\ (errors = [] ->
      App.main_application_logic (Some data) h
      = let h1 := <[data := f']> h in
        let c := fresh (dom h1) in
        match App.calculate_tb_body f' with
        | (Ok (results_df, best_tb), f'') =>
            (Ok (App.Results results_df best_tb), <[c := f'']> h1)
        | (Raise e, f'') => (Raise e, <[c := f'']> h1)
        end).
Proof.
  intros Hf Hd Hmin Hmax Hnf errors f'.
  pose proof (validate_data_body_present f dates tmin tmax nf Hd Hmin Hmax Hnf) as Hv.
  fold errors f' in Hv.
  split; [exact (validate_data_run data f f' h errors Hf Hv)|].
  split; [|split; [|split]].
  - intros (i & a & b & Ha & Hb & Hlt). subst errors. unfold data_quality_messages.
    rewrite (tmin_above_tmax_detected _ _ i a b Ha Hb Hlt).
    apply elem_of_app. left. apply list_elem_of_singleton. reflexivity.
  - intros (k & a & b & Ha & Hb & Hlt). subst errors. unfold data_quality_messages.
    rewrite (decrease_detected _ k a b Ha Hb Hlt).
    apply elem_of_app. right. apply list_elem_of_singleton. reflexivity.
  - intros Hne. rewrite (main_application_logic_run data f f' h errors Hf Hv).
    destruct errors; [congruence|reflexivity].
  - intros Hnil. rewrite (main_application_logic_run data f f' h errors Hf Hv).
    rewrite Hnil. reflexivity.
Qed.

Lemma any_message_blocks_estimation_witness :
  App.main_application_logic (Some 1%positive) {[ 1%positive := swapped_temperatures ]}
  = (Ok (App.Problems [App.TminAboveTmax]),
     <[ 1%positive := swapped_temperatures ]> {[ 1%positive := swapped_temperatures ]}).
Proof.
  destruct (any_message_blocks_estimation 1%positive swapped_temperatures
              {[ 1%positive := swapped_temperatures ]}
              [Stamp (Some 1%Z); Stamp (Some 2%Z); Stamp (Some 3%Z);
               Stamp (Some 4%Z); Stamp (Some 5%Z)]
              (floats [Val 20; Val 12; Val 14; Val 16; Val 18])
              (floats [Val 10; Val 22; Val 24; Val 26; Val 28])
              (floats [NaN; Val 2; NaN; Val 5; Val 8])
              (lookup_singleton_eq _ _) eq_refl eq_refl eq_refl eq_refl)
    as (_ & _ & _ & Hblock & _).
  apply Hblock. discriminate.
Defined.

(** C3, as stated, fails: a table whose only defect is a row with
    Tmin > Tmax, or a leaf count that decreases, is not analysed; the
    page shows the message and no results. *)
Lemma data_quality_message_stops_estimation :
  (App.main_application_logic (Some 1%positive)
     {[ 1%positive := swapped_temperatures ]}).1
  = Ok (App.Problems [App.TminAboveTmax])
  /\ (App.main_application_logic (Some 1%positive)
        {[ 1%positive := falling_leaf_count ]}).1
     = Ok (App.Problems [App.NFDecreases]).
Proof. split; vm_compute; reflexivity. Qed.

(** C4 fails on the code: the retry with [errors='raise'] is applied to
    the column the first conversion has already overwritten, so it never
    raises.  On [unparseable_date] validation returns no message, both
    dates are left as NaT and the estimation runs. *)
Theorem unparseable_date_passes_validation :
  App.validate_data_body unparseable_date
  = (Ok [],
     {| Data := Some [Stamp (Some 1%Z); Stamp None; Stamp None;
                      Stamp (Some 4%Z); Stamp (Some 5%Z)];
        Tmin := Tmin scenario; Tmax := Tmax scenario; NF := NF scenario;
        Tmed := None; STd := None; STa := None |})
  /\ exists results_df best_tb,
       (App.main_application_logic (Some 1%positive)
          {[ 1%positive := unparseable_date ]}).1
       = Ok (App.Results results_df best_tb).
Proof.
  split; [reflexivity|].
  assert (H : match (App.main_application_logic (Some 1%positive)
                       {[ 1%positive := unparseable_date ]}).1 with
              | Ok (App.Results _ _) => true
              | _ => false
              end = true) by (vm_compute; reflexivity).
  destruct ((App.main_application_logic (Some 1%positive)
               {[ 1%positive := unparseable_date ]}).1)
    as [[|errors|rows best]|e]; try discriminate H.
  eauto.
Qed.

(** ** What the programs write *)

Lemma calculate_tb_loop_keeps nf base_temps results df :
  let df' := (App.calculate_tb_loop nf base_temps results df).2 in
  Data df' = Data df /\ Tmin df' = Tmin df /\ Tmax df' = Tmax df
  /\ NF df' = NF df /\ Tmed df' = Tmed df.
Proof.
  revert results df. induction base_temps as [|tb rest IH]; intros results df; simpl.
  - auto.
  - unfold bind.
    pose proof (calculate_tb_step_keeps nf tb df) as Hstep. simpl in Hstep.
    destruct (App.calculate_tb_step nf tb df) as [[row|e] df1]; simpl in *.
    + specialize (IH (results ++ [row]) df1). simpl in IH.
      destruct Hstep as (H1 & H2 & H3 & H4 & H5).
      destruct IH as (I1 & I2 & I3 & I4 & I5).
      repeat split; congruence.
    + exact Hstep.
Qed.

(** [calculate_tb] adds the derived columns to the table it is given and
    leaves its ['Data'], ['Tmin'], ['Tmax'] and ['NF'] columns as they
    were, whether it returns or raises. *)
Lemma calculate_tb_body_keeps df :
  let df' := (App.calculate_tb_body df).2 in
  Data df' = Data df /\ Tmin df' = Tmin df /\ Tmax df' = Tmax df
  /\ NF df' = NF df.
Proof.
  destruct (App.calculate_tb_body df) as [r df'] eqn:H. simpl. revert H.
  unfold App.calculate_tb_body. rewrite arange_base_temps.
  unfold bind at 1. unfold column at 1. destruct (Tmin df) as [tmin|] eqn:Hmin;
    [|intros [= <- <-]; repeat split; congruence].
  unfold bind at 1. unfold column at 1. destruct (Tmax df) as [tmax|] eqn:Hmax;
    [|intros [= <- <-]; repeat split; congruence].
  unfold bind at 1. unfold lift at 1. destruct (as_floats tmin) as [tmin'|];
    [|intros [= <- <-]; repeat split; congruence].
  unfold bind at 1. unfold lift at 1. destruct (as_floats tmax) as [tmax'|];
    [|intros [= <- <-]; repeat split; congruence].
  unfold bind at 1. unfold assign at 1.
  unfold bind at 1. unfold column at 1. simpl NF. destruct (NF df) as [nf|] eqn:Hnf;
    [|intros [= <- <-]; repeat split; simpl; congruence].
  unfold bind at 1. unfold lift at 1. unfold bind at 1.
  rewrite base_temps_values.
  match goal with |- context [App.calculate_tb_loop nf base_temps [] ?d] =>
    pose proof (calculate_tb_loop_keeps nf base_temps [] d) as Hloop;
    destruct (App.calculate_tb_loop nf base_temps [] d) as [[results|e] df1]
  end; simpl in Hloop; destruct Hloop as (H1 & H2 & H3 & H4 & _).
  - unfold bind at 1. unfold lift at 1.
    destruct (idxmin (map App.QME results)) as [i|e].
    + destruct (results !! i); intros [= <- <-]; repeat split; congruence.
    + intros [= <- <-]; repeat split; congruence.
  - intros [= <- <-]; repeat split; congruence.
Qed.

(** C9 (amended): [validate_data] overwrites the ['Data'], ['Tmin'],
    ['Tmax'] and ['NF'] columns of the table it is given with their
    converted values, in place; [calculate_tb] adds derived columns to
    the table it is given and leaves those four columns as they were;
    the main application logic runs it on a copy, so that the estimation
    leaves the validated table, and every other table, unchanged; the
    analysis step of the Excel program only reads its table. *)
Theorem estimation_leaves_the_validated_series :
  (forall (data : loc) (f : DataFrame) (h : heap) dates tmin tmax nf,
     h !! data = Some f ->
     Data f = Some dates -> Tmin f = Some tmin -> Tmax f = Some tmax ->
     NF f = Some nf ->
     exists errors,
       App.validate_data data h
       = (Ok (data, errors), <[data := validated f dates tmin tmax nf]> h))
  /\ (forall (c : loc) (f : DataFrame) (h : heap),
        h !! c = Some f ->
        exists r f',
          App.calculate_tb c h = (r, <[c := f']> h)
          /\ Data f' = Data f /\ Tmin f' = Tmin f /\ Tmax f' = Tmax f
          /\ NF f' = NF f)
  /\ (forall (data : loc) (f f' : DataFrame) (h h' : heap) errors r,
        h !! data = Some f ->
        App.validate_data_body f = (Ok errors, f') ->
        App.main_application_logic (Some data) h = (r, h') ->
        h' !! data = Some f'
        /\ (forall l, l <> data -> is_Some (h !! l) -> h' !! l = h !! l))
  /\ (forall (df : loc) (f : DataFrame) (h : heap) tb_min tb_max tb_step
             inicio_emergencia,
        h !! df = Some f ->
        (Excel.main df tb_min tb_max tb_step inicio_emergencia h).2 = h).
Proof.
  split; [|split; [|split]].
  - intros data f h dates tmin tmax nf Hf Hd Hmin Hmax Hnf.
    eexists. apply (validate_data_run data f _ h _ Hf).
    apply validate_data_body_present; assumption.
  - intros c f h Hf. unfold App.calculate_tb, call. rewrite Hf.
    pose proof (calculate_tb_body_keeps f) as Hkeep. simpl in Hkeep.
    destruct (App.calculate_tb_body f) as [r f']. simpl in Hkeep.
    exists r, f'. split; [reflexivity|exact Hkeep].
  - intros data f f' h h' errors r Hf Hv Hmain.
    rewrite (main_application_logic_run data f f' h errors Hf Hv) in Hmain.
    assert (Hfresh : forall l, is_Some (<[data := f']> h !! l) ->
                       l <> fresh (dom (<[data := f']> h))).
    { intros l Hl ->. apply elem_of_dom in Hl. exact (is_fresh _ Hl). }
    assert (Hh' : h' = <[data := f']> h
                  \/ exists f'', h' = <[fresh (dom (<[data := f']> h)) := f'']>
                                       (<[data := f']> h)).
    { destruct errors as [|m errors].
      - simpl in Hmain.
        destruct (App.calculate_tb_body f') as [[[rows best]|e] f''];
          injection Hmain as _ <-; eauto.
      - injection Hmain as _ <-. auto. }
    split.
    + destruct Hh' as [->|(f'' & ->)].
      * apply lookup_insert_eq.
      * rewrite lookup_insert_ne; [apply lookup_insert_eq|].
        intros Heq. apply (Hfresh data); [|now symmetry].
        rewrite lookup_insert_eq. eauto.
    + intros l Hne Hl. destruct Hh' as [->|(f'' & ->)].
      * now apply lookup_insert_ne.
      * rewrite lookup_insert_ne; [now apply lookup_insert_ne|].
        intros Heq. apply (Hfresh l); [|now symmetry].
        rewrite lookup_insert_ne by congruence. exact Hl.
  - intros df f h tb_min tb_max tb_step inicio Hf.
    rewrite (main_run df f h tb_min tb_max tb_step inicio Hf). reflexivity.
Qed.

Lemma estimation_leaves_the_validated_series_witness :
  (exists errors,
     App.validate_data 1%positive {[ 1%positive := raw_upload ]}
     = (Ok (1%positive, errors),
        <[ 1%positive :=
             validated raw_upload
               [DateText (Some 1%Z) (Some 1%Z); DateText (Some 2%Z) (Some 2%Z);
                DateText (Some 3%Z) (Some 3%Z); DateText (Some 4%Z) (Some 4%Z);
                DateText (Some 5%Z) (Some 5%Z)]
               [Float (Val 10); Text "n/d"; Float (Val 14); Float (Val 16);
                Float (Val 18)]
               (floats [Val 20; Val 22; Val 24; Val 26; Val 28])
               (floats [Val 1; NaN; Val 2; Val 5; Val 8]) ]>
          {[ 1%positive := raw_upload ]}))
  /\ (Excel.main 1%positive (decimal 5 1) (decimal 15 1) (decimal 5 10) 0
        {[ 1%positive := raw_upload ]}).2
     = {[ 1%positive := raw_upload ]}.
Proof.
  destruct estimation_leaves_the_validated_series as (Hvalidate & _ & _ & Hexcel).
  split.
  - apply Hvalidate; [apply lookup_singleton_eq | reflexivity..].
  - apply (Hexcel 1%positive raw_upload). apply lookup_singleton_eq.
Defined.

(** C9, as stated, fails: after the run the uploaded table is not what
    was supplied; its dates have been replaced by timestamps and the text
    in its ['Tmin'] column by a missing value. *)
Lemma validation_overwrites_the_supplied_table :
  (App.main_application_logic (Some 1%positive)
     {[ 1%positive := raw_upload ]}).2 !! 1%positive
  = Some {| Data := Some [Stamp (Some 1%Z); Stamp (Some 2%Z); Stamp (Some 3%Z);
                          Stamp (Some 4%Z); Stamp (Some 5%Z)];
            Tmin := Some [Float (Val 10); Float NaN; Float (Val 14);
                          Float (Val 16); Float (Val 18)];
            Tmax := Tmax scenario;
            NF := Some (floats [Val 1; NaN; Val 2; Val 5; Val 8]);
            Tmed := None; STd := None; STa := None |}
  /\ (App.main_application_logic (Some 1%positive)
        {[ 1%positive := raw_upload ]}).2 !! 1%positive
     <> Some raw_upload.
Proof.
  split; [vm_compute; reflexivity | vm_compute; discriminate].
Qed.

(** ** The regression sample of [calculate_tb] *)

Lemma calculate_tb_step_result nf tb df tmed :
  Tmed df = Some tmed ->
  (App.calculate_tb_step nf tb df).1
  = score_sample tb
      (App.on_pheno_index nf (cumsum (Excel.calcular_std tmed tb)))
      (App.on_pheno_index nf nf).
Proof.
  intros H. unfold App.calculate_tb_step, bind, column, assign, lift, ret.
  rewrite H. simpl. rewrite clamp_is_maximum. unfold score_sample.
  destruct (as_floats (App.on_pheno_index nf nf)) as [y|e]; [|reflexivity].
  destruct (check_X_y _ y) as [[xs ys]|e]; reflexivity.
Qed.

Lemma on_pheno_index_cons {A} (n : num) (nf : list num) (c : A) (col : list A) :
  App.on_pheno_index (floats (n :: nf)) (c :: col)
  = match n with
    | NaN => App.on_pheno_index (floats nf) col
    | Val _ => c :: App.on_pheno_index (floats nf) col
    end.
Proof.
  unfold App.on_pheno_index.
  change (floats (n :: nf)) with (Float n :: floats nf).
  simpl. rewrite filter_cons. destruct n; reflexivity.
Qed.

(** The sample has one point per day whose leaf count is present. *)
Lemma length_on_pheno_index {A} (nf : list num) (col : list A) :
  length col = length nf ->
  length (App.on_pheno_index (floats nf) col) = length (present_values nf).
Proof.
  revert col. induction nf as [|n nf IH]; intros [|c col] Hlen; try discriminate.
  - reflexivity.
  - rewrite on_pheno_index_cons. simpl in Hlen.
    destruct n; simpl; rewrite IH by lia; reflexivity.
Qed.

(** The point of day [i], when its leaf count is present, comes after
    the points of the earlier measurement days. *)
Lemma on_pheno_index_lookup {A} (nf : list num) (col : list A) (i : nat) (v : Q) (c : A) :
  nf !! i = Some (Val v) -> col !! i = Some c ->
  App.on_pheno_index (floats nf) col !! length (present_values (take i nf)) = Some c.
Proof.
  revert col i. induction nf as [|n nf IH]; intros [|c0 col] i Hn Hc; try discriminate.
  rewrite on_pheno_index_cons. destruct i as [|i]; simpl in *.
  - injection Hn as ->. injection Hc as ->. reflexivity.
  - destruct n; simpl; apply IH; assumption.
Qed.

Lemma length_calcular_sta (tmin tmax : list num) (tb : Q) :
  length (Excel.calcular_sta (Excel.calcular_std (Excel.calcular_tmed tmin tmax) tb))
  = Nat.min (length tmin) (length tmax).
Proof.
  unfold Excel.calcular_sta, cumsum, Excel.calcular_std, Excel.calcular_tmed.
  rewrite length_cumsum_from, List.length_map, length_zip_with. reflexivity.
Qed.

(** The accumulated thermal sum of a day is missing exactly when a
    temperature of that very day is missing; otherwise it is the total of
    the daily thermal sums present up to and including that day. *)
Lemma calcular_sta_lookup (tmin tmax : list num) (tb : Q) (i : nat) (a b : num) :
  tmin !! i = Some a -> tmax !! i = Some b ->
  let std := Excel.calcular_std (Excel.calcular_tmed tmin tmax) tb in
  match a, b with
  | Val _, Val _ =>
      exists s, Excel.calcular_sta std !! i = Some (Val s)
                /\ s == Qsum (present_values (take (S i) std))
  | _, _ => Excel.calcular_sta std !! i = Some NaN
  end.
Proof.
  intros Ha Hb std.
  assert (Hstd : std !! i
                 = Some (maximum (num_sub (num_div (num_add a b) (Val 2)) (Val tb))
                           (Val 0))).
  { subst std. unfold Excel.calcular_std, Excel.calcular_tmed.
    rewrite list_lookup_fmap, lookup_zip_with, Ha. simpl. rewrite Hb. reflexivity. }
  destruct a as [|a], b as [|b]; simpl in Hstd;
    try (apply cumsum_lookup_nan; exact Hstd).
  destruct (Qlt_le_dec ((a + b) / 2 - tb) 0);
    eapply cumsum_lookup_val; exact Hstd.
Qed.

Lemma length_to_numeric_coerce (col : list cell) :
  length (to_numeric_coerce col) = length col.
Proof. apply List.length_map. Qed.

(** [calculate_tb] computes ['Tmed'] once, from all the rows. *)
Lemma calculate_tb_body_tmed df tmin tmax nf :
  Tmin df = Some (floats tmin) -> Tmax df = Some (floats tmax) -> NF df = Some nf ->
  Tmed (App.calculate_tb_body df).2 = Some (Excel.calcular_tmed tmin tmax).
Proof.
  intros Hmin Hmax Hnf. unfold App.calculate_tb_body. rewrite arange_base_temps.
  unfold bind at 1. unfold column at 1. rewrite Hmin.
  unfold bind at 1. unfold column at 1. rewrite Hmax.
  unfold bind at 1. unfold lift at 1. rewrite as_floats_floats.
  unfold bind at 1. unfold lift at 1. rewrite as_floats_floats.
  unfold bind at 1. unfold assign at 1.
  unfold bind at 1. unfold column at 1. simpl NF. rewrite Hnf.
  unfold bind at 1. unfold lift at 1. unfold bind at 1.
  rewrite base_temps_values.
  match goal with |- context [App.calculate_tb_loop nf base_temps [] ?d] =>
    pose proof (calculate_tb_loop_keeps nf base_temps [] d) as Hloop;
    destruct (App.calculate_tb_loop nf base_temps [] d) as [[results|e] df1]
  end; simpl in Hloop; destruct Hloop as (_ & _ & _ & _ & Hloop).
  - unfold bind at 1. unfold lift at 1.
    destruct (idxmin (map App.QME results)) as [i|e]; simpl; [|exact Hloop].
    destruct (results !! i); simpl; exact Hloop.
  - exact Hloop.
Qed.

(** ** When [calculate_tb] returns *)

Lemma calculate_tb_loop_result nf tmed tbs results df :
  Tmed df = Some tmed ->
  (App.calculate_tb_loop nf tbs results df).1 = score_all nf tmed tbs results.
Proof.
  revert results df. induction tbs as [|tb rest IH]; intros results df Hdf; simpl.
  - reflexivity.
  - unfold bind.
    pose proof (calculate_tb_step_result nf tb df tmed Hdf) as Hres.
    pose proof (calculate_tb_step_keeps nf tb df) as Hkeep. simpl in Hkeep.
    fold (sample_X nf tmed tb) in Hres. fold (sample_y nf) in Hres.
    destruct (App.calculate_tb_step nf tb df) as [r df1]. simpl in *.
    rewrite <- Hres. destruct r as [row|e]; [|reflexivity].
    apply IH. destruct Hkeep as (_ & _ & _ & _ & ->). exact Hdf.
Qed.

(** The result of [calculate_tb] is determined by the ['Tmin'], ['Tmax']
    and ['NF'] columns. *)
Lemma calculate_tb_body_result df tmin tmax nf :
  Tmin df = Some (floats tmin) -> Tmax df = Some (floats tmax) -> NF df = Some nf ->
  (App.calculate_tb_body df).1
  = match score_all nf (Excel.calcular_tmed tmin tmax) base_temps [] with
    | Ok results_df =>
        match idxmin (map App.QME results_df) with
        | Ok i =>
            match results_df !! i with
            | Some best_tb => Ok (results_df, best_tb)
            | None => Raise KeyError
            end
        | Raise e => Raise e
        end
    | Raise e => Raise e
    end.
Proof.
  intros Hmin Hmax Hnf. unfold App.calculate_tb_body. rewrite arange_base_temps.
  unfold bind at 1. unfold column at 1. rewrite Hmin.
  unfold bind at 1. unfold column at 1. rewrite Hmax.
  unfold bind at 1. unfold lift at 1. rewrite as_floats_floats.
  unfold bind at 1. unfold lift at 1. rewrite as_floats_floats.
  unfold bind at 1. unfold assign at 1.
  unfold bind at 1. unfold column at 1. simpl NF. rewrite Hnf.
  unfold bind at 1. unfold lift at 1. unfold bind at 1.
  rewrite base_temps_values.
  match goal with |- context [App.calculate_tb_loop nf base_temps [] ?d] =>
    pose proof (calculate_tb_loop_result nf (Excel.calcular_tmed tmin tmax)
                  base_temps [] d eq_refl) as Hloop;
    destruct (App.calculate_tb_loop nf base_temps [] d) as [r df1]
  end.
  cbn [fst] in Hloop. rewrite <- Hloop. destruct r as [results|e]; [|reflexivity].
  unfold bind at 1. unfold lift at 1.
  destruct (idxmin (map App.QME results)) as [i|e]; [|reflexivity].
  destruct (results !! i); reflexivity.
Qed.

Lemma on_pheno_index_map {A} (f : num -> A) (nf : list num) :
  App.on_pheno_index (floats nf) (map f nf) = map f (map Val (present_values nf)).
Proof.
  induction nf as [|n nf IH]; [reflexivity|].
  change (map f (n :: nf)) with (f n :: map f nf).
  rewrite on_pheno_index_cons. destruct n as [|q].
  - exact IH.
  - rewrite IH. reflexivity.
Qed.

Lemma as_floats_sample_y (nf : list num) :
  as_floats (sample_y (floats nf)) = Ok (map Val (present_values nf)).
Proof.
  unfold sample_y. unfold floats at 2. rewrite on_pheno_index_map.
  apply as_floats_floats.
Qed.

Lemma finite_values_lookup (l : list num) (xs : list Q) (k : nat) (c : num) :
  finite_values l = Some xs -> l !! k = Some c -> exists x, c = Val x.
Proof.
  revert xs k. induction l as [|x l IH]; intros xs k Hfin Hk; [discriminate|].
  destruct x as [|q]; [discriminate|]. simpl in Hfin.
  destruct (finite_values l) as [qs|] eqn:Hl; [|discriminate].
  destruct k as [|k]; simpl in Hk.
  - injection Hk as <-. eauto.
  - eapply IH; eauto.
Qed.

Lemma finite_values_length (l : list num) (xs : list Q) :
  finite_values l = Some xs -> length xs = length l.
Proof.
  revert xs. induction l as [|x l IH]; intros xs; simpl.
  - now intros [= <-].
  - destruct x as [|q]; [discriminate|].
    destruct (finite_values l) as [qs|]; [|discriminate].
    intros [= <-]. simpl. now rewrite (IH qs).
Qed.

(** The sample is free of missing covariates as soon as the column is
    present on every measurement day. *)
Lemma finite_sample (nf : list num) (col : list num) :
  length col = length nf ->
  (forall i v, nf !! i = Some (Val v) -> exists x, col !! i = Some (Val x)) ->
  exists xs, finite_values (App.on_pheno_index (floats nf) col) = Some xs.
Proof.
  revert col. induction nf as [|n nf IH]; intros [|c col] Hlen Hall; try discriminate.
  - exists []. reflexivity.
  - rewrite on_pheno_index_cons.
    destruct (IH col) as (xs & Hxs).
    + simpl in Hlen. lia.
    + intros i v Hi. exact (Hall (S i) v Hi).
    + destruct n as [|q]; [eauto|].
      destruct (Hall 0%nat q eq_refl) as (x & [= ->]).
      exists (x :: xs). simpl. now rewrite Hxs.
Qed.

Lemma check_X_y_cases (X : list num) (ys : list Q) :
  check_X_y X (map Val ys)
  = match finite_values X with
    | Some (x :: xs) =>
        if Nat.eqb (length (x :: xs)) (length ys) then Ok (x :: xs, ys)
        else Raise ValueError
    | _ => Raise ValueError
    end.
Proof.
  unfold check_X_y. rewrite finite_values_present.
  destruct (finite_values X) as [[|x xs]|]; reflexivity.
Qed.

(** On a validated table a turn of the loop returns a row or raises
    [ValueError]; it returns exactly when the sample is not empty and
    free of missing covariates. *)
Lemma score_sample_cases (nf : list num) (tmed : list num) (tb : Q) :
  length tmed = length nf ->
  match finite_values (sample_X (floats nf) tmed tb) with
  | Some (x :: xs) =>
      exists row, score_sample tb (sample_X (floats nf) tmed tb)
                    (sample_y (floats nf)) = Ok row
                  /\ App.Tb row = tb
  | _ => score_sample tb (sample_X (floats nf) tmed tb) (sample_y (floats nf))
         = Raise ValueError
  end.
Proof.
  intros Hlen. unfold score_sample. rewrite as_floats_sample_y, check_X_y_cases.
  destruct (finite_values (sample_X (floats nf) tmed tb)) as [[|x xs]|] eqn:Hfin;
    try reflexivity.
  assert (Hl : length (x :: xs) = length (present_values nf)).
  { rewrite (finite_values_length _ _ Hfin). unfold sample_X.
    apply length_on_pheno_index.
    unfold cumsum, Excel.calcular_std.
    rewrite length_cumsum_from, List.length_map. exact Hlen. }
  rewrite Hl, Nat.eqb_refl. eexists. split; reflexivity.
Qed.

Lemma score_all_ok nf tmed tbs results :
  (forall tb, exists row,
      score_sample tb (sample_X nf tmed tb) (sample_y nf) = Ok row
      /\ App.Tb row = tb) ->
  exists new, score_all nf tmed tbs results = Ok (results ++ new)
              /\ map App.Tb new = tbs.
Proof.
  intros Hall. revert results. induction tbs as [|tb rest IH]; intros results; simpl.
  - exists []. now rewrite app_nil_r.
  - destruct (Hall tb) as (row & -> & Htb).
    destruct (IH (results ++ [row])) as (new & -> & Hnew).
    exists (row :: new). rewrite <- app_assoc. simpl. now rewrite Htb, Hnew.
Qed.

Lemma sample_X_measured (tmin tmax nf : list num) (tb : Q) (xs : list Q) :
  length tmin = length nf -> length tmax = length nf ->
  finite_values (sample_X (floats nf) (Excel.calcular_tmed tmin tmax) tb) = Some xs ->
  measured_with_temperatures tmin tmax nf.
Proof.
  intros Hlmin Hlmax Hfin i v Hi.
  assert (Hlt : (i < length nf)%nat) by (eapply lookup_lt_Some; eauto).
  destruct (lookup_lt_is_Some_2 tmin i) as [a Ha]; [lia|].
  destruct (lookup_lt_is_Some_2 tmax i) as [b Hb]; [lia|].
  pose proof (calcular_sta_lookup tmin tmax tb i a b Ha Hb) as Hsta. simpl in Hsta.
  destruct a as [|a], b as [|b]; eauto; exfalso;
    pose proof (on_pheno_index_lookup nf _ i v NaN Hi Hsta) as Hk;
    destruct (finite_values_lookup _ _ _ _ Hfin Hk) as (x & Hx); discriminate.
Qed.

Lemma measured_sample_X (tmin tmax nf : list num) (tb : Q) :
  length tmin = length nf -> length tmax = length nf ->
  measured_with_temperatures tmin tmax nf ->
  exists xs,
    finite_values (sample_X (floats nf) (Excel.calcular_tmed tmin tmax) tb) = Some xs
    /\ length xs = length (present_values nf).
Proof.
  intros Hlmin Hlmax Hall.
  assert (Hlen : length (cumsum (Excel.calcular_std (Excel.calcular_tmed tmin tmax) tb))
                 = length nf).
  { change (cumsum ?l) with (Excel.calcular_sta l).
    rewrite length_calcular_sta. lia. }
  destruct (finite_sample nf _ Hlen) as (xs & Hxs).
  - intros i v Hi. destruct (Hall i v Hi) as (a & b & Ha & Hb).
    destruct (calcular_sta_lookup tmin tmax tb i (Val a) (Val b) Ha Hb)
      as (s & Hs & _).
    exists s. exact Hs.
  - exists xs. split; [exact Hxs|].
    rewrite (finite_values_length _ _ Hxs). apply length_on_pheno_index. exact Hlen.
Qed.

Lemma score_all_cases (tmin tmax nf : list num) :
  length tmin = length nf -> length tmax = length nf ->
  let tmed := Excel.calcular_tmed tmin tmax in
  (present_values nf <> [] /\ measured_with_temperatures tmin tmax nf
   /\ exists rows, score_all (floats nf) tmed base_temps [] = Ok rows
                   /\ map App.Tb rows = base_temps)
  \/ (~ (present_values nf <> [] /\ measured_with_temperatures tmin tmax nf)
      /\ score_all (floats nf) tmed base_temps [] = Raise ValueError).
Proof.
  intros Hlmin Hlmax tmed.
  assert (Hltmed : length tmed = length nf).
  { subst tmed. unfold Excel.calcular_tmed. rewrite length_zip_with. lia. }
  set (tb0 := Qred (inject_Z (Z.of_nat 0) * (1 # 2))).
  pose proof (score_sample_cases nf tmed tb0 Hltmed) as Hcase.
  destruct (finite_values (sample_X (floats nf) tmed tb0)) as [xs0|] eqn:Hfin.
  - assert (Hall : measured_with_temperatures tmin tmax nf)
      by (eapply sample_X_measured; eauto).
    destruct (measured_sample_X tmin tmax nf tb0 Hlmin Hlmax Hall) as (xs' & Hxs' & Hl).
    fold tmed in Hxs'. rewrite Hfin in Hxs'. injection Hxs' as <-.
    destruct xs0 as [|x xs].
    + right. split.
      * intros [Hne _]. simpl in Hl. destruct (present_values nf); [congruence|discriminate].
      * change base_temps with
          (tb0 :: map (fun i => Qred (inject_Z (Z.of_nat i) * (1 # 2))) (seq 1 40)).
        cbn [score_all]. now rewrite Hcase.
    + left. split; [|split; [exact Hall|]].
      * intros Hnil. rewrite Hnil in Hl. discriminate.
      * destruct (score_all_ok (floats nf) tmed base_temps []) as (new & Hnew & Htb).
        -- intros tb.
           destruct (measured_sample_X tmin tmax nf tb Hlmin Hlmax Hall)
             as (xs1 & Hxs1 & Hl1).
           pose proof (score_sample_cases nf tmed tb Hltmed) as Hc.
           fold tmed in Hxs1. rewrite Hxs1 in Hc.
           destruct xs1 as [|x1 xs1]; [|exact Hc].
           simpl in Hl1, Hl. congruence.
        -- exists new. split; [exact Hnew|exact Htb].
  - right. split.
    + intros [_ Hall].
      destruct (measured_sample_X tmin tmax nf tb0 Hlmin Hlmax Hall) as (xs' & Hxs' & _).
      fold tmed in Hxs'. congruence.
    + change base_temps with
        (tb0 :: map (fun i => Qred (inject_Z (Z.of_nat i) * (1 # 2))) (seq 1 40)).
      cbn [score_all]. now rewrite Hcase.
Qed.

(** X1: on a validated table [calculate_tb] returns exactly when some
    leaf count is present and every day with a leaf count has both
    temperatures; it then returns one row per candidate of the grid and
    a best row taken from them.  Otherwise it raises [ValueError], and
    it raises nothing else. *)
Theorem calculate_tb_returns_iff (df : DataFrame) (tmin tmax nf : list num) :
  Tmin df = Some (floats tmin) ->
  Tmax df = Some (floats tmax) ->
  NF df = Some (floats nf) ->
  length tmin = length nf ->
  length tmax = length nf ->
  ((exists rows best, (App.calculate_tb_body df).1 = Ok (rows, best))
   <-> present_values nf <> [] /\ measured_with_temperatures tmin tmax nf)
  /\ (forall rows best, (App.calculate_tb_body df).1 = Ok (rows, best) ->
        map App.Tb rows = base_temps /\ best ∈ rows)
  /\ (forall e, (App.calculate_tb_body df).1 = Raise e -> e = ValueError).
Proof.
  intros Hmin Hmax Hnf Hlmin Hlmax.
  pose proof (calculate_tb_body_result df tmin tmax (floats nf) Hmin Hmax Hnf) as Hres.
  assert (Hsel : forall rows, map App.Tb rows = base_temps ->
            exists i best, idxmin (map App.QME rows) = Ok i /\ rows !! i = Some best).
  { intros rows Htb. destruct rows as [|r rows]; [discriminate|].
    destruct (idxmin_nonempty (map App.QME (r :: rows))) as (i & Hi); [discriminate|].
    destruct (idxmin_spec _ _ Hi) as (v & Hv & _).
    rewrite list_lookup_fmap in Hv.
    destruct ((r :: rows) !! i) as [best|] eqn:Hb; [|discriminate]. eauto. }
  destruct (score_all_cases tmin tmax nf Hlmin Hlmax)
    as [(Hne & Hall & rows & Hrows & Htb)|(Hnot & Hraise)].
  - destruct (Hsel rows Htb) as (i & best & Hi & Hb).
    rewrite Hrows, Hi, Hb in Hres. rewrite Hres.
    split; [|split].
    + split; [auto|]. intros _. eauto.
    + intros rows' best' [= <- <-]. split; [exact Htb|].
      apply list_elem_of_lookup. eauto.
    + intros e He. discriminate.
  - rewrite Hraise in Hres. rewrite Hres.
    split; [|split].
    + split; [intros (rows & best & H); discriminate | intros H; contradiction].
    + intros rows best H. discriminate.
    + intros e [= <-]. reflexivity.
Qed.

Lemma calculate_tb_returns_iff_witness :
  (exists rows best, (App.calculate_tb_body scenario).1 = Ok (rows, best))
  <-> present_values [NaN; Val 2; NaN; Val 5; Val 8] <> []
      /\ measured_with_temperatures [Val 10; Val 12; Val 14; Val 16; Val 18]
           [Val 20; Val 22; Val 24; Val 26; Val 28] [NaN; Val 2; NaN; Val 5; Val 8].
Proof.
  exact (proj1 (calculate_tb_returns_iff scenario
                  [Val 10; Val 12; Val 14; Val 16; Val 18]
                  [Val 20; Val 22; Val 24; Val 26; Val 28]
                  [NaN; Val 2; NaN; Val 5; Val 8]
                  eq_refl eq_refl eq_refl eq_refl eq_refl)).
Defined.

(** ** The accumulated thermal sum along the Series *)

Lemma present_values_nonneg (l : list num) :
  Forall (fun x => match x with Val q => 0 <= q | NaN => True end) l ->
  Forall (fun q => 0 <= q) (present_values l).
Proof.
  induction 1 as [|x l Hx _ IH]; [constructor|].
  destruct x as [|q]; [exact IH|]. constructor; assumption.
Qed.

Lemma calcular_std_nonneg (tmed : list num) (tb : Q) :
  Forall (fun x => match x with Val q => 0 <= q | NaN => True end)
         (Excel.calcular_std tmed tb).
Proof.
  unfold Excel.calcular_std. apply Forall_fmap, Forall_forall. intros x _.
  destruct x as [|m]; simpl; [exact I|].
  destruct (Qlt_le_dec (m - tb) 0); [apply Qle_refl|assumption].
Qed.

(** X2: for every candidate the accumulated thermal sum never
    decreases along the Series and is never negative: of two days on
    which it is present, the later one has the larger or equal value. *)
Theorem accumulated_sum_non_decreasing
    (tmed : list num) (tb : Q) (i j : nat) (a b : Q) :
  let sta := Excel.calcular_sta (Excel.calcular_std tmed tb) in
  (i <= j)%nat ->
  sta !! i = Some (Val a) ->
  sta !! j = Some (Val b) ->
  (0 <= a /\ a <= b)
  /\ (forall nf df, Tmed df = Some tmed ->
        STa (App.calculate_tb_step nf tb df).2 = Some sta).
Proof.
  intros sta Hij Ha Hb. split.
  - set (std := Excel.calcular_std tmed tb) in *.
    pose proof (calcular_std_nonneg tmed tb) as Hpos. fold std in Hpos.
    pose proof (cumsum_from_lookup 0 std i) as Hi.
    pose proof (cumsum_from_lookup 0 std j) as Hj.
    unfold sta, Excel.calcular_sta, cumsum in Ha, Hb.
    destruct (std !! i) as [[|vi]|]; try (rewrite Hi in Ha; discriminate).
    destruct (std !! j) as [[|vj]|]; try (rewrite Hj in Hb; discriminate).
    destruct Hi as (sa & Hsa & Hea). destruct Hj as (sb & Hsb & Heb).
    rewrite Hsa in Ha. injection Ha as ->. rewrite Hsb in Hb. injection Hb as ->.
    assert (Hsplit : take (S j) std = take (S i) std ++ drop (S i) (take (S j) std)).
    { rewrite <- (take_drop (S i) (take (S j) std)) at 1.
      rewrite take_take. f_equal. f_equal. lia. }
    assert (Hfirst : 0 <= Qsum (present_values (take (S i) std))).
    { apply Qsum_nonneg, present_values_nonneg, Forall_take. exact Hpos. }
    assert (Hrest : 0 <= Qsum (present_values (drop (S i) (take (S j) std)))).
    { apply Qsum_nonneg, present_values_nonneg, Forall_drop, Forall_take. exact Hpos. }
    rewrite Hea, Heb, Hsplit. unfold present_values. rewrite omap_app.
    fold (present_values (take (S i) std)).
    fold (present_values (drop (S i) (take (S j) std))).
    rewrite Qsum_app. split; lra.
  - intros nf df Hdf. rewrite (calculate_tb_step_frame nf tb df tmed Hdf). reflexivity.
Qed.

Lemma accumulated_sum_non_decreasing_witness :
  exists a b,
    Excel.calcular_sta (Excel.calcular_std [Val 15; NaN; Val 19] 16) !! 0%nat
    = Some (Val a)
    /\ Excel.calcular_sta (Excel.calcular_std [Val 15; NaN; Val 19] 16) !! 2%nat
       = Some (Val b)
    /\ 0 <= a /\ a <= b.
Proof.
  eexists _, _. split; [reflexivity|]. split; [reflexivity|].
  exact (proj1 (accumulated_sum_non_decreasing [Val 15; NaN; Val 19] 16 0 2
                  _ _ ltac:(lia) eq_refl eq_refl)).
Defined.

(** ** Bounds on the scores *)

Lemma sq_nonneg (q : Q) : 0 <= sq q.
Proof.
  unfold sq, Qle. simpl. rewrite Z.mul_1_r. apply Z.square_nonneg.
Qed.

Lemma Qsum_sq_nonneg (c : Q) (l : list Q) : 0 <= Qsum (map (fun x => sq (x - c)) l).
Proof.
  apply Qsum_nonneg, Forall_forall. intros q Hq.
  apply list_elem_of_In, in_map_iff in Hq as (x & <- & _). apply sq_nonneg.
Qed.

Lemma sum_sq_err_nonneg (ys y_pred : list Q) : 0 <= sum_sq_err ys y_pred.
Proof.
  unfold sum_sq_err. revert y_pred.
  induction ys as [|y ys IH]; intros [|p y_pred]; simpl; try apply Qle_refl.
  specialize (IH y_pred). pose proof (sq_nonneg (y - p)). lra.
Qed.

(** The residual sum of squares of a line through the point of the means,
    in terms of the centred sums. *)
Lemma sum_sq_err_line (xs ys : list Q) (a xbar ybar : Q) :
  length xs = length ys ->
  sum_sq_err ys (predict {| coef_ := a; intercept_ := ybar - a * xbar |} xs)
  == Qsum (map (fun y => sq (y - ybar)) ys)
     - 2 * a * Qsum (zip_with (fun x y => (x - xbar) * (y - ybar)) xs ys)
     + a * a * Qsum (map (fun x => sq (x - xbar)) xs).
Proof.
  unfold sum_sq_err, predict. revert ys.
  induction xs as [|x xs IH]; intros [|y ys] Hlen; try discriminate; simpl.
  - ring.
  - injection Hlen as Hlen. rewrite (IH ys Hlen). unfold sq. ring.
Qed.

(** Least squares never does worse than the mean of the responses. *)
Lemma ols_sum_sq_err_le (xs ys : list Q) :
  length xs = length ys ->
  sum_sq_err ys (predict (ols xs ys) xs)
  <= Qsum (map (fun y => sq (y - mean ys)) ys).
Proof.
  intros Hlen. unfold ols.
  set (xbar := mean xs). set (ybar := mean ys).
  set (sxx := Qsum (map (fun x => sq (x - xbar)) xs)).
  set (sxy := Qsum (zip_with (fun x y => (x - xbar) * (y - ybar)) xs ys)).
  set (syy := Qsum (map (fun y => sq (y - ybar)) ys)).
  pose proof (Qsum_sq_nonneg xbar xs) as Hxx. fold sxx in Hxx.
  destruct (Qeq_bool sxx 0) eqn:Hz.
  - rewrite (sum_sq_err_line xs ys 0 xbar ybar Hlen).
    fold sxx sxy syy. lra.
  - assert (Hne : ~ sxx == 0) by (apply Qeq_bool_neq; exact Hz).
    assert (Hpos : 0 < sxx) by lra.
    rewrite (sum_sq_err_line xs ys (sxy / sxx) xbar ybar Hlen).
    fold sxx sxy syy.
    assert (Hgain : 0 <= sxy * sxy / sxx).
    { apply Qle_shift_div_l; [exact Hpos|].
      pose proof (sq_nonneg sxy) as Hsq. unfold sq in Hsq. lra. }
    assert (Heq : syy - 2 * (sxy / sxx) * sxy + sxy / sxx * (sxy / sxx) * sxx
                  == syy - sxy * sxy / sxx) by (field; exact Hne).
    rewrite Heq. lra.
Qed.

Lemma r2_score_bounds (ys y_pred : list Q) (v : Q) :
  sum_sq_err ys y_pred <= Qsum (map (fun y => sq (y - mean ys)) ys) ->
  r2_score ys y_pred = Val v ->
  0 <= v /\ v <= 1.
Proof.
  intros Hle. unfold r2_score.
  destruct (length ys <? 2)%nat; [discriminate|].
  pose proof (sum_sq_err_nonneg ys y_pred) as Hres.
  set (ss_res := sum_sq_err ys y_pred) in *.
  set (ss_tot := Qsum (map (fun y => sq (y - mean ys)) ys)) in *.
  destruct (Qeq_bool ss_tot 0) eqn:Hz.
  - destruct (Qeq_bool ss_res 0); intros [= <-]; split; lra.
  - assert (Hne : ~ ss_tot == 0) by (apply Qeq_bool_neq; exact Hz).
    assert (Hpos : 0 < ss_tot) by lra.
    intros [= <-].
    assert (H1 : ss_res / ss_tot <= 1) by (apply Qle_shift_div_r; lra).
    assert (H0 : 0 <= ss_res / ss_tot) by (apply Qle_shift_div_l; lra).
    split; lra.
Qed.

Lemma mean_squared_error_nonneg (ys y_pred : list Q) :
  0 <= mean_squared_error ys y_pred.
Proof.
  unfold mean_squared_error, Qlen.
  pose proof (sum_sq_err_nonneg ys y_pred) as Hres.
  destruct (length ys) as [|n] eqn:Hn.
  - simpl. unfold Qdiv. rewrite Qmult_0_r. apply Qle_refl.
  - apply Qle_shift_div_l; [|lra].
    replace 0 with (inject_Z 0) by reflexivity. rewrite <- Zlt_Qlt. lia.
Qed.

Lemma check_X_y_inv (X y : list num) (xs ys : list Q) :
  check_X_y X y = Ok (xs, ys) -> length xs = length ys.
Proof.
  unfold check_X_y.
  destruct (finite_values X) as [xs'|]; [|discriminate].
  destruct (finite_values y) as [ys'|]; [|discriminate].
  destruct xs' as [|x xs']; [discriminate|].
  destruct (Nat.eqb_spec (length (x :: xs')) (length ys')) as [Heq|]; [|discriminate].
  intros [= <- <-]. exact Heq.
Qed.

(** The scores of a row computed from a regression sample. *)
Lemma score_sample_bounds (tb : Q) (X : list num) (y : list cell)
    (row : App.result_row) :
  score_sample tb X y = Ok row ->
  App.Tb row = tb
  /\ 0 <= App.QME row
  /\ (forall v, App.R2 row = Val v -> 0 <= v /\ v <= 1).
Proof.
  unfold score_sample.
  destruct (as_floats y) as [yv|]; [|discriminate].
  destruct (check_X_y X yv) as [[xs ys]|] eqn:Hchk; [|discriminate].
  intros [= <-]. simpl. split; [reflexivity|]. split.
  - apply mean_squared_error_nonneg.
  - intros v. apply r2_score_bounds, ols_sum_sq_err_le.
    exact (check_X_y_inv _ _ _ _ Hchk).
Qed.

Lemma score_all_rows nf tmed tbs results rows :
  score_all nf tmed tbs results = Ok rows ->
  exists new,
    rows = results ++ new
    /\ Forall2 (fun tb row =>
         score_sample tb (sample_X nf tmed tb) (sample_y nf) = Ok row) tbs new.
Proof.
  revert results. induction tbs as [|tb rest IH]; intros results; simpl.
  - intros [= <-]. exists []. rewrite app_nil_r. split; [reflexivity|constructor].
  - destruct (score_sample tb _ _) as [row|e] eqn:Hrow; [|discriminate].
    intros H. destruct (IH _ H) as (new & -> & Hall).
    exists (row :: new). rewrite <- app_assoc. split; [reflexivity|].
    constructor; assumption.
Qed.

Lemma as_floats_inv (col : list cell) (l : list num) :
  as_floats col = Ok l -> col = floats l.
Proof.
  revert l. induction col as [|c col IH]; intros l; simpl.
  - now intros [= <-].
  - destruct c as [x|s]; [|discriminate].
    destruct (as_floats col) as [l'|]; [|discriminate].
    intros [= <-]. now rewrite (IH l' eq_refl).
Qed.

(** When [calculate_tb] returns, its table holds one scored row per
    candidate, computed from the ['Tmin'], ['Tmax'] and ['NF'] columns,
    and its best row is the row at the first minimum of the QME. *)
Lemma calculate_tb_body_ok_inv df rows best :
  (App.calculate_tb_body df).1 = Ok (rows, best) ->
  exists tmin tmax nf i,
    Tmin df = Some (floats tmin) /\ Tmax df = Some (floats tmax)
    /\ NF df = Some nf
    /\ score_all nf (Excel.calcular_tmed tmin tmax) base_temps [] = Ok rows
    /\ idxmin (map App.QME rows) = Ok i /\ rows !! i = Some best.
Proof.
  intros H.
  destruct (Tmin df) as [tminc|] eqn:Hmin;
    [|revert H; unfold App.calculate_tb_body; unfold bind at 1; unfold column at 1;
      rewrite Hmin; discriminate].
  destruct (Tmax df) as [tmaxc|] eqn:Hmax;
    [|revert H; unfold App.calculate_tb_body; unfold bind at 1; unfold column at 1;
      rewrite Hmin; unfold bind at 1; unfold column at 1; rewrite Hmax; discriminate].
  destruct (as_floats tminc) as [tmin|e] eqn:Hfmin;
    [|revert H; unfold App.calculate_tb_body; unfold bind at 1; unfold column at 1;
      rewrite Hmin; unfold bind at 1; unfold column at 1; rewrite Hmax;
      unfold bind at 1; unfold lift at 1; rewrite Hfmin; discriminate].
  destruct (as_floats tmaxc) as [tmax|e] eqn:Hfmax;
    [|revert H; unfold App.calculate_tb_body; unfold bind at 1; unfold column at 1;
      rewrite Hmin; unfold bind at 1; unfold column at 1; rewrite Hmax;
      unfold bind at 1; unfold lift at 1; rewrite Hfmin;
      unfold bind at 1; unfold lift at 1; rewrite Hfmax; discriminate].
  apply as_floats_inv in Hfmin, Hfmax. subst tminc tmaxc.
  destruct (NF df) as [nf|] eqn:Hnf;
    [|revert H; unfold App.calculate_tb_body; unfold bind at 1; unfold column at 1;
      rewrite Hmin; unfold bind at 1; unfold column at 1; rewrite Hmax;
      unfold bind at 1; unfold lift at 1; rewrite as_floats_floats;
      unfold bind at 1; unfold lift at 1; rewrite as_floats_floats;
      unfold bind at 1; unfold assign at 1;
      unfold bind at 1; unfold column at 1; simpl NF; rewrite Hnf; discriminate].
  rewrite (calculate_tb_body_result df tmin tmax nf Hmin Hmax Hnf) in H.
  destruct (score_all nf _ base_temps []) as [rows'|e] eqn:Hall; [|discriminate].
  destruct (idxmin (map App.QME rows')) as [i|e] eqn:Hi; [|discriminate].
  destruct (rows' !! i) as [b|] eqn:Hb; [|discriminate].
  injection H as <- <-. exists tmin, tmax, nf, i. auto 10.
Qed.

(** X3: every row of the table of [calculate_tb] has a QME that is not
    negative and an R² that, when defined, lies between 0 and 1. *)
Theorem scores_within_bounds (df : DataFrame) rows best r :
  (App.calculate_tb_body df).1 = Ok (rows, best) ->
  r ∈ rows ->
  0 <= App.QME r /\ (forall v, App.R2 r = Val v -> 0 <= v /\ v <= 1).
Proof.
  intros Hok Hr.
  destruct (calculate_tb_body_ok_inv df rows best Hok)
    as (tmin & tmax & nf & i & _ & _ & _ & Hall & _).
  destruct (score_all_rows _ _ _ _ _ Hall) as (new & -> & Hrows).
  simpl in Hr. apply list_elem_of_lookup in Hr as [j Hj].
  destruct (Forall2_lookup_r _ _ _ _ _ Hrows Hj) as (tb & _ & Hrow).
  destruct (score_sample_bounds _ _ _ _ Hrow) as (_ & Hq & Hr2). auto.
Qed.

Lemma scores_within_bounds_witness :
  exists rows best r,
    (App.calculate_tb_body scenario).1 = Ok (rows, best) /\ r ∈ rows
    /\ 0 <= App.QME r.
Proof.
  pose proof scenario_estimated as Hok. revert Hok.
  destruct (App.calculate_tb_body scenario) as [[[rows best]|e] df'] eqn:H;
    intros Hok; [|discriminate Hok].
  destruct (calculate_tb_body_inv scenario rows best df' H) as (i & _ & Hb & _).
  assert (Hin : best ∈ rows) by (apply list_elem_of_lookup; eauto).
  exists rows, best, best. split; [reflexivity|]. split; [exact Hin|].
  refine (proj1 (scores_within_bounds scenario rows best best _ Hin)).
  rewrite H. reflexivity.
Defined.

(** ** Selection of the best fit *)

Lemma map_Tb_placeholders (tb_range : list float64) :
  map Excel.Tb (map Excel.sem_resultado tb_range) = tb_range.
Proof.
  induction tb_range as [|tb rest IH]; [reflexivity|]. simpl. now rewrite IH.
Qed.

(** C2: each program selects by one score only.  The results table of
    [calculate_tb] holds, for the candidates 0, 0.5, ..., 20 in that
    order, the scores of the least-squares line through the regression
    sample of the candidate, and the best row is the row at the first
    minimum of the QME column: among the rows of minimal QME it has the
    lowest Tb.  The selection of the Excel program returns, from any
    results table, the row at the first maximum of its R² column, and
    [main] applies it to the table that [estimar_tb_otimo] built for the
    candidates of [np.arange], in their order; the row it reports is the
    first row, for tb_min. *)
Theorem best_fit_is_first_optimum :
  (forall df rows best,
     (App.calculate_tb_body df).1 = Ok (rows, best) ->
     exists tmin tmax nf i,
       Tmin df = Some (floats tmin) /\ Tmax df = Some (floats tmax)
       /\ NF df = Some nf
       /\ Forall2 (fun tb row =>
            score_sample tb (sample_X nf (Excel.calcular_tmed tmin tmax) tb)
              (sample_y nf) = Ok row) base_temps rows
       /\ rows !! i = Some best
       /\ first_min (map App.QME rows) i
       /\ (forall j r, rows !! j = Some r ->
             App.Tb r == inject_Z (Z.of_nat j) * (1 # 2))
       /\ (forall j r, rows !! j = Some r ->
             App.QME r <= App.QME best -> App.Tb best <= App.Tb r))
  /\ (forall resultados r,
        Excel.tb_otimo_de resultados = Ok r ->
        exists i, resultados !! i = Some r
                  /\ first_max (map Excel.R2 resultados) i)
  /\ (forall df f (h h' : heap) tb_min tb_max tb_step inicio_emergencia
             rows tb_otimo r2_otimo coef_otimo intercept_otimo,
        h !! df = Some f ->
        Excel.main df tb_min tb_max tb_step inicio_emergencia h
        = (Ok (Excel.AnaliseConcluida rows tb_otimo r2_otimo coef_otimo
                 intercept_otimo), h') ->
        exists tb_range r,
          arange tb_min (fadd tb_max tb_step) tb_step = Ok tb_range
          /\ Excel.estimar_tb_otimo tb_range inicio_emergencia f = (Ok rows, f)
          /\ map Excel.Tb rows = tb_range
          /\ Excel.tb_otimo_de rows = Ok r
          /\ rows !! 0%nat = Some r /\ tb_otimo = tb_min
          /\ tb_otimo = Excel.Tb r /\ r2_otimo = Excel.R2 r
          /\ coef_otimo = Excel.Coeficiente_Angular r
          /\ intercept_otimo = Excel.Intercepto r).
Proof.
  split; [|split].
  - intros df rows best Hok.
    destruct (calculate_tb_body_ok_inv df rows best Hok)
      as (tmin & tmax & nf & i & Hmin & Hmax & Hnf & Hall & Hi & Hb).
    destruct (score_all_rows _ _ _ _ _ Hall) as (new & Hnew & Hrows).
    simpl in Hnew. subst new.
    assert (Hgrid : forall j r, rows !! j = Some r ->
              base_temps !! j = Some (App.Tb r)).
    { intros j r Hj.
      destruct (Forall2_lookup_r _ _ _ _ _ Hrows Hj) as (tb & Htb & Hrow).
      destruct (score_sample_bounds _ _ _ _ Hrow) as (-> & _). exact Htb. }
    destruct (idxmin_spec _ _ Hi) as (q & Hq & Hle & Hlt).
    change (map App.QME rows) with (App.QME <$> rows) in Hq, Hle, Hlt.
    rewrite list_lookup_fmap, Hb in Hq. injection Hq as <-.
    exists tmin, tmax, nf, i.
    split; [exact Hmin|]. split; [exact Hmax|]. split; [exact Hnf|].
    split; [exact Hrows|]. split; [exact Hb|].
    split; [apply idxmin_spec; exact Hi|]. split.
    + intros j r Hj. apply base_temps_lookup, Hgrid, Hj.
    + intros j r Hj Hqme.
      destruct (le_lt_dec i j) as [Hij|Hji].
      * exact (base_temps_ascending i j _ _ Hij (Hgrid i best Hb) (Hgrid j r Hj)).
      * exfalso. apply (Qlt_not_le _ _ (Hlt j (App.QME r) Hji
                          ltac:(rewrite list_lookup_fmap, Hj; reflexivity))).
        exact Hqme.
  - exact tb_otimo_de_spec.
  - intros df f h h' tb_min tb_max tb_step inicio rows tb r2 c ic Hf Hmain.
    rewrite (main_run df f h tb_min tb_max tb_step inicio Hf) in Hmain.
    destruct (arange tb_min (fadd tb_max tb_step) tb_step) as [[|tb0 tbs]|e]
      eqn:Hgrid; try discriminate Hmain.
    injection Hmain as <- <- <- <- <- _.
    pose proof (arange_head _ _ _ _ _ Hgrid) as Hhead.
    exists (tb0 :: tbs), (Excel.sem_resultado tb0).
    split; [reflexivity|]. split; [apply estimar_tb_otimo_rows|].
    split; [apply (map_Tb_placeholders (tb0 :: tbs))|].
    split; [apply tb_otimo_de_placeholders|].
    split; [reflexivity|]. split; [exact Hhead|]. auto.
Qed.

Lemma best_fit_is_first_optimum_witness :
  (exists rows best i,
     (App.calculate_tb_body scenario).1 = Ok (rows, best)
     /\ rows !! i = Some best /\ first_min (map App.QME rows) i)
  /\ (exists i,
        [ {| Excel.Tb := decimal 5 1; Excel.R2 := Val (1 # 2);
             Excel.Coeficiente_Angular := 1; Excel.Intercepto := 0 |};
          {| Excel.Tb := decimal 6 1; Excel.R2 := Val (9 # 10);
             Excel.Coeficiente_Angular := 2; Excel.Intercepto := 0 |};
          {| Excel.Tb := decimal 7 1; Excel.R2 := Val (9 # 10);
             Excel.Coeficiente_Angular := 3; Excel.Intercepto := 0 |} ] !! i
        = Some {| Excel.Tb := decimal 6 1; Excel.R2 := Val (9 # 10);
                  Excel.Coeficiente_Angular := 2; Excel.Intercepto := 0 |}
        /\ first_max [Val (1 # 2); Val (9 # 10); Val (9 # 10)] i)
  /\ (exists tb_range r,
        arange (decimal 5 1) (fadd (decimal 15 1) (decimal 5 10)) (decimal 5 10)
        = Ok tb_range
        /\ Excel.estimar_tb_otimo tb_range 0 scenario
           = (Ok (map Excel.sem_resultado tb_range), scenario)
        /\ Excel.tb_otimo_de (map Excel.sem_resultado tb_range) = Ok r
        /\ Excel.Tb r = decimal 5 1).
Proof.
  split; [|split].
  - pose proof scenario_estimated as Hok. revert Hok.
    destruct (App.calculate_tb_body scenario) as [[[rows best]|e] df'] eqn:H;
      intros Hok; [|discriminate Hok].
    destruct (proj1 best_fit_is_first_optimum scenario rows best
                ltac:(rewrite H; reflexivity))
      as (tmin & tmax & nf & i & _ & _ & _ & _ & Hbest & Hmin & _).
    exists rows, best, i. auto.
  - apply (proj1 (proj2 best_fit_is_first_optimum)). vm_compute. reflexivity.
  - assert (Hgrid : exists tbs,
              arange (decimal 5 1) (fadd (decimal 15 1) (decimal 5 10)) (decimal 5 10)
              = Ok (decimal 5 1 :: tbs))
      by (eexists; vm_compute; reflexivity).
    destruct Hgrid as (tbs & Hgrid).
    pose proof (main_run 1%positive scenario {[ 1%positive := scenario ]}
                  (decimal 5 1) (decimal 15 1) (decimal 5 10) 0
                  (lookup_singleton_eq _ _)) as Hmain.
    rewrite Hgrid in Hmain.
    destruct (proj2 (proj2 best_fit_is_first_optimum) 1%positive scenario
                _ _ _ _ _ _ _ _ _ _ _ (lookup_singleton_eq _ _) Hmain)
      as (tb_range & r & Hg & Hrows & _ & Hsel & _ & _ & Htb & _).
    rewrite Hgrid in Hg. injection Hg as <-.
    exists (decimal 5 1 :: tbs), r. auto.
Defined.

(** ** The candidate grid of the Excel program *)

(** C6 fails on the code.  With tb_min = 0.0, tb_max = 0.2 and
    tb_step = 0.1 the range is exactly two steps long, so that three
    candidates are due; [np.arange(tb_min, tb_max + tb_step, tb_step)]
    returns four: 0.2 + 0.1 is rounded to 0.30000000000000004, the
    quotient by 0.1 is just above 3 and its ceiling is 4.  The results
    table has four rows and its last candidate lies above tb_max. *)
Theorem results_table_overshoots_exact_range :
  fdiv (fsub (decimal 2 10) (decimal 0 1)) (decimal 1 10) = float_of_Z 2
  /\ exists rows tb_otimo r2_otimo coef_otimo intercept_otimo,
       Excel.main 1%positive (decimal 0 1) (decimal 2 10) (decimal 1 10) 0
         {[ 1%positive := scenario ]}
       = (Ok (Excel.AnaliseConcluida rows tb_otimo r2_otimo coef_otimo
                intercept_otimo), {[ 1%positive := scenario ]})
       /\ length rows = 4%nat
       /\ map Excel.Tb rows
          = [decimal 0 1; decimal 1 10; decimal 2 10;
             fadd (decimal 2 10) (decimal 1 10)]
       /\ SFltb (decimal 2 10) (fadd (decimal 2 10) (decimal 1 10)) = true
       /\ fadd (decimal 2 10) (decimal 1 10) <> decimal 3 10.
Proof.
  split; [vm_compute; reflexivity|].
  rewrite (main_run 1%positive scenario _ _ _ _ 0 (lookup_singleton_eq _ _)).
  assert (Hgrid : arange (decimal 0 1) (fadd (decimal 2 10) (decimal 1 10)) (decimal 1 10)
                  = Ok [decimal 0 1; decimal 1 10; decimal 2 10;
                        fadd (decimal 2 10) (decimal 1 10)])
    by (vm_compute; reflexivity).
  rewrite Hgrid. eexists _, _, _, _, _. split; [reflexivity|].
  split; [reflexivity|]. split; [apply map_Tb_placeholders|].
  split; [vm_compute; reflexivity|]. vm_compute. discriminate.
Qed.

(** ** Degenerate candidates *)

(** C1 (amended): the grid search of the Excel program never raises and
    returns one row per candidate; a candidate without a usable
    regression gets the placeholder row (R² 0, slope 0, intercept 0),
    and so does, in the code as it is, every candidate:
    [realizar_regressao] returns the placeholder from its first guard or
    raises from [reshape] on the Series it is given, and the [except]
    clause of [estimar_tb_otimo] turns that into the placeholder row.
    The selection does not fault: for a grid that is not empty the
    analysis concludes with the first candidate and R² = 0; there is no
    signal of its own for a table without a usable fit. *)
Theorem degenerate_candidates_score_zero
    (df : loc) (f : DataFrame) (h : heap)
    (tb_min tb_max tb_step : float64) (inicio_emergencia : nat)
    (tb_range : list float64) :
  h !! df = Some f ->
  arange tb_min (fadd tb_max tb_step) tb_step = Ok tb_range ->
  tb_range <> [] ->
  (forall sta y,
     Excel.realizar_regressao (Excel.Series sta) y inicio_emergencia
     = if (length sta <=? inicio_emergencia)%nat then Ok Excel.sem_regressao
       else Raise AttributeError)
  /\ Excel.estimar_tb_otimo tb_range inicio_emergencia f
     = (Ok (map Excel.sem_resultado tb_range), f)
  /\ map Excel.Tb (map Excel.sem_resultado tb_range) = tb_range
  /\ Excel.main df tb_min tb_max tb_step inicio_emergencia h
     = (Ok (Excel.AnaliseConcluida (map Excel.sem_resultado tb_range) tb_min
              (Val 0) 0 0), h).
Proof.
  intros Hf Hgrid Hne.
  split; [intros sta y; apply realizar_regressao_series|].
  split; [apply estimar_tb_otimo_rows|].
  split; [apply map_Tb_placeholders|].
  rewrite (main_run df f h tb_min tb_max tb_step inicio_emergencia Hf), Hgrid.
  destruct tb_range as [|tb tbs]; [congruence|].
  rewrite (arange_head _ _ _ _ _ Hgrid). reflexivity.
Qed.

Lemma degenerate_candidates_score_zero_witness :
  exists rows,
    Excel.main 1%positive (decimal 5 1) (decimal 15 1) (decimal 5 10) 0
      {[ 1%positive := no_measurements ]}
    = (Ok (Excel.AnaliseConcluida rows (decimal 5 1) (Val 0) 0 0),
       {[ 1%positive := no_measurements ]})
    /\ length rows = 21%nat
    /\ Forall (fun r => Excel.R2 r = Val 0) rows.
Proof.
  assert (Hgrid : exists tb_range,
            arange (decimal 5 1) (fadd (decimal 15 1) (decimal 5 10)) (decimal 5 10)
            = Ok tb_range /\ length tb_range = 21%nat).
  { eexists. split; [vm_compute; reflexivity|reflexivity]. }
  destruct Hgrid as (tb_range & Hgrid & Hlen).
  destruct (degenerate_candidates_score_zero 1%positive no_measurements
              {[ 1%positive := no_measurements ]}
              (decimal 5 1) (decimal 15 1) (decimal 5 10) 0 tb_range
              (lookup_singleton_eq _ _) Hgrid)
    as (_ & _ & _ & Hmain).
  { intros ->. discriminate Hlen. }
  exists (map Excel.sem_resultado tb_range).
  split; [exact Hmain|]. split; [rewrite List.length_map; exact Hlen|].
  apply Forall_forall. intros r Hr.
  apply list_elem_of_In, in_map_iff in Hr as (tb & <- & _). reflexivity.
Defined.

(** C1, as stated, fails on a Series whose leaf counts are all missing:
    [app.py] raises [ValueError] out of [calculate_tb] (the regression is
    fitted on an empty sample), and the Excel program reports the first
    candidate as the best Tb, with R² = 0, as for any concluded
    analysis. *)
Lemma degenerate_series_faults_or_reports_a_fit :
  (App.main_application_logic (Some 1%positive)
     {[ 1%positive := no_measurements ]}).1 = Raise ValueError
  /\ exists rows,
       (Excel.main 1%positive (decimal 5 1) (decimal 15 1) (decimal 5 10) 0
          {[ 1%positive := no_measurements ]}).1
       = Ok (Excel.AnaliseConcluida rows (decimal 5 1) (Val 0) 0 0).
Proof.
  split.
  - vm_compute. reflexivity.
  - rewrite (main_run 1%positive no_measurements _ _ _ _ 0 (lookup_singleton_eq _ _)).
    assert (Hgrid : exists tbs,
              arange (decimal 5 1) (fadd (decimal 15 1) (decimal 5 10)) (decimal 5 10)
              = Ok (decimal 5 1 :: tbs))
      by (eexists; vm_compute; reflexivity).
    destruct Hgrid as (tbs & ->). eexists. reflexivity.
Qed.

(** ** The error branch of the analysis *)

(** X8: whatever the table holds, the analysis step of the Excel program
    leaves the store as it was and ends in its error branch exactly when
    [np.arange] raises or returns an empty grid, as it does for a step
    of zero; on any other grid it concludes with one row per candidate
    and reports the first candidate, tb_min, with an R² of 0. *)
Theorem analysis_fails_on_empty_grid_only
    (df : loc) (f : DataFrame) (h : heap)
    (tb_min tb_max tb_step : float64) (inicio_emergencia : nat) :
  h !! df = Some f ->
  exists out,
    Excel.main df tb_min tb_max tb_step inicio_emergencia h = (Ok out, h)
    /\ (out = Excel.ErroNaAnalise
        <-> forall tb_range,
              arange tb_min (fadd tb_max tb_step) tb_step = Ok tb_range ->
              tb_range = [])
    /\ (is_zero tb_step = true -> out = Excel.ErroNaAnalise)
    /\ (forall tb_range,
          arange tb_min (fadd tb_max tb_step) tb_step = Ok tb_range ->
          tb_range <> [] ->
          out = Excel.AnaliseConcluida (map Excel.sem_resultado tb_range) tb_min
                  (Val 0) 0 0).
Proof.
  intros Hf. eexists. split; [apply (main_run df f h _ _ _ _ Hf)|].
  destruct (arange tb_min (fadd tb_max tb_step) tb_step) as [[|tb tbs]|e] eqn:Hgrid.
  - split; [split; [intros _ l [= <-]; reflexivity|reflexivity]|].
    split; [reflexivity|]. intros l [= <-] Hne. congruence.
  - split; [split; [discriminate|intros Hall; discriminate (Hall _ eq_refl)]|].
    split.
    + intros Hz. unfold arange in Hgrid. rewrite Hz in Hgrid. discriminate Hgrid.
    + intros l [= <-] _. rewrite (arange_head _ _ _ _ _ Hgrid). reflexivity.
  - split; [split; [intros _ l; discriminate|reflexivity]|].
    split; [reflexivity|]. intros l; discriminate.
Qed.

Lemma analysis_fails_on_empty_grid_only_witness :
  Excel.main 1%positive (decimal 5 10) (decimal 4 10) (decimal 1 10) 0
    {[ 1%positive := scenario ]}
  = (Ok Excel.ErroNaAnalise, {[ 1%positive := scenario ]})
  /\ exists rows,
       Excel.main 1%positive (decimal 3 10) (decimal 1 10) (decimal 2 10) 0
         {[ 1%positive := scenario ]}
       = (Ok (Excel.AnaliseConcluida rows (decimal 3 10) (Val 0) 0 0),
          {[ 1%positive := scenario ]})
       /\ length rows = 1%nat.
Proof.
  split.
  - destruct (analysis_fails_on_empty_grid_only 1%positive scenario
                {[ 1%positive := scenario ]} (decimal 5 10) (decimal 4 10)
                (decimal 1 10) 0 (lookup_singleton_eq _ _))
      as (out & Hmain & Herr & _).
    assert (Hout : out = Excel.ErroNaAnalise).
    { apply Herr. intros l Hl. vm_compute in Hl. injection Hl as <-. reflexivity. }
    rewrite Hout in Hmain. exact Hmain.
  - destruct (analysis_fails_on_empty_grid_only 1%positive scenario
                {[ 1%positive := scenario ]} (decimal 3 10) (decimal 1 10)
                (decimal 2 10) 0 (lookup_singleton_eq _ _))
      as (out & Hmain & _ & _ & Hok).
    assert (Hgrid : arange (decimal 3 10) (fadd (decimal 1 10) (decimal 2 10))
                      (decimal 2 10) = Ok [decimal 3 10])
      by (vm_compute; reflexivity).
    rewrite (Hok _ Hgrid) in Hmain by discriminate.
    eexists. split; [exact Hmain|reflexivity].
Defined.

(** ** Days with a missing temperature *)

(** C10 (amended): the accumulated thermal sum of a day is missing
    exactly when the Tmin or the Tmax of that very day is missing; on
    every other day, later days included, it is the running total of the
    daily thermal sums that are present up to that day.  [calculate_tb]
    writes that column and takes its regression sample from it: one
    point per measurement day, the point of a measurement day being the
    accumulated sum of that very day, so that a measurement day after a
    missing temperature is in the sample with the resumed total. *)
Theorem thermal_sum_missing_on_missing_days_only
    (tmin tmax : list num) (tb : Q) (i : nat) (a b : num) :
  tmin !! i = Some a ->
  tmax !! i = Some b ->
  let std := Excel.calcular_std (Excel.calcular_tmed tmin tmax) tb in
  let sta := Excel.calcular_sta std in
  (sta !! i = Some NaN <-> a = NaN \/ b = NaN)
  /\ (forall p q, a = Val p -> b = Val q ->
        exists s, sta !! i = Some (Val s)
                  /\ s == Qsum (present_values (take (S i) std)))
  /\ (forall nf df, Tmed df = Some (Excel.calcular_tmed tmin tmax) ->
        STa (App.calculate_tb_step nf tb df).2 = Some sta)
  /\ (forall nf df y,
        Tmed df = Some (Excel.calcular_tmed tmin tmax) ->
        length tmin = length nf -> length tmax = length nf ->
        nf !! i = Some (Val y) ->
        let X := App.on_pheno_index (floats nf) sta in
        (App.calculate_tb_step (floats nf) tb df).1
        = score_sample tb X (App.on_pheno_index (floats nf) (floats nf))
        /\ length X = length (present_values nf)
        /\ X !! length (present_values (take i nf)) = sta !! i).
Proof.
  intros Ha Hb std sta.
  pose proof (calcular_sta_lookup tmin tmax tb i a b Ha Hb) as Hsta.
  simpl in Hsta. fold std in Hsta. fold sta in Hsta.
  split; [|split; [|split]].
  - destruct a as [|p], b as [|q]; try (split; [auto|intros _; exact Hsta]).
    destruct Hsta as (s & Hs & _). rewrite Hs.
    split; [discriminate | intros [?|?]; discriminate].
  - intros p q -> ->. exact Hsta.
  - intros nf df Hdf. rewrite (calculate_tb_step_frame nf tb df _ Hdf). reflexivity.
  - intros nf df y Hdf Hlmin Hlmax Hy X.
    pose proof (calculate_tb_step_result (floats nf) tb df _ Hdf) as Hres.
    assert (Hlsta : length sta = length nf).
    { subst sta std. rewrite length_calcular_sta. lia. }
    assert (Hc : exists c, sta !! i = Some c).
    { destruct a, b; try (eexists; exact Hsta).
      destruct Hsta as (s & Hs & _). eauto. }
    destruct Hc as (c & Hc).
    split; [exact Hres|]. split; [apply length_on_pheno_index; exact Hlsta|].
    rewrite Hc. exact (on_pheno_index_lookup nf sta i y c Hy Hc).
Qed.

Lemma thermal_sum_missing_on_missing_days_only_witness :
  Excel.calcular_sta
    (Excel.calcular_std
       (Excel.calcular_tmed [Val 10; NaN; Val 14] [Val 20; Val 22; Val 24]) 0)
  !! 1%nat = Some NaN
  /\ exists s,
       Excel.calcular_sta
         (Excel.calcular_std
            (Excel.calcular_tmed [Val 10; NaN; Val 14] [Val 20; Val 22; Val 24]) 0)
       !! 2%nat = Some (Val s)
       /\ s == 34.
Proof.
  split.
  - apply (thermal_sum_missing_on_missing_days_only
             [Val 10; NaN; Val 14] [Val 20; Val 22; Val 24] 0 1 NaN (Val 22)
             eq_refl eq_refl).
    left. reflexivity.
  - destruct (proj1 (proj2 (thermal_sum_missing_on_missing_days_only
             [Val 10; NaN; Val 14] [Val 20; Val 22; Val 24] 0 2 (Val 14) (Val 24)
             eq_refl eq_refl)) 14 24 eq_refl eq_refl) as (s & Hs & Heq).
    exists s. split; [exact Hs|]. rewrite Heq. reflexivity.
Defined.

(** C10, as stated, fails: with the temperature of the second day
    missing, the accumulated thermal sum is missing on that day only and
    resumes on the later days, in [calculate_tb] and in [calcular_sta];
    the measurement days after it are in the regression sample of
    [calculate_tb], which returns. *)
Lemma thermal_sum_resumes_after_missing_day :
  let tmin := [Val 10; NaN; Val 14; Val 16; Val 18] in
  let tmax := [Val 20; Val 22; Val 24; Val 26; Val 28] in
  let tmed := Excel.calcular_tmed tmin tmax in
  let nf := [Val 1; NaN; Val 2; Val 5; Val 8] in
  let sta := Excel.calcular_sta (Excel.calcular_std tmed 0) in
  let df := {| Data := Data scenario; Tmin := Some (floats tmin);
               Tmax := Some (floats tmax); NF := Some (floats nf);
               Tmed := None; STd := None; STa := None |} in
  map nred sta = [Val 15; NaN; Val 34; Val 55; Val 78]
  /\ STa (App.calculate_tb_step (floats nf) 0
            {| Data := None; Tmin := None; Tmax := None; NF := Some (floats nf);
               Tmed := Some tmed; STd := None; STa := None |}).2 = Some sta
  /\ map nred (sample_X (floats nf) tmed 0) = [Val 15; Val 34; Val 55; Val 78]
  /\ is_ok (App.calculate_tb_body df) = true.
Proof.
  split; [reflexivity|]. split; [reflexivity|].
  split; [reflexivity|]. vm_compute. reflexivity.
Qed.

(** ** Non-numeric cells *)

(** C5 fails on the code.  In the table [text_on_measured_day] the Tmin
    of the second day is text and the leaf count of that day is present:
    [validate_data] coerces the cell to a missing value and reports
    nothing, and the estimation that then runs raises [ValueError] out
    of the regression, whose sample holds the missing accumulated sum of
    that day.  With the leaf count of that day missing as well
    ([raw_upload]) the row is left out of the sample and the estimation
    returns. *)
Theorem coerced_temperature_on_measured_day_is_fatal :
  (exists df',
     App.validate_data_body text_on_measured_day = (Ok [], df')
     /\ Tmin df' = Some (floats [Val 10; NaN; Val 14; Val 16; Val 18])
     /\ NF df' = Some (floats [Val 1; Val 2; NaN; Val 5; Val 8])
     /\ (App.calculate_tb_body df').1 = Raise ValueError)
  /\ (App.main_application_logic (Some 1%positive)
        {[ 1%positive := text_on_measured_day ]}).1 = Raise ValueError
  /\ is_ok (App.main_application_logic (Some 1%positive)
              {[ 1%positive := raw_upload ]}) = true.
Proof.
  pose proof (validate_data_body_present text_on_measured_day _ _ _ _
                eq_refl eq_refl eq_refl eq_refl) as Hv.
  match type of Hv with _ = (Ok ?m, ?d) =>
    assert (Hm : m = []) by (vm_compute; reflexivity);
    assert (Hraise : (App.calculate_tb_body d).1 = Raise ValueError)
      by (vm_compute; reflexivity);
    rewrite Hm in Hv
  end.
  split; [|split].
  - eexists. split; [exact Hv|]. split; [reflexivity|].
    split; [reflexivity|exact Hraise].
  - vm_compute. reflexivity.
  - vm_compute. reflexivity.
Qed.

(** ** The detailed results of the Excel program *)

(** X11: the recomputation of [mostrar_resultados] gives
    [realizar_regressao] a Series: on a table with the three selected
    columns it raises [AttributeError] as soon as the emergence offset
    is below the number of rows, and otherwise returns without a
    regression line; the table is left as it was. *)
Theorem detail_view_raises_on_series
    (df : DataFrame) (tmin tmax nf : list cell) (tb_otimo : float64)
    (inicio_emergencia : nat) :
  Tmin df = Some tmin -> Tmax df = Some tmax -> NF df = Some nf ->
  let n := Nat.min (length tmin) (length tmax) in
  ((inicio_emergencia < n)%nat ->
   Excel.mostrar_resultados tb_otimo inicio_emergencia df
   = (Raise AttributeError, df))
  /\ ((n <= inicio_emergencia)%nat ->
      exists pontos,
        Excel.mostrar_resultados tb_otimo inicio_emergencia df
        = (Ok (Excel.sem_regressao, pontos), df)).
Proof.
  intros Hmin Hmax Hnf n.
  assert (Hrun : Excel.mostrar_resultados tb_otimo inicio_emergencia df
                 = if (n <=? inicio_emergencia)%nat
                   then (Ok (Excel.sem_regressao,
                             (boolean_index
                                (Excel.calcular_sta
                                   (Excel.calcular_std
                                      (Excel.calcular_tmed (to_numeric_coerce tmin)
                                         (to_numeric_coerce tmax))
                                      (Q_of_float tb_otimo)))
                                (map notna (to_numeric_coerce nf)),
                              boolean_index (to_numeric_coerce nf)
                                (map notna (to_numeric_coerce nf)))), df)
                   else (Raise AttributeError, df)).
  { unfold Excel.mostrar_resultados.
    unfold bind at 1, column at 1. rewrite Hmin.
    unfold bind at 1, column at 1. rewrite Hmax.
    unfold bind at 1, column at 1. rewrite Hnf.
    unfold bind, lift, ret. rewrite realizar_regressao_series, length_calcular_sta,
      !length_to_numeric_coerce. fold n.
    destruct (n <=? inicio_emergencia)%nat; reflexivity. }
  rewrite Hrun. split.
  - intros Hlt. apply Nat.leb_gt in Hlt. rewrite Hlt. reflexivity.
  - intros Hle. apply Nat.leb_le in Hle. rewrite Hle. eexists. reflexivity.
Qed.

Lemma detail_view_raises_on_series_witness :
  Excel.mostrar_resultados (decimal 5 1) 0 scenario = (Raise AttributeError, scenario).
Proof.
  apply (proj1 (detail_view_raises_on_series scenario _ _ _ (decimal 5 1) 0
                  eq_refl eq_refl eq_refl)).
  simpl. lia.
Defined.

(** ** The two scores of [calculate_tb] agree *)

Lemma check_X_y_responses (X y : list num) (xs ys : list Q) :
  check_X_y X y = Ok (xs, ys) -> finite_values y = Some ys /\ ys <> [].
Proof.
  unfold check_X_y.
  destruct (finite_values X) as [xs'|]; [|discriminate].
  destruct (finite_values y) as [ys'|]; [|discriminate].
  destruct xs' as [|x xs']; [discriminate|].
  destruct (Nat.eqb_spec (length (x :: xs')) (length ys')) as [Heq|]; [|discriminate].
  intros [= <- <-]. split; [reflexivity|].
  intros ->. discriminate.
Qed.

Lemma Qlen_pos (l : list Q) : l <> [] -> 0 < Qlen l.
Proof.
  intros Hne. unfold Qlen. destruct l as [|x l]; [congruence|].
  replace 0 with (inject_Z 0) by reflexivity. rewrite <- Zlt_Qlt. simpl. lia.
Qed.

(** On one and the same response sample, a smaller mean squared error
    goes with a larger or equal R². *)
Lemma r2_score_antitone (ys p1 p2 : list Q) (v1 v2 : Q) :
  ys <> [] ->
  mean_squared_error ys p1 <= mean_squared_error ys p2 ->
  r2_score ys p1 = Val v1 -> r2_score ys p2 = Val v2 -> v2 <= v1.
Proof.
  intros Hne Hmse. unfold r2_score.
  destruct (length ys <? 2)%nat; [discriminate|].
  pose proof (sum_sq_err_nonneg ys p1) as H1.
  pose proof (sum_sq_err_nonneg ys p2) as H2.
  assert (Hsse : sum_sq_err ys p1 <= sum_sq_err ys p2).
  { unfold mean_squared_error, Qdiv in Hmse.
    apply Qmult_le_r in Hmse; [exact Hmse|].
    apply Qinv_lt_0_compat, Qlen_pos, Hne. }
  set (s1 := sum_sq_err ys p1) in *. set (s2 := sum_sq_err ys p2) in *.
  set (ss_tot := Qsum (map (fun y => sq (y - mean ys)) ys)).
  pose proof (Qsum_sq_nonneg (mean ys) ys) as Htot. fold ss_tot in Htot.
  destruct (Qeq_bool ss_tot 0) eqn:Hz.
  - destruct (Qeq_bool s2 0) eqn:Hz2.
    + apply Qeq_bool_iff in Hz2.
      assert (Hz1 : Qeq_bool s1 0 = true) by (apply Qeq_bool_iff; lra).
      rewrite Hz1. intros [= <-] [= <-]. apply Qle_refl.
    + destruct (Qeq_bool s1 0); intros [= <-] [= <-]; [discriminate|apply Qle_refl].
  - assert (Hnz : ~ ss_tot == 0) by (apply Qeq_bool_neq; exact Hz).
    assert (Hpos : 0 < ss_tot) by lra.
    intros [= <-] [= <-].
    assert (Hdiv : s1 / ss_tot <= s2 / ss_tot).
    { unfold Qdiv. apply Qmult_le_r; [apply Qinv_lt_0_compat; exact Hpos|exact Hsse]. }
    lra.
Qed.

Lemma score_sample_agree (tb1 tb2 : Q) (X1 X2 : list num) (y : list cell)
    (r1 r2 : App.result_row) (v1 v2 : Q) :
  score_sample tb1 X1 y = Ok r1 ->
  score_sample tb2 X2 y = Ok r2 ->
  App.QME r1 <= App.QME r2 ->
  App.R2 r1 = Val v1 -> App.R2 r2 = Val v2 -> v2 <= v1.
Proof.
  unfold score_sample.
  destruct (as_floats y) as [yv|]; [|discriminate].
  destruct (check_X_y X1 yv) as [[xs1 ys1]|] eqn:H1; [|discriminate].
  destruct (check_X_y X2 yv) as [[xs2 ys2]|] eqn:H2; [|discriminate].
  destruct (check_X_y_responses _ _ _ _ H1) as [Hy1 Hne].
  destruct (check_X_y_responses _ _ _ _ H2) as [Hy2 _].
  rewrite Hy1 in Hy2. injection Hy2 as <-.
  intros [= <-] [= <-]. simpl. intros Hmse Hv1 Hv2.
  exact (r2_score_antitone ys1 _ _ v1 v2 Hne Hmse Hv1 Hv2).
Qed.

(** X4: the row [calculate_tb] selects by its minimal QME also has the
    largest R² of the table: selecting by QME or by R² agrees on the
    optimal score. *)
Theorem minimal_qme_has_maximal_r2 (df : DataFrame) rows best r (v vb : Q) :
  (App.calculate_tb_body df).1 = Ok (rows, best) ->
  r ∈ rows ->
  App.R2 r = Val v ->
  App.R2 best = Val vb ->
  v <= vb.
Proof.
  intros Hok Hr Hv Hvb.
  destruct (calculate_tb_body_ok_inv df rows best Hok)
    as (tmin & tmax & nf & i & _ & _ & _ & Hall & Hi & Hb).
  destruct (score_all_rows _ _ _ _ _ Hall) as (new & -> & Hrows).
  simpl in *. apply list_elem_of_lookup in Hr as [j Hj].
  destruct (Forall2_lookup_r _ _ _ _ _ Hrows Hj) as (tb & _ & Hrow).
  destruct (Forall2_lookup_r _ _ _ _ _ Hrows Hb) as (tbb & _ & Hbest).
  destruct (idxmin_spec _ _ Hi) as (q & Hq & Hmin & _).
  rewrite list_lookup_fmap, Hb in Hq. injection Hq as <-.
  assert (Hle : App.QME best <= App.QME r).
  { apply (Hmin j). rewrite list_lookup_fmap, Hj. reflexivity. }
  exact (score_sample_agree _ _ _ _ _ _ _ vb v Hbest Hrow Hle Hvb Hv).
Qed.

Lemma minimal_qme_has_maximal_r2_witness :
  exists rows best,
    (App.calculate_tb_body scenario).1 = Ok (rows, best)
    /\ Forall (fun r => match App.R2 r, App.R2 best with
                        | Val v, Val vb => v <= vb
                        | _, _ => True
                        end) rows.
Proof.
  pose proof scenario_estimated as Hok. revert Hok.
  destruct (App.calculate_tb_body scenario) as [[[rows best]|e] df'] eqn:H;
    intros Hok; [|discriminate Hok].
  exists rows, best. split; [reflexivity|].
  apply Forall_forall. intros r Hr.
  destruct (App.R2 r) as [|v] eqn:Hv; [exact I|].
  destruct (App.R2 best) as [|vb] eqn:Hvb; [exact I|].
  refine (minimal_qme_has_maximal_r2 scenario rows best r v vb _ Hr Hv Hvb).
  rewrite H. reflexivity.
Defined.

(** ** More on validation *)

Lemma to_datetime_dayfirst_coerce_idem (data : list dcell) :
  to_datetime_dayfirst_coerce (to_datetime_dayfirst_coerce data)
  = to_datetime_dayfirst_coerce data.
Proof.
  unfold to_datetime_dayfirst_coerce. rewrite map_map. apply map_ext.
  intros [d p|t]; reflexivity.
Qed.

(** X5: validating a table that has already been validated returns the
    same messages and leaves it as it is. *)
Theorem validate_data_idempotent (df df' : DataFrame) errors :
  App.validate_data_body df = (Ok errors, df') ->
  App.validate_data_body df' = (Ok errors, df').
Proof.
  intros H.
  destruct (Data df) as [data|] eqn:Hd;
    [destruct (Tmin df) as [tmin|] eqn:Hmin;
       [destruct (Tmax df) as [tmax|] eqn:Hmax;
          [destruct (NF df) as [nf|] eqn:Hnf|]|]|].
  - rewrite (validate_data_body_present df data tmin tmax nf Hd Hmin Hmax Hnf) in H.
    injection H as <- <-.
    rewrite (validate_data_body_present (validated df data tmin tmax nf)
               (to_datetime_dayfirst_coerce data)
               (floats (to_numeric_coerce tmin)) (floats (to_numeric_coerce tmax))
               (floats (to_numeric_coerce nf)) eq_refl eq_refl eq_refl eq_refl).
    rewrite !to_numeric_coerce_floats. f_equal.
    unfold validated. simpl.
    rewrite to_datetime_dayfirst_coerce_idem, !to_numeric_coerce_floats. reflexivity.
  - destruct (validate_data_body_missing df) as (m & _ & Hm); [auto|].
    rewrite Hm in H. injection H as <- <-. exact Hm.
  - destruct (validate_data_body_missing df) as (m & _ & Hm); [auto|].
    rewrite Hm in H. injection H as <- <-. exact Hm.
  - destruct (validate_data_body_missing df) as (m & _ & Hm); [auto|].
    rewrite Hm in H. injection H as <- <-. exact Hm.
  - destruct (validate_data_body_missing df) as (m & _ & Hm); [auto|].
    rewrite Hm in H. injection H as <- <-. exact Hm.
Qed.

Lemma validate_data_idempotent_witness :
  App.validate_data_body (validated raw_upload
       [DateText (Some 1%Z) (Some 1%Z); DateText (Some 2%Z) (Some 2%Z);
        DateText (Some 3%Z) (Some 3%Z); DateText (Some 4%Z) (Some 4%Z);
        DateText (Some 5%Z) (Some 5%Z)]
       [Float (Val 10); Text "n/d"; Float (Val 14); Float (Val 16); Float (Val 18)]
       (floats [Val 20; Val 22; Val 24; Val 26; Val 28])
       (floats [Val 1; NaN; Val 2; Val 5; Val 8]))
  = (Ok [], validated raw_upload
       [DateText (Some 1%Z) (Some 1%Z); DateText (Some 2%Z) (Some 2%Z);
        DateText (Some 3%Z) (Some 3%Z); DateText (Some 4%Z) (Some 4%Z);
        DateText (Some 5%Z) (Some 5%Z)]
       [Float (Val 10); Text "n/d"; Float (Val 14); Float (Val 16); Float (Val 18)]
       (floats [Val 20; Val 22; Val 24; Val 26; Val 28])
       (floats [Val 1; NaN; Val 2; Val 5; Val 8])).
Proof.
  apply (validate_data_idempotent raw_upload). reflexivity.
Defined.

Lemma tmin_above_tmax_reported (tmin tmax : list num) :
  existsb (fun p => num_gtb p.1 p.2) (zip tmin tmax) = true ->
  exists i a b, tmin !! i = Some (Val a) /\ tmax !! i = Some (Val b) /\ b < a.
Proof.
  intros H. apply existsb_exists in H as ([x y] & Hin & Hgt).
  apply list_elem_of_In, list_elem_of_lookup in Hin as [i Hi].
  apply lookup_zip_with_Some in Hi as (x' & y' & Heq & Hx & Hy).
  injection Heq as Hx' Hy'. subst x' y'. simpl in Hgt.
  destruct x as [|a], y as [|b]; try discriminate Hgt.
  unfold num_gtb in Hgt. destruct (Qlt_le_dec b a); [|discriminate]. eauto 6.
Qed.

Lemma diff_from_negative (l : list num) (prev : num) (d : num) :
  d ∈ diff_from prev l -> num_ltb d (Val 0) = true ->
  (exists p x, prev = Val p /\ l !! 0%nat = Some (Val x) /\ x < p)
  \/ (exists k a b, l !! k = Some (Val a) /\ l !! S k = Some (Val b) /\ b < a).
Proof.
  revert prev. induction l as [|x l IH]; intros prev Hin Hneg; simpl in Hin.
  - apply elem_of_nil in Hin. contradiction.
  - apply elem_of_cons in Hin as [->|Hin].
    + left. destruct x as [|q]; [discriminate|].
      destruct prev as [|p]; [discriminate|]. simpl in Hneg.
      destruct (Qlt_le_dec (q - p) 0); [|discriminate].
      exists p, q. split; [reflexivity|]. split; [reflexivity|lra].
    + right. destruct (IH x Hin Hneg) as [(p & y & -> & Hy & Hlt)
                                         |(k & a & b & Ha & Hb & Hlt)].
      * exists 0%nat, p, y. auto.
      * exists (S k), a, b. auto.
Qed.

Lemma decrease_reported (nf : list num) :
  existsb (fun d => num_ltb d (Val 0)) (diff nf) = true ->
  exists k a b, nf !! k = Some (Val a) /\ nf !! S k = Some (Val b) /\ b < a.
Proof.
  intros H. apply existsb_exists in H as (d & Hin & Hneg).
  apply list_elem_of_In in Hin.
  destruct (diff_from_negative nf NaN d Hin Hneg) as [(p & x & Hp & _)|H]; [discriminate|exact H].
Qed.

(** X6: on a table with the four required columns [validate_data]
    reports the temperature message exactly when some row has both
    temperatures present and Tmin > Tmax, and the leaf count message
    exactly when two consecutive measured leaf counts (missing ones
    dropped) decrease; it reports nothing else. *)
Theorem validation_messages_exact
    (df : DataFrame) (dates : list dcell) (tmin tmax nf : list cell) :
  Data df = Some dates -> Tmin df = Some tmin -> Tmax df = Some tmax ->
  NF df = Some nf ->
  exists errors df',
    App.validate_data_body df = (Ok errors, df')
    /\ (App.TminAboveTmax ∈ errors
        <-> exists i a b, to_numeric_coerce tmin !! i = Some (Val a)
                          /\ to_numeric_coerce tmax !! i = Some (Val b) /\ b < a)
    /\ (App.NFDecreases ∈ errors
        <-> exists k a b, dropna (to_numeric_coerce nf) !! k = Some (Val a)
                          /\ dropna (to_numeric_coerce nf) !! S k = Some (Val b)
                          /\ b < a)
    /\ (forall m, m ∈ errors -> m = App.TminAboveTmax \/ m = App.NFDecreases).
Proof.
  intros Hd Hmin Hmax Hnf. eexists _, _.
  split; [apply validate_data_body_present; eassumption|].
  unfold data_quality_messages.
  split; [|split].
  - split.
    + intros Hin. apply tmin_above_tmax_reported.
      destruct (existsb _ (zip _ _)); [reflexivity|].
      destruct (existsb _ (diff _)); simpl in Hin;
        rewrite ?elem_of_cons, ?elem_of_nil in Hin; intuition discriminate.
    + intros (i & a & b & Ha & Hb & Hlt).
      rewrite (tmin_above_tmax_detected _ _ i a b Ha Hb Hlt).
      apply elem_of_app. left. apply list_elem_of_singleton. reflexivity.
  - split.
    + intros Hin. apply decrease_reported.
      destruct (existsb _ (diff _)); [reflexivity|].
      destruct (existsb _ (zip _ _)); simpl in Hin;
        rewrite ?elem_of_cons, ?elem_of_nil in Hin; intuition discriminate.
    + intros (k & a & b & Ha & Hb & Hlt).
      rewrite (decrease_detected _ k a b Ha Hb Hlt).
      apply elem_of_app. right. apply list_elem_of_singleton. reflexivity.
  - intros m.
    destruct (existsb _ (zip _ _)); destruct (existsb _ (diff _)); simpl;
      rewrite ?elem_of_cons, ?elem_of_nil; intuition.
Qed.

Lemma validation_messages_exact_witness :
  exists errors df',
    App.validate_data_body swapped_temperatures = (Ok errors, df')
    /\ (App.TminAboveTmax ∈ errors
        <-> exists i a b,
              to_numeric_coerce (floats [Val 20; Val 12; Val 14; Val 16; Val 18]) !! i
              = Some (Val a)
              /\ to_numeric_coerce (floats [Val 10; Val 22; Val 24; Val 26; Val 28]) !! i
                 = Some (Val b)
              /\ b < a).
Proof.
  destruct (validation_messages_exact swapped_temperatures
              [Stamp (Some 1%Z); Stamp (Some 2%Z); Stamp (Some 3%Z);
               Stamp (Some 4%Z); Stamp (Some 5%Z)]
              (floats [Val 20; Val 12; Val 14; Val 16; Val 18])
              (floats [Val 10; Val 22; Val 24; Val 26; Val 28])
              (floats [NaN; Val 2; NaN; Val 5; Val 8])
              eq_refl eq_refl eq_refl eq_refl)
    as (errors & df' & Hv & Ht & _).
  exists errors, df'. split; [exact Hv|exact Ht].
Defined.

(** X7: when a required column is absent [validate_data] returns at
    once: its only message lists exactly the required columns that are
    absent, in the order Data, Tmin, Tmax, NF, and the table is left as
    uploaded, with no conversion and no further check; when the four
    columns are there, no message about columns is produced. *)
Theorem missing_columns_reported_alone (df : DataFrame) :
  (absent_required df <> [] ->
   App.validate_data_body df = (Ok [App.MissingColumns (absent_required df)], df))
  /\ (absent_required df = [] ->
      forall errors df' cols,
        App.validate_data_body df = (Ok errors, df') ->
        App.MissingColumns cols ∉ errors).
Proof.
  split.
  - unfold absent_required, App.validate_data_body, App.columns.
    destruct (Data df), (Tmin df), (Tmax df), (NF df); simpl;
      first [reflexivity | congruence | intros _; reflexivity].
  - unfold absent_required.
    destruct (Data df) as [data|] eqn:Hd; [|discriminate].
    destruct (Tmin df) as [tmin|] eqn:Hmin; [|discriminate].
    destruct (Tmax df) as [tmax|] eqn:Hmax; [|discriminate].
    destruct (NF df) as [nf|] eqn:Hnf; [|discriminate].
    intros _ errors df' cols H.
    rewrite (validate_data_body_present df data tmin tmax nf Hd Hmin Hmax Hnf) in H.
    injection H as <- _. unfold data_quality_messages.
    destruct (existsb _ (zip _ _)); destruct (existsb _ (diff _)); simpl;
      rewrite ?elem_of_cons, ?elem_of_nil; intuition discriminate.
Qed.

Lemma missing_columns_reported_alone_witness :
  App.validate_data_body
    {| Data := None; Tmin := Tmin raw_upload; Tmax := None; NF := NF raw_upload;
       Tmed := None; STd := None; STa := None |}
  = (Ok [App.MissingColumns ["Data"; "Tmax"]%string],
     {| Data := None; Tmin := Tmin raw_upload; Tmax := None; NF := NF raw_upload;
        Tmed := None; STd := None; STa := None |}).
Proof.
  apply (proj1 (missing_columns_reported_alone
                  {| Data := None; Tmin := Tmin raw_upload; Tmax := None;
                     NF := NF raw_upload; Tmed := None; STd := None; STa := None |})).
  discriminate.
Defined.

(** ** What [calculate_tb] reads *)

Lemma calculate_tb_body_of_columns (df : DataFrame) :
  (App.calculate_tb_body df).1 = calculate_tb_of (Tmin df) (Tmax df) (NF df).
Proof.
  unfold calculate_tb_of.
  destruct (Tmin df) as [a|] eqn:Hmin;
    [|unfold App.calculate_tb_body, bind at 1, column at 1; rewrite Hmin;
      reflexivity].
  destruct (Tmax df) as [b|] eqn:Hmax;
    [|unfold App.calculate_tb_body, bind at 1, column at 1; rewrite Hmin;
      unfold bind at 1, column at 1; rewrite Hmax; reflexivity].
  destruct (as_floats a) as [tmin|e] eqn:Ha;
    [|unfold App.calculate_tb_body, bind at 1, column at 1; rewrite Hmin;
      unfold bind at 1, column at 1; rewrite Hmax;
      unfold bind at 1, lift at 1; rewrite Ha; reflexivity].
  destruct (as_floats b) as [tmax|e] eqn:Hb;
    [|unfold App.calculate_tb_body, bind at 1, column at 1; rewrite Hmin;
      unfold bind at 1, column at 1; rewrite Hmax;
      unfold bind at 1, lift at 1; rewrite Ha;
      unfold bind at 1, lift at 1; rewrite Hb; reflexivity].
  apply as_floats_inv in Ha, Hb. subst a b.
  destruct (NF df) as [nf|] eqn:Hnf.
  - apply calculate_tb_body_result; assumption.
  - unfold App.calculate_tb_body, bind at 1, column at 1. rewrite Hmin.
    unfold bind at 1, column at 1. rewrite Hmax.
    unfold bind at 1, lift at 1. rewrite as_floats_floats.
    unfold bind at 1, lift at 1. rewrite as_floats_floats.
    unfold bind at 1, assign at 1.
    unfold bind at 1, column at 1. simpl NF. rewrite Hnf. reflexivity.
Qed.

(** X12: the estimate of [calculate_tb] is a function of the Tmin, Tmax
    and NF columns alone, taken in file order: the dates are never read
    (missing, repeated or unsorted dates change nothing), and derived
    columns already in the table are overwritten before use. *)
Theorem estimate_ignores_dates (df1 df2 : DataFrame) :
  Tmin df1 = Tmin df2 -> Tmax df1 = Tmax df2 -> NF df1 = NF df2 ->
  (App.calculate_tb_body df1).1 = (App.calculate_tb_body df2).1.
Proof.
  intros Hmin Hmax Hnf. rewrite !calculate_tb_body_of_columns, Hmin, Hmax, Hnf.
  reflexivity.
Qed.

Lemma estimate_ignores_dates_witness :
  (App.calculate_tb_body scenario).1
  = (App.calculate_tb_body
       {| Data := Some [Stamp (Some 5%Z); Stamp None; Stamp (Some 5%Z);
                        Stamp (Some 1%Z); Stamp None];
          Tmin := Tmin scenario; Tmax := Tmax scenario; NF := NF scenario;
          Tmed := Some [NaN]; STd := None; STa := Some [Val 7] |}).1.
Proof.
  apply estimate_ignores_dates; reflexivity.
Defined.

(** ** A single measurement *)

Lemma ols_single (x y : Q) :
  coef_ (ols [x] [y]) == 0 /\ intercept_ (ols [x] [y]) == y.
Proof.
  assert (Hsxx : Qeq_bool (Qsum (map (fun x0 => sq (x0 - mean [x])) [x])) 0 = true).
  { apply Qeq_bool_iff. unfold mean, Qsum, Qlen, sq. simpl. field. }
  unfold ols. cbn [coef_ intercept_]. rewrite Hsxx.
  split; [reflexivity|]. unfold mean, Qsum, Qlen. simpl. field.
Qed.

Lemma score_sample_single (tb x y : Q) (row : App.result_row) :
  score_sample tb [Val x] (floats [Val y]) = Ok row ->
  App.QME row == 0 /\ App.R2 row = NaN.
Proof.
  unfold score_sample.
  change (as_floats (floats [Val y])) with (@Ok (list num) [Val y]).
  change (check_X_y [Val x] [Val y]) with (@Ok (list Q * list Q) ([x], [y])).
  cbv iota beta. intros [= <-]. cbn [App.QME App.R2]. split; [|reflexivity].
  destruct (ols_single x y) as [Hc _].
  unfold mean_squared_error, sum_sq_err, predict.
  cbn [map zip_with Qsum foldr]. unfold sq, Qlen. cbn [length].
  rewrite Hc. unfold mean, Qsum, Qlen. simpl. field.
Qed.

Lemma idxmin_all_equal (l : list Q) (i : nat) (c : Q) :
  Forall (fun q => q == c) l -> idxmin l = Ok i -> i = 0%nat.
Proof.
  intros Hall Hi. apply idxmin_spec in Hi as (v & Hv & _ & Hfirst).
  destruct i as [|i]; [reflexivity|]. exfalso.
  destruct l as [|w l]; [discriminate Hv|].
  specialize (Hfirst 0%nat w ltac:(lia) eq_refl).
  rewrite Forall_forall in Hall.
  pose proof (Hall w ltac:(left)) as Hw.
  pose proof (Hall v ltac:(apply list_elem_of_lookup; eauto)) as Hv'.
  rewrite Hw, Hv' in Hfirst. apply (Qlt_irrefl c). exact Hfirst.
Qed.

(** X13: with a single leaf count measured (on a day with both
    temperatures), [calculate_tb] returns: every candidate fits the one
    point exactly (QME 0, R² undefined), so the estimate reported is the
    first candidate, Tb = 0.0, whatever the temperatures are. *)
Theorem single_measurement_selects_first_candidate
    (df : DataFrame) (tmin tmax nf : list num) (y : Q) :
  Tmin df = Some (floats tmin) ->
  Tmax df = Some (floats tmax) ->
  NF df = Some (floats nf) ->
  length tmin = length nf ->
  length tmax = length nf ->
  present_values nf = [y] ->
  measured_with_temperatures tmin tmax nf ->
  exists rows best,
    (App.calculate_tb_body df).1 = Ok (rows, best)
    /\ (forall r, r ∈ rows -> App.QME r == 0 /\ App.R2 r = NaN)
    /\ rows !! 0%nat = Some best
    /\ App.Tb best == 0.
Proof.
  intros Hmin Hmax Hnf Hlmin Hlmax Hone Hmeas.
  pose proof (calculate_tb_body_result df tmin tmax (floats nf) Hmin Hmax Hnf) as Hres.
  destruct (score_all_cases tmin tmax nf Hlmin Hlmax)
    as [(_ & _ & rows & Hrows & Htb)|(Hnot & _)];
    [|exfalso; apply Hnot; split; [rewrite Hone; discriminate|exact Hmeas]].
  rewrite Hrows in Hres.
  destruct (score_all_rows _ _ _ _ _ Hrows) as (new & Hnew & Hall).
  simpl in Hnew. subst new.
  assert (Hscore : forall r, r ∈ rows -> App.QME r == 0 /\ App.R2 r = NaN).
  { intros r Hr. apply list_elem_of_lookup in Hr as [j Hj].
    destruct (Forall2_lookup_r _ _ _ _ _ Hall Hj) as (tb & _ & Hsc).
    destruct (measured_sample_X tmin tmax nf tb Hlmin Hlmax Hmeas)
      as (xs & Hfin & Hlen).
    rewrite Hone in Hlen. destruct xs as [|x [|x' xs]]; try discriminate Hlen.
    revert Hsc. unfold score_sample.
    rewrite as_floats_sample_y, check_X_y_cases, Hfin, Hone. simpl.
    intros Hsc. apply (score_sample_single tb x y).
    unfold score_sample. simpl. exact Hsc. }
  destruct rows as [|r0 rows]; [discriminate Htb|].
  destruct (idxmin_nonempty (map App.QME (r0 :: rows))) as (i & Hi); [discriminate|].
  assert (i = 0%nat) as ->.
  { apply (idxmin_all_equal (map App.QME (r0 :: rows)) i 0); [|exact Hi].
    apply Forall_forall. intros q Hq.
    apply list_elem_of_In, in_map_iff in Hq as (r & <- & Hr).
    apply list_elem_of_In in Hr. apply (Hscore r Hr). }
  rewrite Hi in Hres. simpl in Hres.
  exists (r0 :: rows), r0. split; [exact Hres|]. split; [exact Hscore|].
  split; [reflexivity|].
  injection Htb as Htb0 _. rewrite Htb0. reflexivity.
Qed.

Lemma single_measurement_selects_first_candidate_witness :
  exists rows best,
    (App.calculate_tb_body
       {| Data := Data scenario; Tmin := Tmin scenario; Tmax := Tmax scenario;
          NF := Some (floats [NaN; NaN; Val 4; NaN; NaN]);
          Tmed := None; STd := None; STa := None |}).1 = Ok (rows, best)
    /\ rows !! 0%nat = Some best
    /\ App.Tb best == 0.
Proof.
  destruct (single_measurement_selects_first_candidate
              {| Data := Data scenario; Tmin := Tmin scenario; Tmax := Tmax scenario;
                 NF := Some (floats [NaN; NaN; Val 4; NaN; NaN]);
                 Tmed := None; STd := None; STa := None |}
              [Val 10; Val 12; Val 14; Val 16; Val 18]
              [Val 20; Val 22; Val 24; Val 26; Val 28]
              [NaN; NaN; Val 4; NaN; NaN] 4
              eq_refl eq_refl eq_refl eq_refl eq_refl eq_refl)
    as (rows & best & Hres & _ & Hfirst & Htb).
  { intros [|[|[|[|[|i]]]]] v Hv; try discriminate Hv; eauto. }
  exists rows, best. split; [exact Hres|]. split; [exact Hfirst|exact Htb].
Defined.

(** ** The outcomes of an upload *)

Lemma calculate_tb_body_cases (df : DataFrame) (tmin tmax nf : list num) :
  Tmin df = Some (floats tmin) ->
  Tmax df = Some (floats tmax) ->
  NF df = Some (floats nf) ->
  length tmin = length nf ->
  length tmax = length nf ->
  (present_values nf <> [] /\ measured_with_temperatures tmin tmax nf
   /\ exists rows best,
        (App.calculate_tb_body df).1 = Ok (rows, best)
        /\ map App.Tb rows = base_temps /\ best ∈ rows)
  \/ (~ (present_values nf <> [] /\ measured_with_temperatures tmin tmax nf)
      /\ (App.calculate_tb_body df).1 = Raise ValueError).
Proof.
  intros Hmin Hmax Hnf Hlmin Hlmax.
  pose proof (calculate_tb_body_result df tmin tmax (floats nf) Hmin Hmax Hnf) as Hres.
  destruct (score_all_cases tmin tmax nf Hlmin Hlmax)
    as [(Hne & Hall & rows & Hrows & Htb)|(Hnot & Hraise)].
  - left. split; [exact Hne|]. split; [exact Hall|].
    destruct rows as [|r rows]; [discriminate Htb|].
    destruct (idxmin_nonempty (map App.QME (r :: rows))) as (i & Hi); [discriminate|].
    destruct (idxmin_spec _ _ Hi) as (v & Hv & _).
    rewrite list_lookup_fmap in Hv.
    destruct ((r :: rows) !! i) as [best|] eqn:Hb; [|discriminate].
    rewrite Hrows, Hi, Hb in Hres.
    exists (r :: rows), best. split; [exact Hres|]. split; [exact Htb|].
    apply list_elem_of_lookup. eauto.
  - right. split; [exact Hnot|]. rewrite Hraise in Hres. exact Hres.
Qed.

(** X14: what an upload with the four required columns leads to in
    [app.py], end to end.  Either validation reports messages and the
    page shows them; or it reports none, some day has a leaf count, every
    such day has both temperatures, and the page shows the 41-row results
    table with its best row; or it reports none and the estimation raises
    [ValueError] out of the page (no leaf count at all, or a leaf count on
    a day without a temperature). *)
Theorem upload_outcomes
    (data : loc) (f : DataFrame) (h : heap)
    (dates : list dcell) (tmin tmax nf : list cell) :
  h !! data = Some f ->
  Data f = Some dates -> Tmin f = Some tmin -> Tmax f = Some tmax ->
  NF f = Some nf ->
  length tmin = length nf -> length tmax = length nf ->
  let tmin' := to_numeric_coerce tmin in
  let tmax' := to_numeric_coerce tmax in
  let nf' := to_numeric_coerce nf in
  let errors := data_quality_messages tmin' tmax' nf' in
  let estimable :=
    present_values nf' <> [] /\ measured_with_temperatures tmin' tmax' nf' in
  (errors <> []
   /\ (App.main_application_logic (Some data) h).1 = Ok (App.Problems errors))
  \/ (errors = [] /\ estimable
      /\ exists rows best,
           (App.main_application_logic (Some data) h).1 = Ok (App.Results rows best)
           /\ map App.Tb rows = base_temps /\ best ∈ rows)
  \/ (errors = [] /\ ~ estimable
      /\ (App.main_application_logic (Some data) h).1 = Raise ValueError).
Proof.
  intros Hdata Hd Hmin Hmax Hnf Hlmin Hlmax tmin' tmax' nf' errors estimable.
  pose proof (validate_data_body_present f dates tmin tmax nf Hd Hmin Hmax Hnf) as Hv.
  rewrite (main_application_logic_run data f _ h _ Hdata Hv).
  fold tmin' tmax' nf' errors.
  clearbody errors. destruct errors as [|m errs].
  - right.
    destruct (calculate_tb_body_cases (validated f dates tmin tmax nf)
                tmin' tmax' nf' eq_refl eq_refl eq_refl)
      as [(Hne & Hall & rows & best & Hres & Htb & Hbest)|(Hnot & Hres)].
    + subst tmin' nf'. rewrite !length_to_numeric_coerce. exact Hlmin.
    + subst tmax' nf'. rewrite !length_to_numeric_coerce. exact Hlmax.
    + left. split; [reflexivity|]. split; [split; assumption|].
      exists rows, best. split; [|split; assumption].
      cbv zeta. destruct (App.calculate_tb_body _) as [[[rows' best']|e] f''];
        simpl in Hres |- *; congruence.
    + right. split; [reflexivity|]. split; [exact Hnot|].
      cbv zeta. destruct (App.calculate_tb_body _) as [[[rows' best']|e] f''];
        simpl in Hres |- *; congruence.
  - left. split; [discriminate|reflexivity].
Qed.

Lemma upload_outcomes_witness :
  exists rows best,
    (App.main_application_logic (Some 1%positive) {[ 1%positive := raw_upload ]}).1
    = Ok (App.Results rows best)
    /\ map App.Tb rows = base_temps /\ best ∈ rows.
Proof.
  destruct (upload_outcomes 1%positive raw_upload {[ 1%positive := raw_upload ]}
              _ _ _ _ (lookup_singleton_eq _ _) eq_refl eq_refl eq_refl eq_refl
              eq_refl eq_refl)
    as [[Hne _]|[(_ & _ & Hres)|(_ & Hnot & _)]].
  - exfalso. apply Hne. reflexivity.
  - exact Hres.
  - exfalso. apply Hnot. split; [discriminate|].
    intros [|[|[|[|[|i]]]]] v Hv; try discriminate Hv; eauto.
Defined.

Lemma Qsum_all_zero (l : list Q) : Forall (fun x => x == 0) l -> Qsum l == 0.
Proof.
  induction 1 as [|x l Hx _ IH]; simpl; [reflexivity|]. rewrite Hx, IH. ring.
Qed.

Lemma present_values_Forall (P : Q -> Prop) (l : list num) :
  Forall (fun x => match x with Val q => P q | NaN => True end) l ->
  Forall P (present_values l).
Proof.
  induction 1 as [|[|q] l Hq _ IH]; simpl; [constructor|exact IH|].
  constructor; assumption.
Qed.

Lemma ols_flat (xs ys : list Q) :
  Forall (fun x => x == 0) xs ->
  ols xs ys = {| coef_ := 0; intercept_ := mean ys - 0 * mean xs |}.
Proof.
  intros Hxs.
  assert (Hmean : mean xs == 0).
  { unfold mean. rewrite (Qsum_all_zero xs Hxs). unfold Qdiv. ring. }
  assert (Hsxx : Qeq_bool (Qsum (map (fun x => sq (x - mean xs)) xs)) 0 = true).
  { apply Qeq_bool_iff, Qsum_all_zero.
    apply Forall_forall. intros q Hq.
    apply list_elem_of_In, in_map_iff in Hq as (x & <- & Hx).
    apply list_elem_of_In in Hx. rewrite Forall_forall in Hxs.
    unfold sq. rewrite (Hxs x Hx), Hmean. ring. }
  unfold ols. cbv zeta. rewrite Hsxx. reflexivity.
Qed.

Lemma r2_score_flat (xs ys : list Q) (v : Q) :
  length xs = length ys ->
  r2_score ys (predict {| coef_ := 0; intercept_ := mean ys - 0 * mean xs |} xs)
  = Val v ->
  v == 0 \/ v == 1.
Proof.
  intros Hlen. unfold r2_score.
  destruct (length ys <? 2)%nat; [discriminate|].
  pose proof (sum_sq_err_line xs ys 0 (mean xs) (mean ys) Hlen) as Hsse.
  set (ss_res := sum_sq_err ys _) in *.
  set (ss_tot := Qsum (map (fun y => sq (y - mean ys)) ys)) in *.
  destruct (Qeq_bool ss_tot 0) eqn:Hz.
  - destruct (Qeq_bool ss_res 0); intros [= <-]; [right|left]; reflexivity.
  - assert (Hne : ~ ss_tot == 0) by (apply Qeq_bool_neq; exact Hz).
    intros [= <-]. left. rewrite Hsse. field. exact Hne.
Qed.

Lemma calcular_std_above (tmed : list num) (tb : Q) :
  (forall i m, tmed !! i = Some (Val m) -> m <= tb) ->
  Forall (fun x => match x with Val q => q == 0 | NaN => True end)
         (Excel.calcular_std tmed tb).
Proof.
  intros Habove. apply Forall_forall. intros x Hx.
  apply list_elem_of_lookup in Hx as [i Hi].
  unfold Excel.calcular_std in Hi.
  change (map ?f tmed) with (f <$> tmed) in Hi.
  rewrite list_lookup_fmap in Hi.
  destruct (tmed !! i) as [[|m]|] eqn:Hm; try discriminate Hi.
  - injection Hi as <-. exact I.
  - injection Hi as <-. specialize (Habove i m Hm). simpl.
    destruct (Qlt_le_dec (m - tb) 0); [reflexivity|lra].
Qed.

Lemma cumsum_all_zero (l : list num) (i : nat) (a : Q) :
  Forall (fun x => match x with Val q => q == 0 | NaN => True end) l ->
  cumsum l !! i = Some (Val a) -> a == 0.
Proof.
  intros Hl Ha.
  destruct (l !! i) as [[|s]|] eqn:Hi.
  - rewrite (cumsum_lookup_nan l i Hi) in Ha. discriminate Ha.
  - destruct (cumsum_lookup_val l i s Hi) as (t & Ht & Heq).
    rewrite Ht in Ha. injection Ha as <-. rewrite Heq.
    apply Qsum_all_zero, present_values_Forall, Forall_take. exact Hl.
  - apply lookup_lt_Some in Ha. apply lookup_ge_None in Hi.
    unfold cumsum in Ha. rewrite length_cumsum_from in Ha. lia.
Qed.

(** ** Candidates above the daily mean temperatures *)

Lemma floats_inj (l1 l2 : list num) : floats l1 = floats l2 -> l1 = l2.
Proof.
  intros H. pose proof (as_floats_floats l1) as H1. rewrite H, as_floats_floats in H1.
  congruence.
Qed.

Lemma on_pheno_index_elem {A} (nf : list cell) (col : list A) (c : A) :
  c ∈ App.on_pheno_index nf col -> exists i, col !! i = Some c.
Proof.
  unfold App.on_pheno_index. intros Hc.
  apply list_elem_of_fmap in Hc as ([c' n] & -> & Hp).
  apply list_elem_of_filter in Hp as [_ Hp].
  apply elem_of_zip_l in Hp. apply list_elem_of_lookup in Hp. exact Hp.
Qed.

Lemma finite_values_elem (l : list num) (xs : list Q) (x : Q) :
  finite_values l = Some xs -> x ∈ xs -> Val x ∈ l.
Proof.
  revert xs. induction l as [|c l IH]; intros xs; simpl.
  - intros [= <-] Hx. apply elem_of_nil in Hx. contradiction.
  - destruct c as [|q]; [discriminate|].
    destruct (finite_values l) as [qs|]; [|discriminate].
    intros [= <-] Hx. apply elem_of_cons in Hx as [->|Hx].
    + apply elem_of_cons. left. reflexivity.
    + apply elem_of_cons. right. eapply IH; eauto.
Qed.

Lemma check_X_y_covariates (X y : list num) (xs ys : list Q) :
  check_X_y X y = Ok (xs, ys) -> finite_values X = Some xs.
Proof.
  unfold check_X_y.
  destruct (finite_values X) as [xs'|]; [|discriminate].
  destruct (finite_values y) as [ys'|]; [|discriminate].
  destruct xs' as [|x xs']; [discriminate|].
  destruct (Nat.eqb (length (x :: xs')) (length ys')); [|discriminate].
  intros [= <- <-]. reflexivity.
Qed.

(** X17: a candidate of [calculate_tb] at or above every daily mean
    temperature carries no information: every present value of its
    accumulated thermal sum is 0, and the R² of its row, when defined,
    is 0 (or 1, which asks for leaf counts that are all equal). *)
Theorem candidate_above_daily_means_is_flat
    (df : DataFrame) (tmin tmax : list num) rows best r :
  Tmin df = Some (floats tmin) -> Tmax df = Some (floats tmax) ->
  (App.calculate_tb_body df).1 = Ok (rows, best) ->
  r ∈ rows ->
  (forall i m, Excel.calcular_tmed tmin tmax !! i = Some (Val m) -> m <= App.Tb r) ->
  (forall i a,
     cumsum (Excel.calcular_std (Excel.calcular_tmed tmin tmax) (App.Tb r)) !! i
     = Some (Val a) -> a == 0)
  /\ (forall v, App.R2 r = Val v -> v == 0 \/ v == 1).
Proof.
  intros Hmin Hmax Hok Hr Habove.
  assert (Hsta : forall i a,
            cumsum (Excel.calcular_std (Excel.calcular_tmed tmin tmax) (App.Tb r)) !! i
            = Some (Val a) -> a == 0).
  { intros i a. apply cumsum_all_zero, calcular_std_above, Habove. }
  split; [exact Hsta|].
  destruct (calculate_tb_body_ok_inv df rows best Hok)
    as (tmin' & tmax' & nf & i & Hmin' & Hmax' & _ & Hall & _).
  rewrite Hmin in Hmin'. rewrite Hmax in Hmax'.
  injection Hmin' as Hmin'. injection Hmax' as Hmax'.
  apply floats_inj in Hmin', Hmax'. subst tmin' tmax'.
  destruct (score_all_rows _ _ _ _ _ Hall) as (new & -> & Hrows).
  simpl in Hr. apply list_elem_of_lookup in Hr as [j Hj].
  destruct (Forall2_lookup_r _ _ _ _ _ Hrows Hj) as (tb & _ & Hrow).
  destruct (score_sample_bounds _ _ _ _ Hrow) as (Htb & _). subst tb.
  revert Hrow. unfold score_sample.
  destruct (as_floats (sample_y nf)) as [yv|]; [|discriminate].
  destruct (check_X_y _ yv) as [[xs ys]|] eqn:Hchk; [|discriminate].
  intros Hrow v Hv.
  assert (Hxs : Forall (fun x => x == 0) xs).
  { apply Forall_forall. intros x Hx.
    pose proof (finite_values_elem _ _ x (check_X_y_covariates _ _ _ _ Hchk) Hx) as HX.
    apply on_pheno_index_elem in HX as (k & Hk). exact (Hsta k x Hk). }
  rewrite (ols_flat xs ys Hxs) in Hrow.
  injection Hrow as Hrow. rewrite <- Hrow in Hv. simpl in Hv.
  exact (r2_score_flat xs ys v (check_X_y_inv _ _ _ _ Hchk) Hv).
Qed.

Lemma candidate_above_daily_means_is_flat_witness :
  exists rows best r,
    (App.calculate_tb_body cool_season).1 = Ok (rows, best)
    /\ rows !! 40%nat = Some r
    /\ App.Tb r == 20
    /\ forall v, App.R2 r = Val v -> v == 0 \/ v == 1.
Proof.
  assert (Hok : is_ok (App.calculate_tb_body cool_season) = true)
    by (vm_compute; reflexivity).
  revert Hok.
  destruct (App.calculate_tb_body cool_season) as [[[rows best]|e] df'] eqn:H;
    intros Hok; [|discriminate Hok].
  assert (H1 : (App.calculate_tb_body cool_season).1 = Ok (rows, best))
    by (rewrite H; reflexivity).
  destruct (calculate_tb_body_inv cool_season rows best df' H) as (i & _ & _ & Hgrid).
  assert (Hr : exists r, rows !! 40%nat = Some r /\ App.Tb r == 20).
  { destruct (Forall2_lookup_l _ _ _ 40%nat (Qred (inject_Z 40 * (1 # 2))) Hgrid eq_refl)
      as (r & Hr & Htb).
    exists r. split; [exact Hr|]. rewrite Htb. reflexivity. }
  destruct Hr as (r & Hr & Htb).
  exists rows, best, r. split; [reflexivity|]. split; [exact Hr|]. split; [exact Htb|].
  refine (proj2 (candidate_above_daily_means_is_flat cool_season
                   [Val 2; Val 3; Val 4; Val 5; Val 6]
                   [Val 8; Val 9; Val 10; Val 11; Val 12]
                   rows best r eq_refl eq_refl H1 _ _)).
  - apply list_elem_of_lookup. eauto.
  - intros [|[|[|[|[|k]]]]] m Hm; try discriminate Hm;
      injection Hm as <-; rewrite Htb; vm_compute; discriminate.
Defined.

(** ** Column detection *)

Lemma cols_with_raises (lower : string -> string) termos colunas :
  Colunas.cols_with lower termos colunas = None <-> Colunas.LabelOther ∈ colunas.
Proof.
  induction colunas as [|[col|] colunas IH]; simpl.
  - split; [discriminate|]. intros H. apply elem_of_nil in H. contradiction.
  - rewrite elem_of_cons, <- IH.
    destruct (Colunas.cols_with lower termos colunas);
      (split; [intros H; try discriminate H; right; reflexivity
              |intros [H|H]; try discriminate H; reflexivity]).
  - split; [intros _; left|reflexivity].
Qed.

Lemma cols_with_head (lower : string -> string) termos colunas cols :
  Colunas.cols_with lower termos colunas = Some cols ->
  first_with lower termos colunas (head cols).
Proof.
  revert cols. induction colunas as [|[col|] colunas IH]; intros cols; simpl.
  - intros [= <-]. simpl. intros col H. apply elem_of_nil in H. contradiction.
  - destruct (Colunas.cols_with lower termos colunas) as [cols'|]; [|discriminate].
    specialize (IH cols' eq_refl).
    destruct (Colunas.any_termo_in lower termos col) eqn:Hcol; intros [= <-]; simpl.
    + exists 0%nat. split; [reflexivity|]. split; [exact Hcol|]. intros j col' Hj. lia.
    + destruct (head cols') as [c|]; simpl in IH |- *.
      * destruct IH as (i & Hi & Hc & Hfirst). exists (S i).
        split; [exact Hi|]. split; [exact Hc|].
        intros [|j] col' Hj Hlook; [injection Hlook as <-; exact Hcol|].
        apply (Hfirst j); [lia|exact Hlook].
      * intros c Hc. apply elem_of_cons in Hc as [[= ->]|Hc]; [exact Hcol|].
        apply IH. exact Hc.
  - discriminate.
Qed.

(** X18: [detectar_colunas_automaticamente] raises (AttributeError,
    from [col.lower()]) exactly when some column label is not text.
    Otherwise it returns all the labels and, for each of Tmin, Tmax and
    NF, the first column in sheet order whose lower-cased name contains
    one of the terms of that role, or None when no column does; it never
    returns a name that is not a column of the sheet. *)
Theorem detection_returns_first_match
    (lower : string -> string) (colunas : list Colunas.label) :
  (Colunas.detectar_colunas_automaticamente lower colunas = Colunas.RaisesAttributeError
   <-> Colunas.LabelOther ∈ colunas)
  /\ (forall d, Colunas.detectar_colunas_automaticamente lower colunas = Colunas.Detectadas d ->
        Colunas.todas_colunas d = colunas
        /\ first_with lower ["tmin"; "t min"; "temp min"; "temperatura min"]%string
             colunas (Colunas.tmin d)
        /\ first_with lower ["tmax"; "t max"; "temp max"; "temperatura max"]%string
             colunas (Colunas.tmax d)
        /\ first_with lower ["nf"; "folhas"; "numero"; "número"; "leaves"]%string
             colunas (Colunas.nf d)).
Proof.
  unfold Colunas.detectar_colunas_automaticamente.
  destruct (Colunas.cols_with lower ["tmin"; _; _; _]%string colunas) as [c1|] eqn:H1;
    [|split; [split; [intros _|reflexivity]|discriminate];
      eapply cols_with_raises; exact H1].
  destruct (Colunas.cols_with lower ["tmax"; _; _; _]%string colunas) as [c2|] eqn:H2;
    [|split; [split; [intros _|reflexivity]|discriminate];
      eapply cols_with_raises; exact H2].
  destruct (Colunas.cols_with lower ["nf"; _; _; _; _]%string colunas) as [c3|] eqn:H3;
    [|split; [split; [intros _|reflexivity]|discriminate];
      eapply cols_with_raises; exact H3].
  split.
  - split; [discriminate|]. intros H.
    apply (cols_with_raises lower ["tmin"; "t min"; "temp min"; "temperatura min"]%string)
      in H. rewrite H1 in H. discriminate H.
  - intros d [= <-]. simpl. split; [reflexivity|].
    split; [|split]; apply cols_with_head; assumption.
Qed.

Lemma detection_returns_first_match_witness :
  first_with ascii_lower ["tmin"; "t min"; "temp min"; "temperatura min"]%string
    [Colunas.LabelText "Data"; Colunas.LabelText "Temp Max"; Colunas.LabelText "Temp Min";
     Colunas.LabelText "TMIN 2"; Colunas.LabelText "Folhas"]
    (Some "Temp Min"%string).
Proof.
  exact (proj1 (proj2 (proj2 (detection_returns_first_match ascii_lower
                                [Colunas.LabelText "Data"; Colunas.LabelText "Temp Max";
                                 Colunas.LabelText "Temp Min"; Colunas.LabelText "TMIN 2";
                                 Colunas.LabelText "Folhas"])
                         _ eq_refl))).
Defined.
